(** * Direktive.ai Home Assistant integration: a shallow embedding

    The Python sources under [custom_components/direktive] are embedded as
    Rocq functions over explicit state.  Python dictionaries are finite maps
    ([gmap string value]), awaits on the network or on the host are calls to
    an explicit oracle, and exceptions are the [Raised] results of a small
    error monad.  The first part of the file holds the definitions, module by
    module as in the repository; the second part holds the lemmas. *)

From Stdlib Require Import ZArith Lia.
From Stdlib.Strings Require Import Byte Ascii.
From stdpp Require Import gmap strings list fin_maps.

Local Open Scope Z_scope.
Local Open Scope string_scope.
Local Open Scope list_scope.

(* ===================================================================== *)
(** * Part I: definitions *)
(* ===================================================================== *)

(** ** Python values and exceptions *)

Module py.

(** JSON-shaped Python values: what [json.loads] produces and what the
    integration passes around. *)
#[warnings="-register-all"] Inductive value : Type :=
  | VNone
  | VBool (b : bool)
  | VInt (z : Z)
  | VStr (s : string)
  | VList (l : list value)
  | VDict (d : gmap string value).

Abbreviation pydict := (gmap string value).

(** The exception classes that the embedded code can meet. *)
Inductive exn : Type :=
  | TypeError
  | ValueError
  | AttributeError
  | KeyError
  | UnboundLocalError
  | JSONDecodeError
  | Exception (msg : string).

(** A call either returns or raises. *)
Inductive res (A : Type) : Type :=
  | Ok (a : A)
  | Raised (e : exn).
Arguments Ok {A} a.
Arguments Raised {A} e.

Definition bind {A B} (m : res A) (k : A -> res B) : res B :=
    match m with
    | Ok a => k a
    | Raised e => Raised e
    end.

(** Python truthiness, the test behind [if x] and [not x]. *)
Definition truthy (v : value) : bool :=
    match v with
    | VNone => false
    | VBool b => b
    | VInt z => negb (Z.eqb z 0)
    | VStr s => negb (String.eqb s "")
    | VList l => match l with [] => false | _ => true end
    | VDict d => negb (Nat.eqb (size d) 0)
    end.

(** [d.get(k)]: the value under [k], or [None]. *)
Definition get (d : pydict) (k : string) : value := default VNone (d !! k).

(** [d.get(k, dflt)]. *)
Definition get_default (d : pydict) (k : string) (dflt : value) : value :=
    default dflt (d !! k).

(** [v == s] for a string literal [s]: only a string equals a string. *)
Definition eq_str (v : value) (s : string) : bool :=
    match v with
    | VStr t => String.eqb t s
    | _ => false
    end.

(** [v in [s1, ..., sn]] for a list of string literals. *)
Definition in_strs (v : value) (l : list string) : bool :=
    existsb (eq_str v) l.

(** [v.get]: only a dictionary has the method. *)
Definition as_dict (v : value) : res pydict :=
    match v with
    | VDict d => Ok d
    | _ => Raised AttributeError
    end.

(** [v is None]. *)
Definition is_none (v : value) : bool :=
    match v with
    | VNone => true
    | _ => false
    end.

(** [k in s] for two strings: [k] occurs in [s]. *)
Fixpoint occurs_in (k s : string) : bool :=
    String.prefix k s
    || match s with
       | EmptyString => false
       | String _ s' => occurs_in k s'
       end.

(** [k in v] for a string [k]: a key of a dictionary, an element of a
    list, a substring of a string; nothing else is a container. *)
Definition contains (v : value) (k : string) : res bool :=
    match v with
    | VDict d => Ok (bool_decide (is_Some (d !! k)))
    | VList l => Ok (existsb (fun x => eq_str x k) l)
    | VStr s => Ok (occurs_in k s)
    | _ => Raised TypeError
    end.

(** [v[k]] for a string [k]: only a dictionary can be indexed by one. *)
Definition getitem (v : value) (k : string) : res value :=
    match v with
    | VDict d =>
        match d !! k with
        | Some x => Ok x
        | None => Raised KeyError
        end
    | _ => Raised TypeError
    end.

(** The string methods of [v]: only a string has them. *)
Definition as_str (v : value) : res string :=
    match v with
    | VStr s => Ok s
    | _ => Raised AttributeError
    end.

(** [s.split('.')[0]]: what precedes the first dot. *)
Fixpoint before_dot (s : string) : string :=
    match s with
    | EmptyString => EmptyString
    | String c s' =>
        if Ascii.eqb c "."%char then EmptyString
        else String c (before_dot s')
    end.

(** The single characters of a string, as strings. *)
Fixpoint chars (s : string) : list value :=
    match s with
    | EmptyString => []
    | String c s' => VStr (String c EmptyString) :: chars s'
    end.

(** What [for x in v] runs over: the elements of a list, the keys of a
    dictionary, the characters of a string. *)
Definition iterate (v : value) : res (list value) :=
    match v with
    | VList l => Ok l
    | VDict d => Ok (VStr <$> (map_to_list d).*1)
    | VStr s => Ok (chars s)
    | _ => Raised TypeError
    end.

End py.
Import py.

(** [res] is an error monad; stdpp's notation [x ← m; k] sequences calls and
    lets the first exception escape. *)
#[global] Instance res_ret : MRet res := fun _ a => Ok a.
#[global] Instance res_bind : MBind res := fun _ _ k m => bind m k.
#[global] Instance res_fmap : FMap res := fun _ _ f m => bind m (fun a => Ok (f a)).

(** ** const.py *)

Module const.
Definition CONF_ENCRYPTION_KEY := "encryption_key".
Definition CONF_SUBSCRIPTION_TYPE := "subscription_type".
Definition CONF_WEBHOOK_SECRET := "webhook_secret".
Definition CONF_INITIAL_BULK_UPDATE_PERFORMED := "initial_bulk_update_performed".
Definition SUBSCRIPTION_TYPE_BASIC := "basic".
Definition SUBSCRIPTION_TYPE_PRO := "pro".
Definition ENCRYPTION_KEY_LENGTH : nat := 32.
Definition ENCRYPTION_IV_LENGTH : nat := 16.
End const.

(** ** encryption.py *)

Module encryption.

(** A byte string. *)
Abbreviation bytes := (list byte).

(** The library primitives [encrypt_data] and [decrypt_data] are built
    from: base64, UTF-8, json and the AES block function.  They live
    outside the repository and are taken as an interface. *)
Class Primitives : Type := {
    b64encode : bytes -> string;
    b64decode : string -> res bytes;
    utf8_encode : string -> bytes;
    utf8_decode : bytes -> res string;
    json_dumps : value -> string;
    json_loads : string -> res value;
    aes_encrypt_block : bytes -> bytes -> bytes;
    aes_decrypt_block : bytes -> bytes -> bytes
  }.

(** The documented laws of the primitives: decoding undoes encoding, and
    under one key the AES block function is a permutation of 16-byte
    blocks. *)
Class PrimitiveLaws (P : Primitives) : Prop := {
    b64_roundtrip : forall bs, b64decode (b64encode bs) = Ok bs;
    utf8_roundtrip : forall s, utf8_decode (utf8_encode s) = Ok s;
    aes_block_length : forall k b,
      length b = 16%nat -> length (aes_encrypt_block k b) = 16%nat;
    aes_block_inverse : forall k b,
      length b = 16%nat -> aes_decrypt_block k (aes_encrypt_block k b) = b
  }.

Section with_primitives.
Context {P : Primitives}.

(** What [json.dumps] accepts it does not always give back: a value
    is serializable here when [json.loads] returns it from its dump. *)
Definition json_serializable (v : value) : Prop :=
      json_loads (json_dumps v) = Ok v.

(** Bitwise exclusive or of two octets. *)
Definition byte_xor (a b : byte) : byte :=
      let '(a0, (a1, (a2, (a3, (a4, (a5, (a6, a7))))))) := Byte.to_bits a in
      let '(b0, (b1, (b2, (b3, (b4, (b5, (b6, b7))))))) := Byte.to_bits b in
      Byte.of_bits
        (xorb a0 b0, (xorb a1 b1, (xorb a2 b2, (xorb a3 b3,
        (xorb a4 b4, (xorb a5 b5, (xorb a6 b6, xorb a7 b7))))))).

Definition xor_bytes (a b : bytes) : bytes := zip_with byte_xor a b.

(** The octet holding [n]; [n] is at most 16 where it is used. *)
Definition byte_of_nat (n : nat) : byte := default x00 (Byte.of_nat n).

(** [padding.PKCS7(128).padder()]: between 1 and 16 bytes are appended,
    each holding the number of bytes appended. *)
Definition pkcs7_pad (data : bytes) : bytes :=
      let n := (16 - length data mod 16)%nat in
      data ++ replicate n (byte_of_nat n).

(** [padding.PKCS7(128).unpadder()]: the input is a non-empty run of
    whole blocks whose last byte [v] is in 1..16 and whose last [v]
    bytes all equal [v]. *)
Definition pkcs7_unpad (data : bytes) : res bytes :=
      match last data with
      | None => Raised ValueError
      | Some v =>
          let n := Byte.to_nat v in
          if Nat.eqb (length data mod 16) 0
             && Nat.leb 1 n && Nat.leb n 16
             && forallb (Byte.eqb v) (drop (length data - n) data)
          then Ok (take (length data - n) data)
          else Raised ValueError
      end.

(** CBC chaining over [k] blocks of 16 bytes; [prev] is the IV for the
    first block and the previous ciphertext block afterwards. *)
Fixpoint cbc_encrypt (key : bytes) (k : nat) (prev data : bytes) : bytes :=
      match k with
      | O => []
      | S k' =>
          let c := aes_encrypt_block key (xor_bytes (take 16 data) prev) in
          c ++ cbc_encrypt key k' c (drop 16 data)
      end.

Fixpoint cbc_decrypt (key : bytes) (k : nat) (prev data : bytes) : bytes :=
      match k with
      | O => []
      | S k' =>
          let c := take 16 data in
          xor_bytes (aes_decrypt_block key c) prev
            ++ cbc_decrypt key k' c (drop 16 data)
      end.

(** [Cipher(algorithms.AES(key), modes.CBC(iv))]: AES takes keys of 128,
    192 or 256 bits and CBC an IV of one block. *)
Definition cipher_ok (key iv : bytes) : bool :=
      (Nat.eqb (length key) 16 || Nat.eqb (length key) 24
       || Nat.eqb (length key) 32)
      && Nat.eqb (length iv) 16.

(** [encryptor.update(data) + encryptor.finalize()]: without padding of
    its own the context refuses a trailing partial block. *)
Definition cipher_encrypt (key iv data : bytes) : res bytes :=
      if Nat.eqb (length data mod 16) 0
      then Ok (cbc_encrypt key (length data / 16) iv data)
      else Raised ValueError.

Definition cipher_decrypt (key iv data : bytes) : res bytes :=
      if Nat.eqb (length data mod 16) 0
      then Ok (cbc_decrypt key (length data / 16) iv data)
      else Raised ValueError.

(** [base64.b64decode(encryption_key)]; the key may be unset. *)
Definition decode_key (encryption_key : option string) : res bytes :=
      match encryption_key with
      | None => Raised TypeError
      | Some k => b64decode k
      end.

(** The body of [encrypt_data] up to the final base64 step: the IV
    followed by the ciphertext.  [iv] is the result of [os.urandom(16)]. *)
Definition encrypt_raw (data : value) (encryption_key : option string)
        (iv : bytes) : res (bytes * bytes) :=
      key ← decode_key encryption_key;
      if cipher_ok key iv then
        let plaintext := json_dumps data in
        let padded_data := pkcs7_pad (utf8_encode plaintext) in
        ciphertext ← cipher_encrypt key iv padded_data;
        Ok (iv, ciphertext)
      else Raised ValueError.

Definition encrypt_data (data : value) (encryption_key : option string)
        (iv : bytes) : res string :=
      ivc ← encrypt_raw data encryption_key iv;
      Ok (b64encode (ivc.1 ++ ivc.2)).

Definition decrypt_data (encrypted_data : string)
        (encryption_key : option string) : res value :=
      encrypted_bytes ← b64decode encrypted_data;
      let iv := take 16 encrypted_bytes in
      let ciphertext := drop 16 encrypted_bytes in
      key ← decode_key encryption_key;
      if cipher_ok key iv then
        decrypted_padded_data ← cipher_decrypt key iv ciphertext;
        decrypted_data ← pkcs7_unpad decrypted_padded_data;
        text ← utf8_decode decrypted_data;
        json_loads text
      else Raised ValueError.

End with_primitives.

(** The tier comparison is commented out in the source; the function
    answers [True] whatever it is given. *)
Definition should_encrypt {A : Type} (subscription_type : A) : bool := true.

End encryption.

(** ** The HTTP client session *)

Module aiohttp.

(** What the session does with a request: it raises, or it yields a
    response with a status and the outcome of [response.json()]. *)
Inductive http_reply : Type :=
  | ClientError
  | Response (status : Z) (json : res value).

End aiohttp.
Import aiohttp.

(** ** coordinator.py *)

Module coordinator.

(** Python dictionaries are objects: two lists may hold the same one, and
    an assignment through either is seen through both.  The directive
    dictionaries therefore live in a store and lists hold addresses. *)
Abbreviation loc := nat (only parsing).
Abbreviation store := (list pydict) (only parsing).

Definition deref (h : store) (d : loc) : pydict := default ∅ (h !! d).

(** [self.data]: the key ["directives"], when present, holds the shared
    directive collection; [rest] holds the other keys. *)
Record coordinator_data : Type := {
    directives : option (list loc);
    rest : pydict
  }.

Inductive request : Type :=
  | GetDirectiveStage (directive_id : string)
  | GetDirective (directive_id : string).

(** The world outside the coordinator: the reply to the n-th request, the
    time the n-th request takes and the time by which the n-th sleep
    overruns, both in milliseconds.  [item_assigned key d] is what the
    sensor's [directive_to_update[state] = value] leaves of the entry [d]
    when [state] is the string, number or boolean [key]: the value stored
    is the default of the parameter [value], an object that JSON does not
    have, so that what the entry then shows is left to the world. *)
Record remote : Type := {
    reply : nat -> http_reply;
    latency : nat -> N;
    oversleep : nat -> N;
    item_assigned : value -> pydict -> pydict
  }.

(** What [async_get_directive] returns: the fetched object, a dictionary
    of the store, or the ["directive"] member as it came when it is not an
    object. *)
Inductive fetched : Type :=
  | Object (l : nat)
  | Plain (v : value).

(** The coordinator together with what it touches. [clock] is
    [loop.time()] in milliseconds; [snapshots] are the arguments of
    [async_set_updated_data], oldest first; [sensor] is the ["directives"]
    attribute of the sensor of the first entry in [hass.data[DOMAIN]]
    ([Raised] when there is no entry, [None] when it has no sensor). *)
Record state : Type := {
    heap : store;
    data : option coordinator_data;
    snapshots : list coordinator_data;
    sensor : res (option (list loc));
    clock : Z;
    requests : list request;
    sleeps : nat
  }.

Definition seconds (n : Z) : Z := n * 1000.

Definition with_heap (h : store) (st : state) : state :=
    {| heap := h; data := data st; snapshots := snapshots st;
       sensor := sensor st; clock := clock st; requests := requests st;
       sleeps := sleeps st |}.

Definition with_sensor (s : res (option (list loc))) (st : state) : state :=
    {| heap := heap st; data := data st; snapshots := snapshots st;
       sensor := s; clock := clock st; requests := requests st;
       sleeps := sleeps st |}.

(** [self.async_set_updated_data(new_data)]: the new dictionary replaces
    [self.data] and is handed to every listener. *)
Definition async_set_updated_data (new_data : coordinator_data)
      (st : state) : state :=
    {| heap := heap st; data := Some new_data;
       snapshots := snapshots st ++ [new_data];
       sensor := sensor st; clock := clock st; requests := requests st;
       sleeps := sleeps st |}.

(** [d.get("id") == directive_id]. *)
Definition has_id (directive_id : string) (d : pydict) : bool :=
    eq_str (get d "id") directive_id.

(** The three assignments [d["creation_stage"] = ...],
    [d["creation_message"] = ...], [d["status"] = ...], in this order. *)
Definition assign_stage (stage stage_message status : value) (d : pydict)
      : pydict :=
    <["status" := status]>
      (<["creation_message" := stage_message]>
         (<["creation_stage" := stage]> d)).

(** The collection as a reader of the store sees it. *)
Definition view (h : list pydict) (ds : list nat) : list pydict :=
    deref h <$> ds.

(** Every entry of the list is an object of the store, and no object is
    listed twice. *)
Definition well_formed (h : list pydict) (ds : list nat) : Prop :=
    Forall (fun d => (d < length h)%nat) ds /\ NoDup ds.

(** What one turn of the poll does to an entry: the three fields are
    assigned when the id is the polled one, and only then. *)
Definition merged (directive_id : string) (a b c : value) (x : pydict)
      : pydict :=
    if has_id directive_id x then assign_stage a b c x else x.

(** What the timeout does to the collection: the first entry with the id
    is marked as failed. *)
Fixpoint mark_first (directive_id : string) (xs : list pydict)
      : list pydict :=
    match xs with
    | [] => []
    | x :: xs' =>
        if has_id directive_id x
        then assign_stage (VStr "failed")
               (VStr "Directive creation timed out after 3 minutes.")
               (VStr "error") x :: xs'
        else x :: mark_first directive_id xs'
    end.

Section with_remote.
Variable env : remote.

(** One request through the session: it is recorded, time passes, and
    the world answers. *)
Definition send (r : request) (st : state) : http_reply * state :=
      let n := length (requests st) in
      (reply env n,
       {| heap := heap st; data := data st; snapshots := snapshots st;
          sensor := sensor st;
          clock := clock st + Z.of_N (latency env n);
          requests := requests st ++ [r]; sleeps := sleeps st |}).

(** [await asyncio.sleep(delay)]. *)
Definition sleep (delay : Z) (st : state) : state :=
      {| heap := heap st; data := data st; snapshots := snapshots st;
         sensor := sensor st;
         clock := clock st + seconds delay
                  + Z.of_N (oversleep env (sleeps st));
         requests := requests st; sleeps := S (sleeps st) |}.

Definition async_get_directive_stage (directive_id : string)
        (st : state) : res value * state :=
      let '(rep, st) := send (GetDirectiveStage directive_id) st in
      match rep with
      | Response 200 (Ok body) => (Ok body, st)
      | _ => (Raised (Exception "Error getting directive stage"), st)
      end.

(** The loop over [original_directives] in the body of the poll: an
    entry with the id is copied and the copy updated, any other entry is
    kept as it is.  Returns the store, [updated_directives] and
    [directive_found]. *)
Fixpoint merge_stage (directive_id : string)
        (stage stage_message status : value) (h : store)
        (original_directives : list loc) : store * list loc * bool :=
      match original_directives with
      | [] => (h, [], false)
      | directive :: others =>
          if has_id directive_id (deref h directive) then
            let updated_directive :=
              assign_stage stage stage_message status (deref h directive) in
            let '(h', updated_directives, _) :=
              merge_stage directive_id stage stage_message status
                (h ++ [updated_directive]) others in
            (h', length h :: updated_directives, true)
          else
            let '(h', updated_directives, directive_found) :=
              merge_stage directive_id stage stage_message status h others in
            (h', directive :: updated_directives, directive_found)
      end.

(** The dictionary synthesized when the polled directive is not in the
    collection yet. *)
Definition new_directive (directive_id : string)
        (stage stage_message message title : value) : pydict :=
      <["id" := VStr directive_id]>
        (<["creation_stage" := stage]>
           (<["creation_message" := stage_message]>
              (<["message" := message]>
                 (<["title" := title]>
                    (<["status" := VStr "creating"]>
                       (<["discovery" := VBool false]> ∅)))))).

(** The part of the loop body after the two terminal tests: "Update
    coordinator's directive data with stage and stage_message". *)
Definition poll_update (directive_id : string) (stage_info : pydict)
        (st : state) : state :=
      let stage := get stage_info "stage" in
      let stage_message := get stage_info "stage_message" in
      let message := get stage_info "message" in
      let title := get stage_info "title" in
      let status := get stage_info "status" in
      match data st with
      | Some self_data =>
          match directives self_data with
          | Some original_directives =>
              let '(h, updated_directives, directive_found) :=
                merge_stage directive_id stage stage_message status
                  (heap st) original_directives in
              let '(h, updated_directives) :=
                if directive_found then (h, updated_directives)
                else (h ++ [new_directive directive_id stage stage_message
                              message title],
                      updated_directives ++ [length h]) in
              async_set_updated_data
                {| directives := Some updated_directives;
                   rest := rest self_data |}
                (with_heap h st)
          | None => st
          end
      | None => st
      end.

Definition TIMEOUT_MESSAGE : string :=
      "Directive creation timed out after 3 minutes.".

(** The [else] block of the [while]: the first entry with the id is
    assigned to in place, and the collection published again. *)
Definition poll_timeout (directive_id : string) (st : state) : state :=
      match data st with
      | Some self_data =>
          match directives self_data with
          | Some directives_list =>
              match find (fun d => has_id directive_id (deref (heap st) d))
                      directives_list with
              | Some directive_to_update =>
                  let d := deref (heap st) directive_to_update in
                  if truthy (VDict d) then
                    let d' :=
                      assign_stage (VStr "failed") (VStr TIMEOUT_MESSAGE)
                        (VStr "error") d in
                    async_set_updated_data
                      {| directives := Some directives_list;
                         rest := rest self_data |}
                      (with_heap (<[directive_to_update := d']> (heap st)) st)
                  else st
              | None => st
              end
          | None => st
          end
      | None => st
      end.

(** [sensor.async_set_directive_state(directive_id, state)] where
    [state] is a dictionary: the first entry with the id, or a fresh
    [{"id": directive_id}] appended to the list, is updated in place. *)
Definition async_set_directive_state (directive_id : string)
        (new_state : pydict) (sensor_directives : list loc) (h : store)
        : store * list loc :=
      let fresh := (h ++ [new_state ∪ {["id" := VStr directive_id]}],
                    sensor_directives ++ [length h]) in
      match find (fun d => has_id directive_id (deref h d))
              sensor_directives with
      | Some directive_to_update =>
          if truthy (VDict (deref h directive_to_update))
          then (<[directive_to_update :=
                    new_state ∪ deref h directive_to_update]> h,
                sensor_directives)
          else fresh
      | None => fresh
      end.

(** [sensor.async_set_directive_state(directive_id, state)] where [state]
    is not a dictionary: the entry is looked up or appended in the same
    way, and then [directive_to_update[state] = value] raises for a list
    (or a dictionary), which cannot be a key, and assigns otherwise.
    Returns what the call does with the store and the list it leaves. *)
Definition async_set_directive_state_item (directive_id : string)
        (state : value) (sensor_directives : list loc) (h : store)
        : res unit * (store * list loc) :=
      let fresh := (h ++ [{["id" := VStr directive_id]}],
                    sensor_directives ++ [length h], length h) in
      let '(h, sensor_directives, directive_to_update) :=
        match find (fun d => has_id directive_id (deref h d))
                sensor_directives with
        | Some directive_to_update =>
            if truthy (VDict (deref h directive_to_update))
            then (h, sensor_directives, directive_to_update)
            else fresh
        | None => fresh
        end in
      match state with
      | VList _ | VDict _ => (Raised TypeError, (h, sensor_directives))
      | _ =>
          (Ok tt,
           (<[directive_to_update :=
                item_assigned env state (deref h directive_to_update)]> h,
            sensor_directives))
      end.

(** [async_get_directive]: on a 200 response the ["directive"] member
    replaces the entries with the id in the collection (keeping the
    messages of the first of them) and is returned; when the coordinator
    has no collection yet the sensor is updated instead.  Whatever is
    raised on the way leaves as one [Exception].  A truthy member that is
    not an object cannot take the messages, which raises; without a
    collection it goes to the sensor as it is and is returned. *)
Definition async_get_directive (directive_id : string) (st : state)
        : res (option fetched) * state :=
      let '(rep, st) := send (GetDirective directive_id) st in
      let failed := Raised (Exception "Error getting directive") in
      match rep with
      | Response 200 (Ok api_response) =>
          match as_dict api_response with
          | Raised _ => (failed, st)
          | Ok api_response =>
              let directive_data := get api_response "directive" in
              if negb (truthy directive_data) then (Ok None, st)
              else
                match directive_data with
                | VDict directive_data =>
                    let l := length (heap st) in
                    match data st with
                    | Some {| directives := Some directives_list;
                              rest := others |} =>
                        let messages :=
                          match find (fun d => has_id directive_id
                                                 (deref (heap st) d))
                                  directives_list with
                          | Some d =>
                              get_default (deref (heap st) d) "messages"
                                (VList [])
                          | None => VList []
                          end in
                        let directive_data :=
                          <["messages" := messages]> directive_data in
                        let updated_directives :=
                          filter (fun d => negb (has_id directive_id
                                                   (deref (heap st) d)))
                            directives_list ++ [l] in
                        (Ok (Some (Object l)),
                         async_set_updated_data
                           {| directives := Some updated_directives;
                              rest := others |}
                           (with_heap (heap st ++ [directive_data]) st))
                    | _ =>
                        match sensor st with
                        | Raised _ => (failed, st)
                        | Ok None =>
                            (Ok (Some (Object l)),
                             with_heap (heap st ++ [directive_data]) st)
                        | Ok (Some sensor_directives) =>
                            let '(h, sensor_directives) :=
                              async_set_directive_state directive_id
                                directive_data sensor_directives
                                (heap st ++ [directive_data]) in
                            (Ok (Some (Object l)),
                             with_sensor (Ok (Some sensor_directives))
                               (with_heap h st))
                        end
                    end
                | _ =>
                    match data st with
                    | Some {| directives := Some _ |} => (failed, st)
                    | _ =>
                        match sensor st with
                        | Raised _ => (failed, st)
                        | Ok None => (Ok (Some (Plain directive_data)), st)
                        | Ok (Some sensor_directives) =>
                            let '(r, (h, sensor_directives)) :=
                              async_set_directive_state_item directive_id
                                directive_data sensor_directives (heap st) in
                            let st :=
                              with_sensor (Ok (Some sensor_directives))
                                (with_heap h st) in
                            match r with
                            | Ok _ => (Ok (Some (Plain directive_data)), st)
                            | Raised _ => (failed, st)
                            end
                        end
                    end
                end
          end
      | _ => (failed, st)
      end.

(** The [while] loop of [async_poll_directive].  Each unit of [fuel]
    pays for one evaluation of the loop condition; [None] means the
    fuel ran out before the loop was left. *)
Fixpoint poll_loop (fuel : nat) (directive_id : string)
        (start_time : Z) (st : state)
        : option (res (option fetched) * state) :=
      match fuel with
      | O => None
      | S fuel' =>
          if Z.ltb (clock st - start_time) (seconds 380) then
            let '(r, st) := async_get_directive_stage directive_id st in
            match r ≫= as_dict with
            | Raised e => Some (Raised e, st)
            | Ok stage_info =>
                let stage := get stage_info "stage" in
                if eq_str stage "completed" then
                  Some (async_get_directive directive_id st)
                else if eq_str stage "failed" then
                  Some (async_get_directive directive_id st)
                else
                  poll_loop fuel' directive_id start_time
                    (sleep 10 (poll_update directive_id stage_info st))
            end
          else Some (Ok None, poll_timeout directive_id st)
      end.

Definition async_poll_directive (fuel : nat) (directive_id : string)
        (st : state) : option (res (option fetched) * state) :=
      let start_time := clock st in
      poll_loop fuel directive_id start_time st.

End with_remote.

(** What one turn of the poll does to the collection as a reader sees
    it: the entries with the id are merged with the stage, and when there
    is none the synthesized entry is appended. *)
Definition poll_view (directive_id : string) (stage_info : pydict)
      (xs : list pydict) : list pydict :=
    if existsb (has_id directive_id) xs then
      merged directive_id (get stage_info "stage")
        (get stage_info "stage_message") (get stage_info "status") <$> xs
    else
      xs ++ [new_directive directive_id (get stage_info "stage")
               (get stage_info "stage_message") (get stage_info "message")
               (get stage_info "title")].

(** How an entry may differ from what it was when the poll started: not
    at all, or, for an entry with the id, in the three stage fields. *)
Definition tracks (directive_id : string) (xs ys : list pydict) : Prop :=
    Forall2 (fun x y =>
               y = x
               \/ (has_id directive_id x = true
                   /\ exists a b c,
                        y = <["status" := c]>
                              (<["creation_message" := b]>
                                 (<["creation_stage" := a]> x)))) xs ys.

(** A stage reply is terminal when its stage is ["completed"] or
    ["failed"]. *)
Definition terminal (stage_info : pydict) : bool :=
    eq_str (get stage_info "stage") "completed"
    || eq_str (get stage_info "stage") "failed".

Definition is_stage_fetch (r : request) : bool :=
    match r with
    | GetDirectiveStage _ => true
    | GetDirective _ => false
    end.

(** The number of stage fetches and of full-directive fetches sent. *)
Definition stage_fetches (st : state) : nat :=
    length (List.filter is_stage_fetch (requests st)).

Definition directive_fetches (st : state) : nat :=
    length (List.filter (fun r => negb (is_stage_fetch r)) (requests st)).

(** [self.data and "directives" in self.data]. *)
Definition has_collection (st : state) : bool :=
    match data st with
    | Some {| directives := Some _ |} => true
    | _ => false
    end.

(** Every stage fetch succeeds with a stage that is neither
    ["completed"] nor ["failed"]. *)
Definition pending_forever (env : remote) : Prop :=
    forall n, exists stage_info,
      reply env n = Response 200 (Ok (VDict stage_info))
      /\ eq_str (get stage_info "stage") "completed" = false
      /\ eq_str (get stage_info "stage") "failed" = false.

End coordinator.

(** ** __init__.py: the class [Direktive] *)

Module direktive.
Import encryption.

(** One invocation of [hass.services.async_call]. *)
Record service_call : Type := {
    call_domain : string;
    call_service : value;
    call_data : pydict
  }.

Inductive level : Type := DEBUG | INFO | WARNING | ERROR.

(** [hass.states.get(entity_id)]: a state and its attributes. *)
Record State : Type := {
    state : string;
    attributes : pydict
  }.

(** What the host and the network answer: the live entity states,
    whether a service call raises (given the calls made before it), the
    reply to the n-th POST of the session, the n-th draw of
    [os.urandom(16)], and the outcome of looking up the coordinator in
    [hass.data] ([Ok false] when the entry holds none). *)
Record host : Type := {
    states : gmap string State;
    call_raises : list service_call -> service_call -> bool;
    post_reply : nat -> http_reply;
    urandom : nat -> bytes;
    coordinator_lookup : res bool
  }.

(** What the object changes: the data of its config entry ([None] when
    the entry is not found), the JSON bodies POSTed to
    [/update-entity-state], the service calls, the log, the number of
    random draws and of coordinator refreshes requested, and the local
    variable [service] of [_handle_triggered_scenarios] ([None] while it
    is unbound). *)
Record hass_state : Type := {
    entry : option pydict;
    posts : list pydict;
    calls : list service_call;
    log : list (level * string);
    draws : nat;
    refreshes : nat;
    service : option value
  }.

(** The attributes of [self] the methods read. *)
Record Direktive : Type := {
    entity_ids : gset string;
    _subscription_type : option string;
    _encryption_key : option string
  }.

(** [__init__]: the configured entities, and always ["sun.sun"]. *)
Definition init (configured : list string) (subscription_type : option string)
      (encryption_key : option string) : Direktive :=
    {| entity_ids := list_to_set configured ∪ {["sun.sun"]};
       _subscription_type := subscription_type;
       _encryption_key := encryption_key |}.

(** Code that changes the state and may raise; what was done before an
    exception stays done. *)
Definition M (A : Type) : Type := hass_state -> res A * hass_state.

#[global] Instance M_ret : MRet M := fun _ a st => (Ok a, st).
#[global] Instance M_bind : MBind M := fun _ _ k m st =>
    match m st with
    | (Ok a, st') => k a st'
    | (Raised e, st') => (Raised e, st')
    end.

Definition lift {A} (r : res A) : M A := fun st => (r, st).

(** [try: body except Exception as err: handler(err)]. *)
Definition try_except (body : M unit) (handler : exn -> M unit) : M unit :=
    fun st =>
      match body st with
      | (Ok tt, st') => (Ok tt, st')
      | (Raised err, st') => handler err st'
      end.

(** [for x in l: body(x)]; an exception leaves the loop. *)
Fixpoint for_each {A} (l : list A) (body : A -> M unit) : M unit :=
    match l with
    | [] => mret tt
    | x :: l' => body x ≫= fun _ => for_each l' body
    end.

Definition logger (lvl : level) (msg : string) : M unit := fun st =>
    (Ok tt,
     {| entry := entry st; posts := posts st; calls := calls st;
        log := log st ++ [(lvl, msg)]; draws := draws st;
        refreshes := refreshes st; service := service st |}).

Definition set_service (v : option value) : M unit := fun st =>
    (Ok tt,
     {| entry := entry st; posts := posts st; calls := calls st;
        log := log st; draws := draws st;
        refreshes := refreshes st; service := v |}).

(** Reading the local variable [service]. *)
Definition read_service : M value := fun st =>
    match service st with
    | Some v => (Ok v, st)
    | None => (Raised UnboundLocalError, st)
    end.

Definition ALLOWED_KEYS : list string :=
    ["brightness"; "color_temp"; "rgb_color"; "xy_color";
     "current_position"; "current_temperature"; "temperature";
     "hvac_mode"; "preset_mode"].

(** The comprehension that builds [safe_attributes]. *)
Definition safe_attributes (attrs : pydict) : pydict :=
    filter (fun kv => kv.1 ∈ ALLOWED_KEYS) attrs.

(** The dictionary sent for one entity. *)
Definition entity_data (entity_id : string) (s : State) : value :=
    VDict (<["entity_id" := VStr entity_id]>
             (<["state" := VStr (state s)]>
                (<["attributes" := VDict (safe_attributes (attributes s))]>
                   ∅))).

(** The body POSTed by a state change. *)
Definition single_payload (entities_data : value) : pydict :=
    {["entities" :=
        VDict (<["data" := entities_data]>
                 (<["encrypted" := VBool false]> ∅))]}.

(** The body POSTed by the initial bulk update. *)
Definition bulk_payload (entities_data : value) (encrypted : bool)
      : pydict :=
    <["entities" :=
        VDict (<["data" := entities_data]>
                 (<["encrypted" := VBool encrypted]> ∅))]>
      (<["bulk" := VBool true]> (<["refresh" := VBool true]> ∅)).

(** [if k in attributes: service_data[k] = attributes[k]]. *)
Definition copy_attribute (attrs : value) (k : string)
      (service_data : pydict) : res pydict :=
    present ← contains attrs k;
    if present : bool then
      v ← getitem attrs k; Ok (<[k := v]> service_data)
    else Ok service_data.

Section with_host.
Context {P : Primitives}.
Variable hass : host.
Variable self : Direktive.

(** [await self.hass.services.async_call(domain, service, data,
    blocking=True)]. *)
Definition async_call (domain : string) (svc : value)
        (service_data : pydict) : M unit := fun st =>
      let c := {| call_domain := domain; call_service := svc;
                  call_data := service_data |} in
      let st' :=
        {| entry := entry st; posts := posts st; calls := calls st ++ [c];
           log := log st; draws := draws st;
           refreshes := refreshes st; service := service st |} in
      if call_raises hass (calls st) c
      then (Raised (Exception "service call failed"), st')
      else (Ok tt, st').

(** The body of the [try] that handles one outcome. *)
Definition apply_outcome (outcome : value) : M unit :=
      o ← lift (as_dict outcome);
      let entity_id := get o "entity_id" in
      let new_state := get o "state" in
      let attrs := get_default o "attributes" (VDict ∅) in
      if negb (truthy entity_id) || is_none new_state then
        logger WARNING "Invalid outcome data: missing entity_id or state"
      else
        eid ← lift (as_str entity_id);
        let domain := before_dot eid in
        let service_data : pydict := {["entity_id" := entity_id]} in
        service_data ←
          (if String.eqb domain "light" then
             if eq_str new_state "on" then
               _ ← set_service (Some (VStr "turn_on"));
               sd ← lift (copy_attribute attrs "brightness" service_data);
               sd ← lift (copy_attribute attrs "color_temp" sd);
               sd ← lift (copy_attribute attrs "rgb_color" sd);
               lift (copy_attribute attrs "xy_color" sd)
             else
               _ ← set_service (Some (VStr "turn_off"));
               mret service_data
           else if String.eqb domain "switch" then
             _ ← set_service
                   (Some (VStr (if eq_str new_state "on"
                                then "turn_on" else "turn_off")));
             mret service_data
           else if String.eqb domain "alarm_control_panel" then
             if in_strs new_state
                  ["armed_home"; "armed_away"; "armed_night"; "disarmed"]
             then
               _ ← set_service (Some new_state);
               lift (copy_attribute attrs "code" service_data)
             else mret service_data
           else if String.eqb domain "cover" then
             _ ← (if eq_str new_state "open"
                  then set_service (Some (VStr "open_cover"))
                  else if eq_str new_state "closed"
                  then set_service (Some (VStr "close_cover"))
                  else if eq_str new_state "stop"
                  then set_service (Some (VStr "stop_cover"))
                  else mret tt);
             present ← lift (contains attrs "position");
             if present : bool then
               _ ← set_service (Some (VStr "set_cover_position"));
               v ← lift (getitem attrs "position");
               mret (<["position" := v]> service_data)
             else mret service_data
           else if String.eqb domain "climate" then
             sd ← (if in_strs new_state ["heat"; "cool"; "auto"; "off"]
                   then
                     _ ← set_service (Some (VStr "set_hvac_mode"));
                     mret (<["hvac_mode" := new_state]> service_data)
                   else mret service_data);
             present ← lift (contains attrs "temperature");
             _ ← (if present : bool then
                    v ← lift (getitem attrs "temperature");
                    async_call domain (VStr "set_temperature")
                      (<["temperature" := v]> {["entity_id" := entity_id]})
                  else mret tt);
             mret sd
           else if String.eqb domain "number" then
             _ ← set_service (Some (VStr "set_value"));
             mret (<["value" := new_state]> service_data)
           else
             _ ← set_service
                   (Some (VStr (if eq_str new_state "on"
                                then "turn_on" else "turn_off")));
             mret service_data);
        svc ← read_service;
        _ ← logger DEBUG "Calling service %s.%s with data: %s";
        _ ← async_call domain svc service_data;
        logger INFO
          "Successfully updated %s to state: %s with attributes: %s".

(** One turn of the loop over the outcomes: the [try] and its
    [except Exception], whose log call reads [outcome.get("entity_id")]
    again. *)
Definition process_outcome (outcome : value) : M unit :=
      try_except (apply_outcome outcome) (fun err =>
        _ ← lift (as_dict outcome);
        logger ERROR "Error executing scenario outcome for entity %s: %s").

Definition process_scenario (scenario : value) : M unit :=
      _ ← lift (as_dict scenario);
      _ ← logger DEBUG "Processing scenario: %s";
      outcomes ← lift (getitem scenario "outcomes" ≫= iterate);
      for_each outcomes process_outcome.

(** [decrypt_data(scenarios, self._encryption_key)]: base64 takes a
    string. *)
Definition decrypt_value (v : value) : res value :=
      match v with
      | VStr s => decrypt_data s (_encryption_key self)
      | _ => Raised TypeError
      end.

Definition _handle_triggered_scenarios (scenarios : value) : M unit :=
      _ ← set_service None;
      scenarios ← lift (if should_encrypt (_subscription_type self)
                        then decrypt_value scenarios
                        else Ok scenarios);
      items ← lift (iterate scenarios);
      for_each items process_scenario.

(** [self.session.post(".../update-entity-state", json=payload)]: the
    body is recorded; the session raises or hands back the status and
    the outcome of [response.json()]. *)
Definition session_post (payload : pydict) : M (Z * res value) :=
      fun st =>
        let st' :=
          {| entry := entry st; posts := posts st ++ [payload];
             calls := calls st; log := log st; draws := draws st;
             refreshes := refreshes st; service := service st |} in
        match post_reply hass (length (posts st)) with
        | ClientError => (Raised (Exception "client error"), st')
        | Response status json => (Ok (status, json), st')
        end.

(** [encrypt_data(data, self._encryption_key)] with its draw of the
    IV. *)
Definition encrypt (data : value) : M value := fun st =>
      let iv := urandom hass (draws st) in
      let st' :=
        {| entry := entry st; posts := posts st; calls := calls st;
           log := log st; draws := S (draws st);
           refreshes := refreshes st; service := service st |} in
      (VStr <$> encrypt_data data (_encryption_key self) iv, st').

(** [if "triggered_scenarios" in response_data: await
    self._handle_triggered_scenarios(...)]. *)
Definition handle_response (response_data : value) : M unit :=
      present ← lift (contains response_data "triggered_scenarios");
      if present : bool then
        scenarios ← lift (getitem response_data "triggered_scenarios");
        _handle_triggered_scenarios scenarios
      else mret tt.

Definition _async_update_remote_state (entity_id : string)
        (new_state : State) : M unit :=
      try_except
        (let entities_data := VList [entity_data entity_id new_state] in
         entities_data ←
           (if should_encrypt (_subscription_type self)
            then encrypt entities_data
            else mret entities_data);
         let payload := single_payload entities_data in
         response ← session_post payload;
         if negb (Z.eqb response.1 200) then
           logger ERROR "Failed to update remote state for %s: %s"
         else
           response_data ← lift response.2;
           handle_response response_data)
        (fun err => logger ERROR "Error updating remote state for %s: %s").

Definition _handle_state_change (entity_id : string)
        (from_state to_state : option State) : M unit :=
      match to_state with
      | Some new_state =>
          if bool_decide (entity_id ∈ entity_ids self)
          then _async_update_remote_state entity_id new_state
          else mret tt
      | None => mret tt
      end.

(** [hass.config_entries.async_update_entry(entry, data=new_data)]. *)
Definition async_update_entry (new_data : pydict) : M unit := fun st =>
      (Ok tt,
       {| entry := Some new_data; posts := posts st; calls := calls st;
          log := log st; draws := draws st;
          refreshes := refreshes st; service := service st |}).

(** [await coordinator_instance.async_request_refresh()]. *)
Definition async_request_refresh : M unit := fun st =>
      (Ok tt,
       {| entry := entry st; posts := posts st; calls := calls st;
          log := log st; draws := draws st;
          refreshes := S (refreshes st); service := service st |}).

(** The list [entities_data] of the bulk update: one dictionary for
    each tracked entity that has a state. *)
Definition bulk_entities : list value :=
      omap (fun entity_id => entity_data entity_id <$> states hass !! entity_id)
        (elements (entity_ids self)).

Definition _send_bulk_update : M unit := fun st =>
      match entry st with
      | None =>
          logger ERROR
            "Cannot perform initial bulk update: Config entry %s not found."
            st
      | Some entry_data =>
          if truthy (get_default entry_data
                       const.CONF_INITIAL_BULK_UPDATE_PERFORMED (VBool false))
          then
            logger INFO "Initial bulk update already performed for this integration instance (via __init__ call). Skipping." st
          else
            try_except
              (_ ← logger INFO "__init__: Performing initial bulk update of all entity states (once per setup).";
               let entities_data := VList bulk_entities in
               entities_data ←
                 (if truthy entities_data then
                    if should_encrypt (_subscription_type self)
                    then encrypt entities_data
                    else mret entities_data
                  else mret entities_data);
               let payload :=
                 bulk_payload entities_data
                   (should_encrypt (_subscription_type self)) in
               if truthy entities_data then
                 response ← session_post payload;
                 if negb (Z.eqb response.1 200) then
                   logger ERROR "Failed to send initial bulk update: %s"
                 else
                   response_data ← lift response.2;
                   _ ← async_update_entry
                         (<[const.CONF_INITIAL_BULK_UPDATE_PERFORMED
                              := VBool true]> entry_data);
                   _ ← logger INFO "Initial bulk update successful and marked as performed.";
                   coordinator_instance ← lift (coordinator_lookup hass);
                   _ ← (if coordinator_instance : bool then
                          _ ← logger DEBUG "Requesting coordinator refresh after initial entity sync in _send_bulk_update.";
                          async_request_refresh
                        else
                          logger ERROR "Coordinator instance not found in _send_bulk_update, cannot refresh.");
                   handle_response response_data
               else mret tt)
              (fun err =>
                 logger ERROR "Error sending initial bulk update: %s")
              st
      end.

End with_host.

(** The one-time flag [initial_bulk_update_performed] as
    [_send_bulk_update] reads it. *)
Definition bulk_update_performed (st : hass_state) : bool :=
    match entry st with
    | Some entry_data =>
        truthy (get_default entry_data
                  const.CONF_INITIAL_BULK_UPDATE_PERFORMED (VBool false))
    | None => false
    end.

(** What the dispatcher leaves alone: the config entry, the requests
    sent and the random draws. *)
Definition frame (st st' : hass_state) : Prop :=
    entry st' = entry st /\ posts st' = posts st /\ draws st' = draws st.

Definition quiet {A : Type} (m : M A) : Prop :=
    forall st, frame st (m st).2.

End direktive.

(** ** webhook.py *)

Module webhook.
Import encryption.

(** An incoming request: its headers and what [await request.read()]
    yields. *)
Record request : Type := {
    headers : gmap string string;
    read : res bytes
  }.

Inductive body : Type :=
  | Text (text : string)
  | Json (success : bool).

Record response : Type := {
    status : Z;
    content : body
  }.

(** What the handler does besides answering. *)
Inductive effect : Type :=
  | ReadBody
  | HasService (domain name : value)
  | ServiceCall (domain name service_data : value).

(** The host as the handler sees it: the data of the config entry
    ([None] when [async_get_entry] finds none), the registered services,
    and whether a service call raises. *)
Record host : Type := {
    config_entry : option pydict;
    has_service : string -> string -> bool;
    call_raises : value -> value -> value -> bool
  }.

Definition UNAUTHORIZED : Z := 401.
Definition BAD_REQUEST : Z := 400.
Definition INTERNAL_SERVER_ERROR : Z := 500.
Definition OK : Z := 200.

(** The handler's outcome: the response it returns or the exception that
    escapes it, and the effects performed on the way, oldest first. *)
Definition outcome : Type := res response * list effect.

Definition respond (code : Z) (b : body) (done : list effect) : outcome :=
    (Ok {| status := code; content := b |}, done).

Section with_host.
Context {P : Primitives}.
Variable hass : host.

(** [decrypt_data(encrypted_payload_str, encryption_key)] on two values
    read from JSON: base64 takes strings. *)
Definition decrypt_payload (encrypted_payload_str encryption_key : value)
        : res value :=
      match encrypted_payload_str, encryption_key with
      | VStr s, VStr k => decrypt_data s (Some k)
      | _, _ => Raised TypeError
      end.

(** [hass.services.has_service(domain, service)]: both are lowered as
    strings first. *)
Definition check_service (domain name : value) : res bool :=
      d ← as_str domain; n ← as_str name; Ok (has_service hass d n).

(** [service_data["entity_id"] = service_entity_id]. *)
Definition setitem (v : value) (k : string) (x : value) : res value :=
      match v with
      | VDict d => Ok (VDict (<[k := x]> d))
      | _ => Raised TypeError
      end.

(** From "Validate decrypted payload" to the end of the handler. *)
Definition dispatch (service_call_data : value) (done : list effect)
        : outcome :=
      match service_call_data with
      | VDict call =>
          let service_domain := get call "domain" in
          let service_name := get call "service" in
          let service_entity_id := get call "entity_id" in
          let service_data := get_default call "service_data" (VDict ∅) in
          if negb (truthy service_domain) || negb (truthy service_name) then
            respond BAD_REQUEST
              (Text "Bad Request: 'domain' or 'service' missing in payload.")
              done
          else
            let prepared : res value :=
              if truthy service_entity_id then
                present ← contains service_data "entity_id";
                if present : bool then
                  _ ← getitem service_data "entity_id"; Ok service_data
                else setitem service_data "entity_id" service_entity_id
              else Ok service_data in
            match prepared with
            | Raised e => (Raised e, done)
            | Ok service_data =>
                let done := done ++ [HasService service_domain service_name] in
                match check_service service_domain service_name with
                | Raised _ => respond INTERNAL_SERVER_ERROR (Json false) done
                | Ok false =>
                    respond BAD_REQUEST
                      (Text "Bad Request: Service %s.%s not found.") done
                | Ok true =>
                    let done :=
                      done ++ [ServiceCall service_domain service_name
                                 service_data] in
                    if call_raises hass service_domain service_name
                         service_data
                    then respond INTERNAL_SERVER_ERROR (Json false) done
                    else respond OK (Json true) done
                end
            end
      | _ =>
          respond BAD_REQUEST (Text "Bad Request: Invalid payload structure.")
            done
      end.

Definition async_handle_webhook (req : request) : outcome :=
      match config_entry hass with
      | None =>
          respond INTERNAL_SERVER_ERROR (Text "Configuration not found.") []
      | Some entry_data =>
          let expected_secret := get entry_data const.CONF_WEBHOOK_SECRET in
          let received_secret := headers req !! "X-Webhook-Secret" in
          if negb (truthy expected_secret)
             || negb (truthy (from_option VStr VNone received_secret))
             || negb (from_option (eq_str expected_secret) false
                        received_secret)
          then respond UNAUTHORIZED (Text "Unauthorized.") []
          else
            let done := [ReadBody] in
            match read req with
            | Raised _ =>
                respond INTERNAL_SERVER_ERROR
                  (Text "Error processing request.") done
            | Ok payload_bytes =>
                if bool_decide (payload_bytes = []) then
                  respond BAD_REQUEST (Text "Bad Request: Empty payload.")
                    done
                else
                  match utf8_decode payload_bytes ≫= json_loads with
                  | Raised JSONDecodeError =>
                      respond BAD_REQUEST
                        (Text "Bad Request: Invalid JSON.") done
                  | Raised _ =>
                      respond INTERNAL_SERVER_ERROR
                        (Text "Error processing request.") done
                  | Ok request_data =>
                      let subscription_type :=
                        get entry_data const.CONF_SUBSCRIPTION_TYPE in
                      let encryption_key :=
                        get entry_data const.CONF_ENCRYPTION_KEY in
                      if should_encrypt subscription_type then
                        if negb (truthy encryption_key) then
                          respond INTERNAL_SERVER_ERROR
                            (Text "Internal Server Error: Encryption key missing.")
                            done
                        else
                          match as_dict request_data with
                          | Raised e => (Raised e, done)
                          | Ok fields =>
                              let encrypted_payload_str :=
                                get fields "encrypted_payload" in
                              if negb (truthy encrypted_payload_str) then
                                respond BAD_REQUEST
                                  (Text "Bad Request: Missing 'encrypted_payload'.")
                                  done
                              else
                                match decrypt_payload encrypted_payload_str
                                        encryption_key with
                                | Raised _ =>
                                    respond BAD_REQUEST
                                      (Text "Bad Request: Failed to decrypt payload.")
                                      done
                                | Ok service_call_data =>
                                    dispatch service_call_data done
                                end
                          end
                      else
                        match as_dict request_data with
                        | Raised e => (Raised e, done)
                        | Ok fields =>
                            let service_call_data :=
                              get fields "service_call" in
                            if negb (truthy service_call_data) then
                              respond BAD_REQUEST
                                (Text "Bad Request: Missing 'service_call' data.")
                                done
                            else dispatch service_call_data done
                        end
                  end
            end
      end.

End with_host.

End webhook.

(** ** Sample inputs *)

Module samples.
Import coordinator.

Definition pending_info : pydict :=
    <["stage" := VStr "pending"]>
      (<["stage_message" := VStr "working"]>
         (<["status" := VStr "creating"]>
            (<["message" := VStr "dim the hall at night"]>
               (<["title" := VStr "Hall"]> ∅)))).

Definition completed_info : pydict := {["stage" := VStr "completed"]}.

Definition directive_record : pydict :=
    <["id" := VStr "d1"]> (<["status" := VStr "active"]> ∅).

Definition directive_response : pydict :=
    {["directive" := VDict directive_record]}.

(** A remote that answers [pending], [pending], [completed] to the stage
    fetches and then serves the directive; every request takes 5 ms. *)
Definition remote_ppc : remote :=
    {| reply := fun n =>
         match n with
         | 0%nat | 1%nat => Response 200 (Ok (VDict pending_info))
         | 2%nat => Response 200 (Ok (VDict completed_info))
         | _ => Response 200 (Ok (VDict directive_response))
         end;
       latency := fun _ => 5%N;
       oversleep := fun _ => 0%N;
       item_assigned := fun _ d => d |}.

(** A remote whose stage never leaves [pending]. *)
Definition remote_pending : remote :=
    {| reply := fun _ => Response 200 (Ok (VDict pending_info));
       latency := fun _ => 5%N;
       oversleep := fun _ => 0%N;
       item_assigned := fun _ d => d |}.

(** A coordinator whose collection holds one other directive. *)
Definition coordinator_state : state :=
    {| heap := [<["id" := VStr "d0"]> (<["status" := VStr "active"]> ∅)];
       data := Some {| directives := Some [0%nat]; rest := ∅ |};
       snapshots := [];
       sensor := Ok None;
       clock := 0;
       requests := [];
       sleeps := 0 |}.

(** A small model of the primitives: bytes are written out as they are,
    the block function reverses a block, and json knows the three
    literals. *)
Definition toy_json_dumps (v : value) : string :=
    match v with
    | VBool true => "true"
    | VBool false => "false"
    | _ => "null"
    end.

Definition toy_json_loads (s : string) : res value :=
    if String.eqb s "true" then Ok (VBool true)
    else if String.eqb s "false" then Ok (VBool false)
    else if String.eqb s "null" then Ok VNone
    else if String.eqb s "{}" then Ok (VDict ∅)
    else Raised JSONDecodeError.

#[global] Instance toy_primitives : encryption.Primitives :=
    {| encryption.b64encode := String.string_of_list_byte;
       encryption.b64decode := fun s => Ok (String.list_byte_of_string s);
       encryption.utf8_encode := String.list_byte_of_string;
       encryption.utf8_decode := fun b => Ok (String.string_of_list_byte b);
       encryption.json_dumps := toy_json_dumps;
       encryption.json_loads := toy_json_loads;
       encryption.aes_encrypt_block := fun _ b => rev b;
       encryption.aes_decrypt_block := fun _ b => rev b |}.

Definition key32 : string := "0123456789abcdef0123456789abcdef".
Definition iv16 : list byte := String.list_byte_of_string "fedcba9876543210".

(** A host with one light, whose services and network always answer. *)
Definition kitchen : direktive.State :=
    {| direktive.state := "on";
       direktive.attributes :=
         <["brightness" := VInt 128]>
           (<["friendly_name" := VStr "Kitchen"]> ∅) |}.

Definition home : direktive.host :=
    {| direktive.states := {["light.kitchen" := kitchen]};
       direktive.call_raises := fun _ _ => false;
       direktive.post_reply := fun _ => Response 200 (Ok (VDict ∅));
       direktive.urandom := fun _ => iv16;
       direktive.coordinator_lookup := Ok true |}.

Definition integration : direktive.Direktive :=
    direktive.init ["light.kitchen"] (Some "basic") (Some key32).

Definition hass_with (entry_data : pydict) : direktive.hass_state :=
    {| direktive.entry := Some entry_data;
       direktive.posts := [];
       direktive.calls := [];
       direktive.log := [];
       direktive.draws := 0;
       direktive.refreshes := 0;
       direktive.service := None |}.

Definition climate_outcome : pydict :=
    <["entity_id" := VStr "climate.hall"]>
      (<["state" := VStr "heat"]>
         (<["attributes" := VDict {["temperature" := VInt 21]}]> ∅)).

Definition outcome_without_entity : pydict := {["state" := VStr "on"]}.

(** A webhook host with a persisted secret and key, and two requests
    with the plain body [{}]: one with a wrong secret, one with the right
    one. *)
Definition webhook_host : webhook.host :=
    {| webhook.config_entry :=
         Some (<["webhook_secret" := VStr "s3cret"]>
                 (<["encryption_key" := VStr key32]> ∅));
       webhook.has_service := fun _ _ => true;
       webhook.call_raises := fun _ _ _ => false |}.

Definition request_with (secret : string) : webhook.request :=
    {| webhook.headers := {["X-Webhook-Secret" := secret]};
       webhook.read := Ok (String.list_byte_of_string "{}") |}.

(** Outcomes for the other branches of the dispatcher. *)
Definition outcome_of (entity_id : string) (new_state : value)
    (attrs : pydict) : pydict :=
    <["entity_id" := VStr entity_id]>
      (<["state" := new_state]> (<["attributes" := VDict attrs]> ∅)).

Definition light_attributes : pydict :=
    <["brightness" := VInt 128]> {["transition" := VInt 2]}.

Definition light_outcome : pydict :=
    outcome_of "light.kitchen" (VStr "on") light_attributes.

Definition light_off_outcome : pydict :=
    outcome_of "light.kitchen" (VStr "off") light_attributes.

Definition cover_outcome : pydict :=
    outcome_of "cover.garage" (VStr "open") {["position" := VInt 40]}.

Definition number_outcome : pydict :=
    outcome_of "number.volume" (VInt 7) ∅.

Definition alarm_outcome : pydict :=
    outcome_of "alarm_control_panel.home" (VStr "triggered") ∅.

(** A server answer that triggers one scenario: primitives whose json also
    knows one scenario list, the ciphertext of that list, and a host whose
    server answers every request with it. *)
Definition triggered_scenarios : value :=
    VList [VDict (<["scenario_name" := VStr "evening"]>
                    {["outcomes" := VList [VDict light_off_outcome]]})].

Definition scenario_primitives : encryption.Primitives :=
    {| encryption.b64encode := String.string_of_list_byte;
       encryption.b64decode := fun s => Ok (String.list_byte_of_string s);
       encryption.utf8_encode := String.list_byte_of_string;
       encryption.utf8_decode := fun b => Ok (String.string_of_list_byte b);
       encryption.json_dumps := fun v =>
         match v with
         | VList (_ :: _) => "[scenario]"
         | _ => toy_json_dumps v
         end;
       encryption.json_loads := fun s =>
         if String.eqb s "[scenario]" then Ok triggered_scenarios
         else toy_json_loads s;
       encryption.aes_encrypt_block := fun _ b => rev b;
       encryption.aes_decrypt_block := fun _ b => rev b |}.

Definition scenario_ciphertext : string :=
    match encryption.encrypt_data (P := scenario_primitives)
            triggered_scenarios (Some key32) iv16 with
    | Ok s => s
    | Raised _ => ""
    end.

Definition answering_home : direktive.host :=
    {| direktive.states := {["light.kitchen" := kitchen]};
       direktive.call_raises := fun _ _ => false;
       direktive.post_reply := fun _ =>
         Response 200
           (Ok (VDict {["triggered_scenarios" := VStr scenario_ciphertext]}));
       direktive.urandom := fun _ => iv16;
       direktive.coordinator_lookup := Ok true |}.

(** A decrypted webhook payload: a call with a top-level entity id and a
    [service_data] that names none. *)
Definition webhook_call : pydict :=
    <["domain" := VStr "light"]>
      (<["service" := VStr "turn_on"]>
         (<["entity_id" := VStr "light.kitchen"]>
            {["service_data" := VDict {["brightness" := VInt 10]}]})).

(** A remote that serves the directive to every request. *)
Definition remote_serving : remote :=
    {| reply := fun _ => Response 200 (Ok (VDict directive_response));
       latency := fun _ => 5%N;
       oversleep := fun _ => 0%N;
       item_assigned := fun _ d => d |}.

(** A remote whose answers carry a list where the directive should be,
    and a coordinator that has not fetched its data yet, with a sensor
    that lists nothing. *)
Definition remote_listing : remote :=
    {| reply := fun _ =>
         Response 200 (Ok (VDict {["directive" := VList [VStr "d0"]]}));
       latency := fun _ => 5%N;
       oversleep := fun _ => 0%N;
       item_assigned := fun _ d => d |}.

Definition coordinator_without_data : state :=
    {| heap := [];
       data := None;
       snapshots := [];
       sensor := Ok (Some []);
       clock := 0;
       requests := [];
       sleeps := 0 |}.

(** A remote that does not answer. *)
Definition remote_down : remote :=
    {| reply := fun _ => ClientError;
       latency := fun _ => 5%N;
       oversleep := fun _ => 0%N;
       item_assigned := fun _ d => d |}.

(** An integration with no configured entity. *)
Definition bare_integration : direktive.Direktive :=
    direktive.init [] (Some "basic") (Some key32).

End samples.

(** ** encryption.py: key generation *)

Module keygen.
Import encryption.

(** [generate_encryption_key]: [random_bytes] is the result of
    [os.urandom(ENCRYPTION_KEY_LENGTH)]. *)
Definition generate_encryption_key {P : Primitives} (random_bytes : bytes)
    : string :=
  b64encode random_bytes.

(** A ciphertext to try the functions on: the sample key and IV applied to
    [True]. *)
Definition sample_ciphertext : string :=
  match encrypt_data (P := samples.toy_primitives) (VBool true)
          (Some samples.key32) samples.iv16 with
  | Ok s => s
  | Raised _ => ""
  end.

End keygen.

(** ** Reading the dispatcher *)

Module dispatch_logic.
Import direktive.

(** [service_data] after [if k in attributes: service_data[k] =
    attributes[k]] for the keys [ks] in turn. *)
Definition copy_key (attrs : pydict) (service_data : pydict) (k : string)
    : pydict :=
  match attrs !! k with
  | Some v => <[k := v]> service_data
  | None => service_data
  end.

Definition copy_keys (attrs : pydict) (ks : list string)
    (service_data : pydict) : pydict :=
  foldl (copy_key attrs) service_data ks.

(** The service calls made from [st] to [st'] all satisfy [Q]. *)
Definition calls_between (Q : service_call -> Prop) (st st' : hass_state)
    : Prop :=
  exists new, calls st' = calls st ++ new /\ Forall Q new.

(** Running [m] makes only calls that satisfy [Q], and what it returns
    satisfies [R]. *)
Definition only_calls {A : Type} (Q : service_call -> Prop) (R : A -> Prop)
    (m : M A) : Prop :=
  forall st,
    calls_between Q st (m st).2 /\ forall a, (m st).1 = Ok a -> R a.

(** A call made for the outcome [outcome] goes to the domain of its entity
    id and names that entity. *)
Definition targets (outcome : value) (c : service_call) : Prop :=
  exists (o : pydict) (entity_id : string),
    outcome = VDict o
    /\ get o "entity_id" = VStr entity_id
    /\ entity_id <> ""
    /\ get o "state" <> VNone
    /\ call_domain c = before_dot entity_id
    /\ call_data c !! "entity_id" = Some (VStr entity_id).

(** [outcome] is one of the outcomes of one of the scenarios of
    [scenarios], as the two loops of the dispatcher run over them. *)
Definition outcome_in (scenarios outcome : value) : Prop :=
  exists (items : list value) (scenario : value) (outcomes : list value),
    iterate scenarios = Ok items
    /\ scenario ∈ items
    /\ getitem scenario "outcomes" ≫= iterate = Ok outcomes
    /\ outcome ∈ outcomes.

End dispatch_logic.

(** ** __init__.py: the MQTT callback of [Direktive] *)

Module mqtt.
Import encryption direktive.

(** [isinstance(v, list)]. *)
Definition is_list (v : value) : bool :=
  match v with
  | VList _ => true
  | _ => false
  end.

Section with_host.
Context {P : Primitives}.
Variable hass : host.
Variable self : Direktive.

(** [_async_handle_mqtt_scenario_trigger(msg)], from the payload of the
    message: the decoded list goes to [_handle_triggered_scenarios] as it
    is; the two [except] clauses log and return. *)
Definition _async_handle_mqtt_scenario_trigger (payload : string) : M unit :=
  _ ← logger DEBUG
        "Received scenario trigger on MQTT topic %s with payload: %s";
  try_except
    (scenarios ← lift (json_loads payload);
     if is_list scenarios && truthy scenarios then
       _handle_triggered_scenarios hass self scenarios
     else if truthy scenarios then
       logger WARNING
         "Received MQTT scenario trigger, but payload was not a list or was empty: %s"
     else
       logger DEBUG "Received empty or null scenario list from MQTT: %s")
    (fun err =>
       match err with
       | JSONDecodeError =>
           logger ERROR
             "Failed to decode JSON from MQTT scenario trigger: %s"
       | _ => logger ERROR "Error handling MQTT scenario trigger: %s"
       end).

End with_host.
End mqtt.

(** ** Reading the webhook handler *)

Module webhook_logic.
Import webhook.

(** The answer is 200 exactly when a service call was made and returned;
    a call is the last of three effects and goes to a registered
    service. *)
Definition call_answered (hass : host) (out : outcome) : Prop :=
  (forall r, out.1 = Ok r ->
     (status r = OK
      <-> exists d n sd,
            ServiceCall d n sd ∈ out.2 /\ call_raises hass d n sd = false))
  /\ (forall d n sd,
        ServiceCall d n sd ∈ out.2 ->
        exists ds ns,
          d = VStr ds /\ n = VStr ns /\ has_service hass ds ns = true
          /\ out.2 = [ReadBody; HasService d n; ServiceCall d n sd]).

(** The data of the call for a payload whose [service_data] is the object
    [sd] and whose top-level [entity_id] is [entity_id]: the entity id is
    added only where [sd] has none of its own. *)
Definition prepared_data (sd : pydict) (entity_id : value) : pydict :=
  match sd !! "entity_id" with
  | Some _ => sd
  | None => <["entity_id" := entity_id]> sd
  end.

End webhook_logic.

(** ** coordinator.py: deleting and activating a directive *)

Module coordinator_crud.
Import coordinator.

(** The requests of these operations. *)
Inductive call : Type :=
  | PutDirective (directive_id : string) (message : value)
  | DeleteDirective (directive_id : string)
  | GetConversation (directive_id : string).

(** The coordinator ([base]: its store, its data and what it published)
    with the requests sent, the number of refreshes requested and the
    argument of each poll task created. *)
Record crud_state : Type := {
  base : state;
  sent : list call;
  refresh_requests : nat;
  poll_tasks : list value
}.

Definition with_base (b : state) (st : crud_state) : crud_state :=
  {| base := b; sent := sent st; refresh_requests := refresh_requests st;
     poll_tasks := poll_tasks st |}.

(** [await self.async_request_refresh()]. *)
Definition async_request_refresh (st : crud_state) : crud_state :=
  {| base := base st; sent := sent st;
     refresh_requests := S (refresh_requests st);
     poll_tasks := poll_tasks st |}.

(** [self.hass.async_create_task(self.async_poll_directive(arg))]. *)
Definition async_create_task (arg : value) (st : crud_state) : crud_state :=
  {| base := base st; sent := sent st;
     refresh_requests := refresh_requests st;
     poll_tasks := poll_tasks st ++ [arg] |}.

(** The loop over [original_directives] of both operations: an entry with
    the id is copied and the copy marked, any other entry is kept.  Returns
    the store, [updated_directives] and the last copy made, which is what
    [updated_directive] holds after the loop. *)
Fixpoint copy_marked (directive_id : string) (mark : pydict -> pydict)
    (h : store) (original_directives : list loc)
    : store * list loc * option loc :=
  match original_directives with
  | [] => (h, [], None)
  | directive :: others =>
      if has_id directive_id (deref h directive) then
        let updated_directive := mark (deref h directive) in
        let '(h', updated_directives, later) :=
          copy_marked directive_id mark (h ++ [updated_directive]) others in
        (h', length h :: updated_directives,
         Some (default (length h) later))
      else
        let '(h', updated_directives, later) :=
          copy_marked directive_id mark h others in
        (h', directive :: updated_directives, later)
  end.

(** [if self.data and "directives" in self.data: ...
    self.async_set_updated_data(new_data)]. *)
Definition mark_collection (directive_id : string) (mark : pydict -> pydict)
    (st : state) : state * option loc :=
  match data st with
  | Some self_data =>
      match directives self_data with
      | Some original_directives =>
          let '(h, updated_directives, updated_directive) :=
            copy_marked directive_id mark (heap st) original_directives in
          (async_set_updated_data
             {| directives := Some updated_directives;
                rest := rest self_data |}
             (with_heap h st),
           updated_directive)
      | None => (st, None)
      end
  | None => (st, None)
  end.

Definition mark_deleting (d : pydict) : pydict :=
  <["status" := VStr "deleting"]> d.

Definition mark_creating (d : pydict) : pydict :=
  <["discovery" := VBool false]> (<["status" := VStr "creating"]> d).

Section with_server.
(** The reply to the n-th request of these operations. *)
Variable server : nat -> http_reply.

Definition session_send (c : call) (st : crud_state)
    : http_reply * crud_state :=
  (server (length (sent st)),
   {| base := base st; sent := sent st ++ [c];
      refresh_requests := refresh_requests st;
      poll_tasks := poll_tasks st |}).

Definition async_delete_directive (directive_id : string) (st : crud_state)
    : res bool * crud_state :=
  let failed := Raised (Exception "Error deleting directive") in
  let st := with_base (mark_collection directive_id mark_deleting
                         (base st)).1 st in
  let '(rep, st) := session_send (DeleteDirective directive_id) st in
  match rep with
  | Response status _ =>
      if Z.eqb status 200 then (Ok true, async_request_refresh st)
      else (failed, st)
  | ClientError => (failed, st)
  end.

Definition async_download_directive (directive_id : string)
    (st : crud_state) : res bool * crud_state :=
  let failed := Raised (Exception "Error activating directive") in
  let '(b, updated_directive) :=
    mark_collection directive_id mark_creating (base st) in
  let st := with_base b st in
  match updated_directive with
  | None => (failed, st)
  | Some l =>
      let updated_directive := deref (heap b) l in
      if negb (truthy (VDict updated_directive)) then (failed, st)
      else
        let '(rep, st) :=
          session_send
            (PutDirective directive_id (get updated_directive "message"))
            st in
        match rep with
        | Response status json =>
            if Z.eqb status 200 then
              match json ≫= as_dict with
              | Ok result =>
                  (Ok true,
                   async_create_task (get result "directive_id") st)
              | Raised _ => (failed, st)
              end
            else (failed, st)
        | ClientError => (failed, st)
        end
  end.

Definition set_messages (messages : value) (d : pydict) : pydict :=
  <["messages" := messages]> d.

(** [async_get_conversation]: the messages of a 200 answer, when there are
    any, are written to copies of the entries with the id, and the answer
    is returned. *)
Definition async_get_conversation (directive_id : string) (st : crud_state)
    : res value * crud_state :=
  let failed := Raised (Exception "Error getting conversation") in
  let '(rep, st) := session_send (GetConversation directive_id) st in
  match rep with
  | Response status json =>
      if Z.eqb status 200 then
        match json with
        | Ok answer =>
            match as_dict answer with
            | Ok result =>
                let messages :=
                  if truthy (get result "messages")
                  then get result "messages" else VList [] in
                let st :=
                  if truthy messages then
                    with_base
                      (mark_collection directive_id (set_messages messages)
                         (base st)).1 st
                  else st in
                (Ok answer, st)
            | Raised _ => (failed, st)
            end
        | Raised _ => (failed, st)
        end
      else (failed, st)
  | ClientError => (failed, st)
  end.

End with_server.

(** An entry as the operations leave it. *)
Definition marked (directive_id : string) (mark : pydict -> pydict)
    (x : pydict) : pydict :=
  if has_id directive_id x then mark x else x.

(** The last entry with the id. *)
Fixpoint last_match (directive_id : string) (xs : list pydict)
    : option pydict :=
  match xs with
  | [] => None
  | x :: xs' =>
      match last_match directive_id xs' with
      | Some y => Some y
      | None => if has_id directive_id x then Some x else None
      end
  end.

End coordinator_crud.

Module crud_samples.
Import aiohttp.

(** The sample coordinator between operations, a server that accepts every
    request and one that does not answer. *)
Definition crud_start : coordinator_crud.crud_state :=
  {| coordinator_crud.base := samples.coordinator_state;
     coordinator_crud.sent := [];
     coordinator_crud.refresh_requests := 0;
     coordinator_crud.poll_tasks := [] |}.

Definition server_accepting : nat -> http_reply :=
  fun _ => Response 200 (Ok (VDict {["directive_id" := VStr "d0"]})).

Definition server_down : nat -> http_reply := fun _ => ClientError.

(** A conversation of one message, and a server that answers with it. *)
Definition conversation : value := VList [VStr "dim the hall at night"].

Definition server_talking : nat -> http_reply :=
  fun _ => Response 200 (Ok (VDict {["messages" := conversation]})).

End crud_samples.

(** ** sensor.py: updating one directive of the sensor *)

Module sensor_logic.
Import coordinator.

(** The sensor's list after [async_set_directive_state] found an entry
    with the id: the first such entry takes the keys of [new_state], which
    win over its own. *)
Fixpoint update_first (directive_id : string) (new_state : pydict)
    (xs : list pydict) : list pydict :=
  match xs with
  | [] => []
  | x :: xs' =>
      if has_id directive_id x then (new_state ∪ x) :: xs'
      else x :: update_first directive_id new_state xs'
  end.

End sensor_logic.

(** ** __init__.py: registering the webhook with the API, once *)

Module setup_entry.
Import aiohttp direktive.

Definition CONF_API_KEY := "api_key".
Definition CONF_WEBHOOK_REGISTERED_TO_API := "webhook_registered_to_api".
Definition CONF_HA_BASE_URL := "ha_base_url".

(** What the block reads of [hass.config]. *)
Record hass_config : Type := {
  external_url : value;
  internal_url : value;
  country : value;
  time_zone : value;
  location_name : value
}.

(** [a or b]. *)
Definition py_or (a b : value) : value := if truthy a then a else b.

(** What the block leaves: the data of the config entry, the bodies POSTed
    to [/register-ha-webhook], and the log. *)
Record registration : Type := {
  entry_data : pydict;
  posted : list pydict;
  logged : list (level * string)
}.

Definition payload_to_your_api (entry_id : string)
    (webhook_secret ha_instance_url : value) (cfg : hass_config) : pydict :=
  <["webhook_ha_id" := VStr entry_id]>
    (<["webhook_secret" := webhook_secret]>
       (<["ha_base_url" := ha_instance_url]>
          (<["ha_country" := country cfg]>
             (<["ha_timezone" := time_zone cfg]>
                {["ha_location" := location_name cfg]})))).

(** The block "Register Webhook with External Direktive.ai API (Once)" of
    [async_setup_entry], for the config entry [entry_id] with the data
    [data]; [reply] is what the request meets. *)
Definition register_webhook_with_api (cfg : hass_config) (reply : http_reply)
    (entry_id : string) (data : pydict) : registration :=
  if negb (truthy (get data CONF_WEBHOOK_REGISTERED_TO_API)) then
    let webhook_secret := get data const.CONF_WEBHOOK_SECRET in
    let current_api_key := get data CONF_API_KEY in
    let ha_instance_url_from_config := get data CONF_HA_BASE_URL in
    if truthy webhook_secret && truthy current_api_key then
      let ha_instance_url :=
        if negb (truthy ha_instance_url_from_config)
        then py_or (external_url cfg) (internal_url cfg)
        else ha_instance_url_from_config in
      let warned :=
        if negb (truthy ha_instance_url_from_config)
           && negb (truthy ha_instance_url)
        then [(WARNING,
               "Home Assistant base URL not configured and could not be auto-detected.")]
        else [] in
      let payload :=
        payload_to_your_api entry_id webhook_secret ha_instance_url cfg in
      let attempt :=
        warned
        ++ [(INFO,
             "Attempting to register HA webhook details with Direktive.ai API at %s")] in
      match reply with
      | Response status _ =>
          if Z.leb 200 status && Z.ltb status 300 then
            {| entry_data :=
                 <[CONF_WEBHOOK_REGISTERED_TO_API := VBool true]> data;
               posted := [payload];
               logged :=
                 attempt
                 ++ [(INFO,
                      "Successfully registered HA webhook details with Direktive.ai API. Status: %s")] |}
          else
            {| entry_data := data;
               posted := [payload];
               logged :=
                 attempt
                 ++ [(ERROR,
                      "Failed to register HA webhook with Direktive.ai API. Status: %s, Response: %s.")] |}
      | ClientError =>
          {| entry_data := data;
             posted := [payload];
             logged :=
               attempt
               ++ [(ERROR,
                    "Error occurred while trying to register HA webhook with Direktive.ai API: %s")] |}
      end
    else
      {| entry_data := data;
         posted := [];
         logged :=
           [(WARNING,
             "Skipping HA webhook registration with Direktive.ai API due to missing data: %s.")] |}
  else
    {| entry_data := data;
       posted := [];
       logged :=
         [(INFO,
           "HA Webhook details already registered with Direktive.ai API, skipping.")] |}.

(** A config entry as the config flow writes it, and the host's
    configuration. *)
Definition sample_entry : pydict :=
  <["api_key" := VStr "k"]>
    (<["webhook_secret" := VStr "s3cret"]>
       {["encryption_key" := VStr samples.key32]}).

Definition sample_config : hass_config :=
  {| external_url := VNone;
     internal_url := VStr "http://homeassistant.local:8123";
     country := VStr "NL";
     time_zone := VStr "Europe/Amsterdam";
     location_name := VStr "Home" |}.

End setup_entry.

(* ===================================================================== *)
(** * Part II: lemmas *)
(* ===================================================================== *)

(** ** encryption.py *)

Section encryption_facts.
Import encryption.
Context {P : Primitives} {L : PrimitiveLaws P}.

Lemma byte_xor_cancel (a b : byte) : byte_xor (byte_xor a b) b = a.
Proof.
    unfold byte_xor.
    destruct (Byte.to_bits a) as (a0&a1&a2&a3&a4&a5&a6&a7) eqn:Ea.
    destruct (Byte.to_bits b) as (b0&b1&b2&b3&b4&b5&b6&b7) eqn:Eb.
    rewrite Byte.to_bits_of_bits.
    rewrite <- (Byte.of_bits_to_bits a), Ea.
    assert (Hx : forall x y : bool, xorb (xorb x y) y = x)
      by (by intros [] []).
    by rewrite !Hx.
Qed.

Lemma to_nat_byte_of_nat (n : nat) :
    (n <= 255)%nat -> Byte.to_nat (byte_of_nat n) = n.
Proof.
    intros Hn. unfold byte_of_nat.
    destruct (Byte.of_nat n) as [y|] eqn:E; simpl.
    - by apply Byte.to_of_nat.
    - apply Byte.of_nat_None_iff in E. lia.
Qed.

Lemma xor_bytes_length (a b : bytes) :
    length a = length b -> length (xor_bytes a b) = length a.
Proof.
    intros H. unfold xor_bytes. rewrite length_zip_with. lia.
Qed.

Lemma xor_bytes_cancel (a b : bytes) :
    length a = length b -> xor_bytes (xor_bytes a b) b = a.
Proof.
    unfold xor_bytes. revert b.
    induction a as [|x a IH]; intros [|y b] Hlen; simpl in *; try done.
    rewrite IH by lia. f_equal. apply byte_xor_cancel.
Qed.

Lemma pkcs7_pad_length (data : bytes) :
    length (pkcs7_pad data) = (16 * (length data / 16 + 1))%nat.
Proof.
    unfold pkcs7_pad. rewrite length_app, length_replicate.
    pose proof (Nat.div_mod_eq (length data) 16).
    pose proof (Nat.mod_upper_bound (length data) 16). lia.
Qed.

Lemma pkcs7_pad_blocks (data : bytes) :
    (length (pkcs7_pad data) mod 16 = 0)%nat.
Proof.
    rewrite pkcs7_pad_length, Nat.mul_comm. apply Nat.Div0.mod_mul.
Qed.

Lemma forallb_replicate (v : byte) (n : nat) :
    forallb (Byte.eqb v) (replicate n v) = true.
Proof.
    induction n; simpl; [done|]. by rewrite (Byte.byte_dec_lb (eq_refl v)).
Qed.

Lemma pkcs7_unpad_pad (data : bytes) :
    pkcs7_unpad (pkcs7_pad data) = Ok data.
Proof.
    unfold pkcs7_unpad. rewrite pkcs7_pad_blocks.
    unfold pkcs7_pad.
    pose proof (Nat.mod_upper_bound (length data) 16) as Hm.
    set (n := (16 - length data mod 16)%nat) in *.
    assert (Hn : (1 <= n <= 16)%nat) by lia.
    destruct n as [|m] eqn:En; [lia|].
    rewrite replicate_S_end, app_assoc, last_snoc.
    rewrite <- app_assoc, <- replicate_S_end.
    rewrite to_nat_byte_of_nat, length_app, length_replicate by lia.
    replace (length data + S m - S m)%nat with (length data) by lia.
    rewrite drop_app_length, take_app_length, forallb_replicate.
    rewrite !(proj2 (Nat.leb_le _ _)) by lia. done.
Qed.

Lemma cbc_encrypt_length key k : forall prev data : bytes,
    length prev = 16%nat -> length data = (16 * k)%nat ->
    length (cbc_encrypt key k prev data) = (16 * k)%nat.
Proof.
    induction k as [|k IH]; intros prev data Hp Hd; simpl; [done|].
    assert (Hx : length (xor_bytes (take 16 data) prev) = 16%nat).
    { rewrite xor_bytes_length; rewrite length_take; lia. }
    rewrite length_app, aes_block_length by done.
    rewrite IH; [lia| by apply aes_block_length |].
    rewrite length_drop. lia.
Qed.

Lemma cbc_decrypt_encrypt key k : forall prev data : bytes,
    length prev = 16%nat -> length data = (16 * k)%nat ->
    cbc_decrypt key k prev (cbc_encrypt key k prev data) = data.
Proof.
    induction k as [|k IH]; intros prev data Hp Hd; simpl.
    - destruct data; [done | simpl in Hd; lia].
    - assert (Ht : length (take 16 data) = 16%nat) by (rewrite length_take; lia).
      assert (Hx : length (xor_bytes (take 16 data) prev) = 16%nat).
      { rewrite xor_bytes_length; lia. }
      set (c := aes_encrypt_block key (xor_bytes (take 16 data) prev)).
      assert (Hc : length c = 16%nat) by by apply aes_block_length.
      assert (Htk : forall r : bytes, take 16 (c ++ r) = c).
      { intros r. rewrite <- Hc. apply take_app_length. }
      assert (Hdr : forall r : bytes, drop 16 (c ++ r) = r).
      { intros r. rewrite <- Hc. apply drop_app_length. }
      rewrite !Htk, Hdr. unfold c at 1. rewrite aes_block_inverse by done.
      rewrite xor_bytes_cancel by lia.
      rewrite IH; [apply take_drop | done | rewrite length_drop; lia].
Qed.

Lemma cipher_decrypt_encrypt key iv (data : bytes) :
    length iv = 16%nat -> (length data mod 16 = 0)%nat ->
    exists ct, cipher_encrypt key iv data = Ok ct
      /\ length ct = length data
      /\ cipher_decrypt key iv ct = Ok data.
Proof.
    intros Hiv Hd. unfold cipher_encrypt, cipher_decrypt.
    rewrite Hd, Nat.eqb_refl.
    assert (Hk : length data = (16 * (length data / 16))%nat).
    { pose proof (Nat.div_mod_eq (length data) 16). lia. }
    eexists; split; [done|].
    rewrite cbc_encrypt_length by done.
    split; [lia|]. rewrite <- Hk, Hd, Nat.eqb_refl.
    by rewrite cbc_decrypt_encrypt.
Qed.

(** C7 (encrypt/decrypt round trip and output length).  For a value [X]
    that json gives back from its own dump, a base64 key that decodes to 32
    bytes and the 16 random bytes of the IV: [encrypt_data] succeeds, the
    bytes it hands to base64 are the 16-byte IV followed by the
    ciphertext, the ciphertext is a positive number of 16-byte blocks,
    and [decrypt_data] under the same key returns [X]. *)
Theorem encrypt_decrypt_roundtrip (X : value) (encryption_key : string)
      (key iv : bytes) :
    json_serializable X ->
    b64decode encryption_key = Ok key ->
    length key = const.ENCRYPTION_KEY_LENGTH ->
    length iv = 16%nat ->
    exists ciphertext : bytes,
      encrypt_raw X (Some encryption_key) iv = Ok (iv, ciphertext)
      /\ encrypt_data X (Some encryption_key) iv
           = Ok (b64encode (iv ++ ciphertext))
      /\ length (iv ++ ciphertext) = (16 + length ciphertext)%nat
      /\ (exists n, (0 < n)%nat /\ length ciphertext = (16 * n)%nat)
      /\ decrypt_data (b64encode (iv ++ ciphertext)) (Some encryption_key)
           = Ok X.
Proof.
    intros HX Hkey Hklen Hiv.
    destruct (cipher_decrypt_encrypt key iv
                (pkcs7_pad (utf8_encode (json_dumps X))) Hiv
                (pkcs7_pad_blocks _)) as (ct & Henc & Hlen & Hdec).
    assert (Hok : cipher_ok key iv = true).
    { unfold cipher_ok. rewrite Hklen, Hiv. done. }
    assert (Hraw : encrypt_raw X (Some encryption_key) iv = Ok (iv, ct)).
    { unfold encrypt_raw. simpl. rewrite Hkey. simpl. rewrite Hok.
      rewrite Henc. done. }
    exists ct. split; [done|]. split.
    { unfold encrypt_data. rewrite Hraw. done. }
    split; [rewrite length_app; lia|]. split.
    { exists (length (utf8_encode (json_dumps X)) / 16 + 1)%nat.
      split; [lia|]. rewrite Hlen. apply pkcs7_pad_length. }
    unfold decrypt_data. rewrite b64_roundtrip. simpl.
    rewrite Hkey. simpl.
    assert (Htk : take 16 (iv ++ ct) = iv).
    { rewrite <- Hiv. apply take_app_length. }
    assert (Hdr : drop 16 (iv ++ ct) = ct).
    { rewrite <- Hiv. apply drop_app_length. }
    rewrite Htk, Hdr, Hok, Hdec. simpl.
    rewrite pkcs7_unpad_pad. simpl. rewrite utf8_roundtrip. simpl.
    exact HX.
Qed.

End encryption_facts.

Lemma toy_primitives_laws : encryption.PrimitiveLaws samples.toy_primitives.
Proof.
  split; simpl.
  - intros bs. by rewrite String.list_byte_of_string_of_list_byte.
  - intros s. by rewrite String.string_of_list_byte_of_string.
  - intros _ b Hb. by rewrite length_rev.
  - intros _ b _. apply rev_involutive.
Qed.

Lemma encrypt_decrypt_roundtrip_witness :
  encryption.json_serializable (VBool true)
  /\ encryption.b64decode samples.key32
       = Ok (String.list_byte_of_string samples.key32)
  /\ length (String.list_byte_of_string samples.key32) = 32%nat
  /\ length samples.iv16 = 16%nat
  /\ exists ciphertext,
       encryption.encrypt_data (VBool true) (Some samples.key32) samples.iv16
         = Ok (encryption.b64encode (samples.iv16 ++ ciphertext))
       /\ encryption.decrypt_data
            (encryption.b64encode (samples.iv16 ++ ciphertext))
            (Some samples.key32) = Ok (VBool true).
Proof.
  repeat split; [reflexivity..|].
  destruct (encrypt_decrypt_roundtrip (L := toy_primitives_laws)
              (VBool true) samples.key32
              (String.list_byte_of_string samples.key32) samples.iv16
              eq_refl eq_refl eq_refl eq_refl)
    as (ct & _ & Henc & _ & _ & Hdec).
  exists ct. split; [exact Henc | exact Hdec].
Defined.

(** ** coordinator.py *)

Section coordinator_facts.
Import coordinator.

Implicit Types (h : list pydict) (ds : list nat) (d : nat).

Lemma deref_app_l h h' d :
    (d < length h)%nat -> deref (h ++ h') d = deref h d.
Proof. intros Hd. unfold deref. by rewrite lookup_app_l. Qed.

Lemma deref_alloc h h' (x : pydict) :
    deref ((h ++ [x]) ++ h') (length h) = x.
Proof.
    unfold deref. rewrite <- app_assoc. simpl. by rewrite list_lookup_middle.
Qed.

Lemma view_app_l h h' ds :
    Forall (fun d => (d < length h)%nat) ds -> view (h ++ h') ds = view h ds.
Proof.
    unfold view. induction 1 as [|d ds Hd _ IH]; csimpl; [done|].
    by rewrite deref_app_l, IH.
Qed.

Lemma merge_stage_spec directive_id a b c ds : forall h,
    well_formed h ds ->
    exists ext out,
      merge_stage directive_id a b c h ds
        = (h ++ ext, out, existsb (has_id directive_id) (view h ds))
      /\ view (h ++ ext) out = merged directive_id a b c <$> view h ds
      /\ Forall (fun d => d ∈ ds \/ (length h <= d)%nat) out
      /\ well_formed (h ++ ext) out.
Proof.
    unfold well_formed.
    induction ds as [|d ds IH]; intros h [Hlt Hnd].
    - exists [], []. rewrite app_nil_r. simpl. repeat split; constructor.
    - apply Forall_cons in Hlt as [Hd Hlt]. apply NoDup_cons in Hnd as [Hnin Hnd].
      csimpl. unfold view. csimpl. fold (view h ds).
      unfold merged at 1.
      destruct (has_id directive_id (deref h d)) eqn:Hid.
      + set (u := assign_stage a b c (deref h d)).
        destruct (IH (h ++ [u])) as (ext & out & E & Hv & Hfrom & Hlt' & Hnd').
        { split; [|done]. eapply Forall_impl; [exact Hlt|].
          intros x Hx. simpl in Hx. rewrite length_app. simpl. lia. }
        rewrite E. exists ([u] ++ ext), (length h :: out).
        rewrite !app_assoc. split; [done|]. split.
        { unfold view in *. csimpl. rewrite deref_alloc, Hv.
          pose proof (view_app_l h [u] ds Hlt) as Hw. unfold view in Hw.
          by rewrite Hw. }
        split.
        { constructor; [right; lia|]. eapply Forall_impl; [exact Hfrom|].
          intros x [Hx|Hx]; [left; by constructor|right].
          rewrite length_app in Hx. simpl in Hx. lia. }
        split.
        { constructor; [|done]. rewrite !length_app. simpl. lia. }
        apply NoDup_cons. split; [|done]. intros Hin.
        rewrite Forall_forall in Hfrom. destruct (Hfrom _ Hin) as [Hx|Hx].
        * rewrite Forall_forall in Hlt. specialize (Hlt _ Hx). lia.
        * rewrite length_app in Hx. simpl in Hx. lia.
      + destruct (IH h) as (ext & out & E & Hv & Hfrom & Hlt' & Hnd');
          [done|].
        rewrite E. exists ext, (d :: out). split; [done|]. split.
        { unfold view in *. csimpl. by rewrite deref_app_l, Hv. }
        split.
        { constructor; [left; by constructor|].
          eapply Forall_impl; [exact Hfrom|].
          intros x [Hx|Hx]; [left; by constructor|by right]. }
        split.
        { constructor; [rewrite length_app; lia|done]. }
        apply NoDup_cons. split; [|done]. intros Hin.
        rewrite Forall_forall in Hfrom. destruct (Hfrom _ Hin) as [Hx|Hx].
        * done.
        * lia.
Qed.

Lemma has_id_nonempty directive_id (x : pydict) :
    has_id directive_id x = true -> truthy (VDict x) = true.
Proof.
    unfold has_id, get. intros H. simpl.
    destruct (x !! "id") as [v|] eqn:E; [|done].
    destruct (decide (size x = 0%nat)) as [Hz|Hz].
    - apply map_size_empty_iff in Hz. subst x. by rewrite lookup_empty in E.
    - by apply Nat.eqb_neq in Hz as ->.
Qed.

Lemma has_id_assign_stage directive_id a b c (x : pydict) :
    has_id directive_id (assign_stage a b c x) = has_id directive_id x.
Proof.
    unfold has_id, get, assign_stage. by rewrite !lookup_insert_ne.
Qed.

Lemma assign_stage_twice a b c a' b' c' (x : pydict) :
    assign_stage a' b' c' (assign_stage a b c x) = assign_stage a' b' c' x.
Proof.
    unfold assign_stage. apply map_eq. intros k.
    destruct (decide (k = "status")) as [->|?];
      [by rewrite !lookup_insert_eq|rewrite !(lookup_insert_ne _ "status") by done].
    destruct (decide (k = "creation_message")) as [->|?];
      [by rewrite !lookup_insert_eq
      |rewrite !(lookup_insert_ne _ "creation_message") by done].
    destruct (decide (k = "creation_stage")) as [->|?];
      [by rewrite !lookup_insert_eq
      |rewrite !(lookup_insert_ne _ "creation_stage") by done].
    by rewrite !lookup_insert_ne.
Qed.

Lemma view_insert_notin h ds d (x : pydict) :
    d ∉ ds -> view (<[d := x]> h) ds = view h ds.
Proof.
    unfold view. induction ds as [|e ds IH]; intros Hn; csimpl; [done|].
    apply not_elem_of_cons in Hn as [Hne Hn]. rewrite IH by done.
    f_equal. unfold deref. by rewrite list_lookup_insert_ne.
Qed.

Lemma find_first_view directive_id h ds :
    find (fun d => has_id directive_id (deref h d)) ds = None ->
    existsb (has_id directive_id) (view h ds) = false.
Proof.
    unfold view. induction ds as [|d ds IH]; csimpl; [done|].
    destruct (has_id directive_id (deref h d)); [done|]. exact IH.
Qed.

Lemma mark_first_insert directive_id h ds d :
    well_formed h ds ->
    find (fun d => has_id directive_id (deref h d)) ds = Some d ->
    view (<[d := assign_stage (VStr "failed") (VStr TIMEOUT_MESSAGE)
                   (VStr "error") (deref h d)]> h) ds
      = mark_first directive_id (view h ds).
Proof.
    unfold well_formed, view.
    induction ds as [|e ds IH]; intros [Hlt Hnd] Hfind; csimpl; [done|].
    apply Forall_cons in Hlt as [He Hlt]. apply NoDup_cons in Hnd as [Hnin Hnd].
    simpl in Hfind. destruct (has_id directive_id (deref h e)) eqn:Hid.
    - injection Hfind as <-.
      pose proof (view_insert_notin h ds e
        (assign_stage (VStr "failed") (VStr TIMEOUT_MESSAGE) (VStr "error")
           (deref h e)) Hnin) as Hw.
      unfold view in Hw. rewrite Hw. f_equal.
      unfold deref at 1. by rewrite list_lookup_insert_eq.
    - rewrite IH by done. f_equal.
      assert (d <> e).
      { intros ->. apply Hnin. apply find_some in Hfind as [Hin _].
        by apply list_elem_of_In. }
      unfold deref at 1. by rewrite list_lookup_insert_ne.
Qed.

Lemma merged_no_match directive_id a b c (xs : list pydict) :
    existsb (has_id directive_id) xs = false ->
    merged directive_id a b c <$> xs = xs.
Proof.
    induction xs as [|x xs IH]; csimpl; [done|].
    intros H. apply orb_false_iff in H as [Hx Hxs].
    unfold merged at 1. by rewrite Hx, IH.
Qed.

Lemma existsb_merged directive_id a b c (xs : list pydict) :
    existsb (has_id directive_id) (merged directive_id a b c <$> xs)
      = existsb (has_id directive_id) xs.
Proof.
    induction xs as [|x xs IH]; csimpl; [done|]. rewrite IH. f_equal.
    unfold merged. destruct (has_id directive_id x) eqn:E; [|done].
    by rewrite has_id_assign_stage.
Qed.

Lemma has_id_new_directive directive_id a b m t :
    has_id directive_id (new_directive directive_id a b m t) = true.
Proof.
    unfold has_id, get, new_directive. rewrite lookup_insert_eq. simpl.
    apply String.eqb_refl.
Qed.

Lemma existsb_poll_view directive_id si (xs : list pydict) :
    existsb (has_id directive_id) (poll_view directive_id si xs) = true.
Proof.
    unfold poll_view.
    destruct (existsb (has_id directive_id) xs) eqn:E.
    - by rewrite existsb_merged.
    - rewrite existsb_app. simpl. rewrite has_id_new_directive.
      by rewrite orb_true_r.
Qed.

(** One turn of the poll on a coordinator that holds a collection. *)
Lemma poll_update_spec directive_id si (st : state) ds r :
    data st = Some {| directives := Some ds; rest := r |} ->
    well_formed (heap st) ds ->
    exists ext ds',
      poll_update directive_id si st
        = async_set_updated_data {| directives := Some ds'; rest := r |}
            (with_heap (heap st ++ ext) st)
      /\ view (heap st ++ ext) ds'
           = poll_view directive_id si (view (heap st) ds)
      /\ well_formed (heap st ++ ext) ds'.
Proof.
    intros Hdata Hwf. unfold poll_update. rewrite Hdata. simpl.
    destruct (merge_stage_spec directive_id (get si "stage")
                (get si "stage_message") (get si "status") ds (heap st) Hwf)
      as (ext & out & E & Hv & Hfrom & Hwf').
    rewrite E. unfold poll_view.
    destruct (existsb (has_id directive_id) (view (heap st) ds)) eqn:Hex.
    - exists ext, out. done.
    - set (nd := new_directive directive_id (get si "stage")
                   (get si "stage_message") (get si "message")
                   (get si "title")).
      exists (ext ++ [nd]), (out ++ [length (heap st ++ ext)]).
      rewrite !app_assoc. split; [done|].
      destruct Hwf' as [Hlt Hnd]. split.
      + unfold view in *. rewrite fmap_app. csimpl.
        rewrite <- (app_nil_r ((heap st ++ ext) ++ [nd])) at 2.
        rewrite deref_alloc.
        pose proof (view_app_l (heap st ++ ext) [nd] out Hlt) as Hw.
        unfold view in Hw. rewrite Hw, Hv.
        by rewrite merged_no_match.
      + split.
        * apply Forall_app. split.
          -- eapply Forall_impl; [exact Hlt|]. intros x Hx. simpl in Hx.
             rewrite (length_app (heap st ++ ext)). simpl. lia.
          -- constructor; [|done]. rewrite (length_app (heap st ++ ext)).
             simpl. lia.
        * apply NoDup_app. split; [done|]. split; [|apply NoDup_singleton].
          intros x Hx Hx'. apply list_elem_of_singleton in Hx'. subst x.
          rewrite Forall_forall in Hlt. specialize (Hlt _ Hx). simpl in Hlt.
          lia.
Qed.

(** The timeout on a coordinator that holds a collection with the id. *)
Lemma poll_timeout_spec directive_id (st : state) ds r :
    data st = Some {| directives := Some ds; rest := r |} ->
    well_formed (heap st) ds ->
    existsb (has_id directive_id) (view (heap st) ds) = true ->
    exists h',
      poll_timeout directive_id st
        = async_set_updated_data {| directives := Some ds; rest := r |}
            (with_heap h' st)
      /\ length h' = length (heap st)
      /\ view h' ds = mark_first directive_id (view (heap st) ds).
Proof.
    intros Hdata Hwf Hex. unfold poll_timeout. rewrite Hdata. simpl.
    destruct (find (fun d => has_id directive_id (deref (heap st) d)) ds)
      as [d|] eqn:Hfind.
    - pose proof (find_some _ _ Hfind) as [_ Hid]. simpl in Hid.
      pose proof (has_id_nonempty _ _ Hid) as Ht. simpl in Ht. rewrite Ht.
      eexists. split; [done|]. split; [apply length_insert|].
      by apply mark_first_insert.
    - apply find_first_view in Hfind. congruence.
Qed.

Lemma poll_timeout_no_match directive_id (st : state) ds r :
    data st = Some {| directives := Some ds; rest := r |} ->
    existsb (has_id directive_id) (view (heap st) ds) = false ->
    poll_timeout directive_id st = st.
Proof.
    intros Hdata Hex. unfold poll_timeout. rewrite Hdata. simpl.
    destruct (find (fun d => has_id directive_id (deref (heap st) d)) ds)
      as [d|] eqn:Hfind; [|done].
    pose proof (find_some _ _ Hfind) as [Hin Hid]. simpl in Hid.
    assert (existsb (has_id directive_id) (view (heap st) ds) = true);
      [|congruence].
    apply existsb_exists. exists (deref (heap st) d). split; [|done].
    unfold view. apply list_elem_of_In, list_elem_of_fmap.
    exists d. split; [done|]. by apply list_elem_of_In.
Qed.

Lemma tracks_refl directive_id (xs : list pydict) :
    tracks directive_id xs xs.
Proof. unfold tracks. induction xs; constructor; auto. Qed.

Lemma tracks_trans directive_id (xs ys zs : list pydict) :
    tracks directive_id xs ys -> tracks directive_id ys zs ->
    tracks directive_id xs zs.
Proof.
    unfold tracks. intros Hxy. revert zs.
    induction Hxy as [|x y xs ys Hx _ IH]; intros zs Hyz.
    - inversion Hyz. constructor.
    - inversion Hyz as [|? z ? zs' Hy Hrest]; subst. constructor; [|by apply IH].
      destruct Hx as [->|(Hid & a & b & c & ->)]; [done|].
      destruct Hy as [->|(_ & a' & b' & c' & ->)].
      + right. eauto.
      + right. split; [done|]. exists a', b', c'. apply assign_stage_twice.
Qed.

Lemma tracks_merged directive_id a b c (xs : list pydict) :
    tracks directive_id xs (merged directive_id a b c <$> xs).
Proof.
    unfold tracks. induction xs as [|x xs IH]; csimpl; constructor; [|done].
    unfold merged. destruct (has_id directive_id x) eqn:E; [|by left].
    right. eauto.
Qed.

Section loop.
Variable env : remote.
Variable directive_id : string.
Variable start_time : Z.

Lemma poll_loop_exit fuel (st : state) :
      Z.ltb (clock st - start_time) (seconds 380) = false ->
      poll_loop env (S fuel) directive_id start_time st
        = Some (Ok None, poll_timeout directive_id st).
Proof. intros H. simpl. by rewrite H. Qed.

Lemma poll_loop_pending fuel (st : state) si :
      Z.ltb (clock st - start_time) (seconds 380) = true ->
      reply env (length (requests st)) = Response 200 (Ok (VDict si)) ->
      eq_str (get si "stage") "completed" = false ->
      eq_str (get si "stage") "failed" = false ->
      poll_loop env (S fuel) directive_id start_time st
        = poll_loop env fuel directive_id start_time
            (sleep env 10
               (poll_update directive_id si
                  (send env (GetDirectiveStage directive_id) st).2)).
Proof.
      intros Ht Hr Hc Hf. simpl. rewrite Ht.
      unfold async_get_directive_stage. simpl. rewrite Hr. simpl.
      by rewrite Hc, Hf.
Qed.

(** From a collection that holds the id, and under a remote that never
    reports a terminal stage, the loop is left through the timeout
    after at most [n] turns when [n] sleeps fill the time that is
    left. *)
Lemma poll_loop_times_out (n : nat) : forall (st : state) ds r,
      pending_forever env ->
      data st = Some {| directives := Some ds; rest := r |} ->
      well_formed (heap st) ds ->
      existsb (has_id directive_id) (view (heap st) ds) = true ->
      seconds 380 - (clock st - start_time) <= seconds 10 * Z.of_nat n ->
      exists st' ds',
        (forall fuel, (n < fuel)%nat ->
           poll_loop env fuel directive_id start_time st
             = Some (Ok None, st'))
        /\ seconds 380 <= clock st' - start_time
        /\ data st' = Some {| directives := Some ds'; rest := r |}
        /\ last (snapshots st') = data st'
        /\ (exists ws, tracks directive_id (view (heap st) ds) ws
                       /\ view (heap st') ds' = mark_first directive_id ws).
Proof.
      assert (Hexit : forall (st : state) ds r m,
        data st = Some {| directives := Some ds; rest := r |} ->
        well_formed (heap st) ds ->
        existsb (has_id directive_id) (view (heap st) ds) = true ->
        Z.ltb (clock st - start_time) (seconds 380) = false ->
        exists st' ds',
          (forall fuel, (m < fuel)%nat ->
             poll_loop env fuel directive_id start_time st
               = Some (Ok None, st'))
          /\ seconds 380 <= clock st' - start_time
          /\ data st' = Some {| directives := Some ds'; rest := r |}
          /\ last (snapshots st') = data st'
          /\ (exists ws, tracks directive_id (view (heap st) ds) ws
                         /\ view (heap st') ds' = mark_first directive_id ws)).
      { intros st ds r m Hdata Hwf Hex Ht.
        destruct (poll_timeout_spec directive_id st ds r Hdata Hwf Hex)
          as (h' & E & Hlen & Hv).
        exists (poll_timeout directive_id st), ds. split.
        { intros [|fuel] Hfuel; [lia|]. by apply poll_loop_exit. }
        rewrite E. simpl. split; [apply Z.ltb_ge in Ht; lia|].
        split; [done|]. split; [apply last_snoc|].
        exists (view (heap st) ds).
        split; [apply tracks_refl|done]. }
      induction n as [|m IH]; intros st ds r Hpend Hdata Hwf Hex Hrem.
      - apply Hexit; [done..|]. apply Z.ltb_ge. unfold seconds in *. lia.
      - destruct (Z.ltb (clock st - start_time) (seconds 380)) eqn:Ht;
          [|by apply Hexit].
        destruct (Hpend (length (requests st))) as (si & Hr & Hc & Hf).
        set (st1 := (send env (GetDirectiveStage directive_id) st).2).
        destruct (poll_update_spec directive_id si st1 ds r)
          as (ext & ds1 & E & Hv & Hwf1); [done..|].
        set (st3 := sleep env 10 (poll_update directive_id si st1)).
        assert (Hview : view (heap st3) ds1
                        = merged directive_id (get si "stage")
                            (get si "stage_message") (get si "status")
                            <$> view (heap st) ds).
        { unfold st3. rewrite E. simpl. unfold st1 in Hv. simpl in Hv.
          rewrite Hv. unfold poll_view. by rewrite Hex. }
        destruct (IH st3 ds1 r)
          as (st' & ds' & Hrun & Hclock & Hdata' & Hpub & Hfin).
        + done.
        + unfold st3. rewrite E. done.
        + unfold st3. rewrite E. exact Hwf1.
        + rewrite Hview. by rewrite existsb_merged.
        + unfold st3. rewrite E. simpl. unfold seconds in *. lia.
        + exists st', ds'. split.
          { intros [|fuel] Hfuel; [lia|].
            rewrite (poll_loop_pending fuel st si) by done.
            apply Hrun. lia. }
          split; [done|]. split; [done|]. split; [done|].
          destruct Hfin as (ws & Htr & Hw). exists ws. split; [|done].
          eapply tracks_trans; [|exact Htr]. rewrite Hview.
          apply tracks_merged.
Qed.

End loop.

Lemma tracks_no_match directive_id (xs ys : list pydict) :
    existsb (has_id directive_id) xs = false ->
    tracks directive_id xs ys -> ys = xs.
Proof.
    unfold tracks. intros Hex Htr. induction Htr as [|x y xs ys Hx _ IH];
      [done|].
    simpl in Hex. apply orb_false_iff in Hex as [Hx' Hxs].
    rewrite IH by done. destruct Hx as [->|[Hid _]]; [done|congruence].
Qed.

Lemma mark_first_app directive_id (pre post : list pydict) (x : pydict) :
    existsb (has_id directive_id) pre = false ->
    has_id directive_id x = true ->
    mark_first directive_id (pre ++ x :: post)
      = pre ++ assign_stage (VStr "failed") (VStr TIMEOUT_MESSAGE)
                 (VStr "error") x :: post.
Proof.
    intros Hpre Hx. induction pre as [|p pre IH]; simpl.
    - by rewrite Hx.
    - simpl in Hpre. apply orb_false_iff in Hpre as [Hp Hpre].
      by rewrite Hp, IH.
Qed.

(** What the timeout leaves of a collection whose first entry with the
    id is [x]: [x] marked as failed, the entries before it as they were,
    the entries after it at most merged with a stage. *)
Lemma timed_out_view directive_id (pre post ws : list pydict) (x : pydict) :
    existsb (has_id directive_id) pre = false ->
    has_id directive_id x = true ->
    tracks directive_id (pre ++ x :: post) ws ->
    exists post',
      mark_first directive_id ws
        = pre ++ assign_stage (VStr "failed") (VStr TIMEOUT_MESSAGE)
                   (VStr "error") x :: post'
      /\ tracks directive_id post post'.
Proof.
    intros Hpre Hx Htr. unfold tracks in Htr.
    apply Forall2_app_inv_l in Htr as (pre' & rest & Hp & Hr & ->).
    apply Forall2_cons_inv_l in Hr as (y & post' & Hy & Hpost & ->).
    apply (tracks_no_match directive_id) in Hp; [|done]. subst pre'.
    exists post'. split; [|done].
    destruct Hy as [->|(_ & a & b & c & ->)].
    - by apply mark_first_app.
    - fold (assign_stage a b c x).
      rewrite mark_first_app; [|done|by rewrite has_id_assign_stage].
      by rewrite assign_stage_twice.
Qed.

(** C3 (merging a non-terminal stage).  On a coordinator that holds a
    directive collection, the part of the loop body that follows the two
    terminal tests assigns [creation_stage], [creation_message] and
    [status] from the stage to a copy of every entry with the polled id
    and keeps the other entries; when no entry has the id it appends a
    synthesized one with status ["creating"] and discovery [False].  The
    objects that were in the store are not written to, and exactly one
    snapshot is published: the whole new collection, which is also the new
    [self.data]. *)
Theorem poll_update_merges_and_publishes directive_id (stage_info : pydict)
      (st : state) ds r :
    data st = Some {| directives := Some ds; rest := r |} ->
    well_formed (heap st) ds ->
    let stage := get stage_info "stage" in
    let stage_message := get stage_info "stage_message" in
    let status := get stage_info "status" in
    let synthesized :=
      new_directive directive_id stage stage_message
        (get stage_info "message") (get stage_info "title") in
    let st' := poll_update directive_id stage_info st in
    exists ds',
      data st' = Some {| directives := Some ds'; rest := r |}
      /\ snapshots st'
           = snapshots st ++ [{| directives := Some ds'; rest := r |}]
      /\ view (heap st') ds'
           = (if existsb (has_id directive_id) (view (heap st) ds)
              then (fun x => if has_id directive_id x
                             then <["status" := status]>
                                    (<["creation_message" := stage_message]>
                                       (<["creation_stage" := stage]> x))
                             else x) <$> view (heap st) ds
              else view (heap st) ds ++ [synthesized])
      /\ synthesized
         = <["id" := VStr directive_id]>
             (<["creation_stage" := stage]>
                (<["creation_message" := stage_message]>
                   (<["message" := get stage_info "message"]>
                      (<["title" := get stage_info "title"]>
                         (<["status" := VStr "creating"]>
                            (<["discovery" := VBool false]> ∅))))))
      /\ synthesized !! "id" = Some (VStr directive_id)
      /\ synthesized !! "status" = Some (VStr "creating")
      /\ synthesized !! "discovery" = Some (VBool false)
      /\ (forall d, (d < length (heap st))%nat ->
            deref (heap st') d = deref (heap st) d).
Proof.
    intros Hdata Hwf. simpl.
    destruct (poll_update_spec directive_id stage_info st ds r Hdata Hwf)
      as (ext & ds' & E & Hv & Hwf').
    exists ds'. rewrite E. simpl. split; [done|]. split; [done|].
    split; [exact Hv|]. split; [done|].
    split; [done|]. split; [done|]. split; [done|].
    intros d Hd. by apply deref_app_l.
Qed.

(** C1 (all stages pending: the poll times out).  On a coordinator that
    holds a directive collection, and under a remote whose every stage
    fetch reports a non-terminal stage, the poll returns [None] once at
    least 380 seconds have passed, and 39 evaluations of the loop
    condition are always enough.  Afterwards the first entry that had
    the polled id has [creation_stage = "failed"], the timeout text as
    [creation_message] and [status = "error"], the entries before it are
    as they were, and the collection has been published.  When no entry
    had the id, the collection ends with one more entry: the one
    synthesized from the first stage reply, marked in the same way. *)
Theorem poll_pending_forever_times_out (env : remote) directive_id
      (st : state) ds r :
    pending_forever env ->
    data st = Some {| directives := Some ds; rest := r |} ->
    well_formed (heap st) ds ->
    exists st' ds',
      (forall fuel, (39 <= fuel)%nat ->
         async_poll_directive env fuel directive_id st = Some (Ok None, st'))
      /\ seconds 380 <= clock st' - clock st
      /\ data st' = Some {| directives := Some ds'; rest := r |}
      /\ last (snapshots st') = data st'
      /\ (forall pre x post,
            view (heap st) ds = pre ++ x :: post ->
            existsb (has_id directive_id) pre = false ->
            has_id directive_id x = true ->
            exists post',
              view (heap st') ds'
                = pre
                  ++ <["status" := VStr "error"]>
                       (<["creation_message" :=
                            VStr "Directive creation timed out after 3 minutes."]>
                          (<["creation_stage" := VStr "failed"]> x))
                     :: post'
              /\ tracks directive_id post post')
      /\ (existsb (has_id directive_id) (view (heap st) ds) = false ->
          exists stage_info,
            reply env (length (requests st))
              = Response 200 (Ok (VDict stage_info))
            /\ view (heap st') ds'
                 = view (heap st) ds
                   ++ [<["status" := VStr "error"]>
                         (<["creation_message" :=
                              VStr "Directive creation timed out after 3 minutes."]>
                            (<["creation_stage" := VStr "failed"]>
                               (<["id" := VStr directive_id]>
                                  (<["creation_stage" :=
                                       get stage_info "stage"]>
                                     (<["creation_message" :=
                                          get stage_info "stage_message"]>
                                        (<["message" :=
                                             get stage_info "message"]>
                                           (<["title" :=
                                                get stage_info "title"]>
                                              (<["status" := VStr "creating"]>
                                                 (<["discovery" := VBool false]>
                                                    ∅)))))))))]).
Proof.
    intros Hpend Hdata Hwf. unfold async_poll_directive.
    destruct (existsb (has_id directive_id) (view (heap st) ds)) eqn:Hex.
    - destruct (poll_loop_times_out env directive_id (clock st) 38
                  st ds r Hpend Hdata Hwf Hex)
        as (st' & ds' & Hrun & Hclock & Hdata' & Hpub & ws & Htr & Hw).
      { unfold seconds. lia. }
      exists st', ds'. split; [intros fuel Hf; apply Hrun; lia|].
      split; [done|]. split; [done|]. split; [done|]. split; [|done].
      intros pre x post Hview Hpre Hx. rewrite Hview in Htr. rewrite Hw.
      by apply timed_out_view.
    - assert (Ht : Z.ltb (clock st - clock st) (seconds 380) = true).
      { apply Z.ltb_lt. unfold seconds. lia. }
      destruct (Hpend (length (requests st))) as (si & Hr & Hc & Hf).
      set (st1 := (send env (GetDirectiveStage directive_id) st).2).
      destruct (poll_update_spec directive_id si st1 ds r)
        as (ext & ds1 & E & Hv & Hwf1); [done..|].
      set (st3 := sleep env 10 (poll_update directive_id si st1)).
      set (nd := new_directive directive_id (get si "stage")
                   (get si "stage_message") (get si "message")
                   (get si "title")).
      assert (Hview : view (heap st3) ds1 = view (heap st) ds ++ [nd]).
      { unfold st3. rewrite E. simpl. unfold st1 in Hv. simpl in Hv.
        rewrite Hv. unfold poll_view. by rewrite Hex. }
      destruct (poll_loop_times_out env directive_id (clock st) 37
                  st3 ds1 r)
        as (st' & ds' & Hrun & Hclock & Hdata' & Hpub & ws & Htr & Hw).
      + done.
      + unfold st3. rewrite E. done.
      + unfold st3. rewrite E. exact Hwf1.
      + rewrite Hview, existsb_app. simpl. unfold nd.
        rewrite has_id_new_directive. by rewrite orb_true_r.
      + unfold st3. rewrite E. simpl. unfold seconds. lia.
      + exists st', ds'. split.
        { intros [|fuel] Hfuel; [lia|].
          rewrite (poll_loop_pending env directive_id (clock st) fuel st si)
            by done.
          apply Hrun. lia. }
        split; [done|]. split; [done|]. split; [done|]. split.
        { intros pre x post Hv' Hpre Hx. rewrite Hv' in Hex.
          rewrite existsb_app in Hex. simpl in Hex. rewrite Hx in Hex.
          by rewrite orb_true_r in Hex. }
        intros _. exists si. split; [done|].
        rewrite Hview in Htr.
        destruct (timed_out_view directive_id (view (heap st) ds) [] ws nd)
          as (post' & Hm & Hp); [done|apply has_id_new_directive|done|].
        rewrite Hw, Hm. inversion Hp. done.
Qed.

(** The body of the loop leaves the request log, the clock and the
    sensor alone, and keeps a collection when there is one. *)
Lemma poll_update_frame directive_id si (st : state) :
    let st' := poll_update directive_id si st in
    requests st' = requests st /\ clock st' = clock st
    /\ sleeps st' = sleeps st /\ sensor st' = sensor st
    /\ has_collection st' = has_collection st.
Proof.
    unfold poll_update, has_collection.
    destruct (data st) as [[[ds|] r]|] eqn:Hd; simpl; rewrite ?Hd; try done.
    destruct (merge_stage _ _ _ _ _ _) as [[h out] found].
    destruct found; simpl; done.
Qed.

Lemma async_get_directive_requests (env : remote) directive_id
      (st : state) :
    requests (async_get_directive env directive_id st).2
      = requests st ++ [GetDirective directive_id].
Proof.
    unfold async_get_directive. simpl.
    repeat case_match; simpl; try done.
    all: destruct (async_set_directive_state _ _ _ _); done.
Qed.

(** Updating the sensor does not change the object just made from the
    response. *)
Lemma async_set_directive_state_keeps directive_id (x : pydict) sds h :
    deref (async_set_directive_state directive_id x sds (h ++ [x])).1
          (length h) = x.
Proof.
    unfold async_set_directive_state.
    assert (Hfresh : forall y : pydict,
              deref ((h ++ [x]) ++ [y]) (length h) = x)
      by (intros y; apply deref_alloc).
    destruct (find _ sds) as [d|]; [|apply Hfresh].
    destruct (truthy (VDict (deref (h ++ [x]) d))); [|apply Hfresh].
    simpl. unfold deref.
    destruct (decide (d = length h)) as [->|Hne].
    - rewrite list_lookup_insert_eq by (rewrite length_app; simpl; lia).
      simpl. rewrite list_lookup_middle by done. simpl.
      apply map_union_idemp.
    - rewrite list_lookup_insert_ne by done.
      by rewrite list_lookup_middle.
Qed.

(** A 200 response whose ["directive"] member is a non-empty object makes
    [async_get_directive] return that object, with the messages carried
    over when the coordinator holds a collection, which then ends with
    it. *)
Lemma async_get_directive_returns (env : remote) directive_id (st : state)
      (api_response directive_data : pydict) :
    reply env (length (requests st))
      = Response 200 (Ok (VDict api_response)) ->
    get api_response "directive" = VDict directive_data ->
    truthy (VDict directive_data) = true ->
    has_collection st = true \/ (exists s, sensor st = Ok s) ->
    exists l st',
      async_get_directive env directive_id st = (Ok (Some (Object l)), st')
      /\ (forall k, k <> "messages" ->
            deref (heap st') l !! k = directive_data !! k)
      /\ (has_collection st = true ->
          exists ds' r, data st' = Some {| directives := Some ds'; rest := r |}
                        /\ last ds' = Some l
                        /\ last (snapshots st') = data st').
Proof.
    intros Hr Hget Ht Hor. unfold async_get_directive. simpl. rewrite Hr.
    simpl. rewrite Hget, Ht. simpl. unfold has_collection in *.
    destruct (data st) as [[[ds|] r]|] eqn:Hd.
    - eexists _, _. split; [done|]. simpl. split.
      + intros k Hk. rewrite <- (app_nil_r (heap st ++ _)), deref_alloc.
        by rewrite lookup_insert_ne.
      + intros _. eexists _, _. split; [done|].
        split; apply last_snoc.
    - destruct Hor as [?|[s Hs]]; [done|]. rewrite Hs.
      destruct s as [sds|].
      + pose proof (async_set_directive_state_keeps directive_id
                      directive_data sds (heap st)) as Hk.
        destruct (async_set_directive_state directive_id directive_data sds
                    (heap st ++ [directive_data])) as [h' sds'] eqn:E.
        eexists _, _. split; [done|]. simpl. split; [|done].
        intros k _. simpl in Hk. by rewrite Hk.
      + eexists _, _. split; [done|]. simpl. split; [|done].
        intros k _. f_equal. rewrite <- (app_nil_r (heap st ++ _)).
        apply deref_alloc.
    - destruct Hor as [?|[s Hs]]; [done|]. rewrite Hs.
      destruct s as [sds|].
      + pose proof (async_set_directive_state_keeps directive_id
                      directive_data sds (heap st)) as Hk.
        destruct (async_set_directive_state directive_id directive_data sds
                    (heap st ++ [directive_data])) as [h' sds'] eqn:E.
        eexists _, _. split; [done|]. simpl. split; [|done].
        intros k _. simpl in Hk. by rewrite Hk.
      + eexists _, _. split; [done|]. simpl. split; [|done].
        intros k _. f_equal. rewrite <- (app_nil_r (heap st ++ _)).
        apply deref_alloc.
Qed.

(** What sending a request and sleeping change. *)
Lemma send_frame (env : remote) (r : request) (st : state) :
    let st' := (send env r st).2 in
    requests st' = requests st ++ [r]
    /\ clock st' = clock st + Z.of_N (latency env (length (requests st)))
    /\ sleeps st' = sleeps st /\ sensor st' = sensor st
    /\ has_collection st' = has_collection st.
Proof. done. Qed.

Lemma sleep_frame (env : remote) (delay : Z) (st : state) :
    let st' := sleep env delay st in
    requests st' = requests st
    /\ clock st' = clock st + seconds delay
                   + Z.of_N (oversleep env (sleeps st))
    /\ sleeps st' = S (sleeps st) /\ sensor st' = sensor st
    /\ has_collection st' = has_collection st.
Proof. done. Qed.

(** One turn of the loop on a non-terminal stage, as a whole. *)
Lemma turn_frame (env : remote) directive_id si (st : state) :
    let st' := sleep env 10
                 (poll_update directive_id si
                    (send env (GetDirectiveStage directive_id) st).2) in
    requests st' = requests st ++ [GetDirectiveStage directive_id]
    /\ clock st' = clock st + Z.of_N (latency env (length (requests st)))
                   + seconds 10 + Z.of_N (oversleep env (sleeps st))
    /\ sleeps st' = S (sleeps st) /\ sensor st' = sensor st
    /\ has_collection st' = has_collection st.
Proof.
    intros st'.
    destruct (send_frame env (GetDirectiveStage directive_id) st)
      as (A1 & A2 & A3 & A4 & A5).
    destruct (poll_update_frame directive_id si
                (send env (GetDirectiveStage directive_id) st).2)
      as (B1 & B2 & B3 & B4 & B5).
    destruct (sleep_frame env 10
                (poll_update directive_id si
                   (send env (GetDirectiveStage directive_id) st).2))
      as (C1 & C2 & C3 & C4 & C5).
    unfold st'. rewrite C1, C2, C3, C4, C5, B1, B2, B3, B4, B5.
    rewrite A1, A2, A3, A4, A5. done.
Qed.

Lemma stage_fetches_app (st : state) (rs : list request) (st' : state) :
    requests st' = requests st ++ rs ->
    stage_fetches st'
      = (stage_fetches st + length (List.filter is_stage_fetch rs))%nat
    /\ directive_fetches st'
       = (directive_fetches st
          + length (List.filter (fun r => negb (is_stage_fetch r)) rs))%nat.
Proof.
    intros H. unfold stage_fetches, directive_fetches.
    by rewrite H, !List.filter_app, !length_app.
Qed.

(** C2, as the code has it.  When the stage fetches answer non-terminal,
    non-terminal, terminal (["completed"] or ["failed"]) and the two
    sleeps end within the 380 seconds, the poll sends exactly three stage
    fetches (the third one is what reports the terminal stage), then
    exactly one full-directive fetch, and its result is the result of
    that fetch: for both terminal stages, on a 200 response with a
    non-empty ["directive"] object, the poll returns that object and
    the collection, when there is one, ends with it and is published. *)
Theorem poll_two_pending_then_terminal (env : remote) directive_id
      (st : state) (s1 s2 s3 : pydict) :
    let n := length (requests st) in
    reply env n = Response 200 (Ok (VDict s1)) -> terminal s1 = false ->
    reply env (S n) = Response 200 (Ok (VDict s2)) -> terminal s2 = false ->
    reply env (S (S n)) = Response 200 (Ok (VDict s3)) ->
    terminal s3 = true ->
    Z.of_N (latency env n) + Z.of_N (oversleep env (sleeps st))
      + Z.of_N (latency env (S n)) + Z.of_N (oversleep env (S (sleeps st)))
      < seconds 360 ->
    exists r st',
      (forall fuel, (3 <= fuel)%nat ->
         async_poll_directive env fuel directive_id st = Some (r, st'))
      /\ requests st'
           = requests st
             ++ [GetDirectiveStage directive_id;
                 GetDirectiveStage directive_id;
                 GetDirectiveStage directive_id;
                 GetDirective directive_id]
      /\ stage_fetches st' = (stage_fetches st + 3)%nat
      /\ directive_fetches st' = (directive_fetches st + 1)%nat
      /\ (forall api_response directive_data : pydict,
            reply env (S (S (S n)))
              = Response 200 (Ok (VDict api_response)) ->
            get api_response "directive" = VDict directive_data ->
            truthy (VDict directive_data) = true ->
            has_collection st = true \/ (exists s, sensor st = Ok s) ->
            exists l,
              r = Ok (Some (Object l))
              /\ (forall k, k <> "messages" ->
                    deref (heap st') l !! k = directive_data !! k)
              /\ (has_collection st = true ->
                  exists ds' rest',
                    data st'
                      = Some {| directives := Some ds'; rest := rest' |}
                    /\ last ds' = Some l
                    /\ last (snapshots st') = data st')).
Proof.
    intros n H1 T1 H2 T2 H3 T3 Htime.
    unfold terminal in *.
    apply orb_false_iff in T1 as [C1 F1]. apply orb_false_iff in T2 as [C2 F2].
    pose proof (turn_frame env directive_id s1 st) as Hturn1.
    set (st2 := sleep env 10
                  (poll_update directive_id s1
                     (send env (GetDirectiveStage directive_id) st).2))
      in *.
    destruct Hturn1 as (R2 & K2 & S2 & Hsen2 & Hcol2).
    pose proof (turn_frame env directive_id s2 st2) as Hturn2.
    set (st4 := sleep env 10
                  (poll_update directive_id s2
                     (send env (GetDirectiveStage directive_id) st2).2))
      in *.
    destruct Hturn2 as (R4 & K4 & S4 & Hsen4 & Hcol4).
    pose proof (send_frame env (GetDirectiveStage directive_id) st4)
      as Hsend.
    set (st5 := (send env (GetDirectiveStage directive_id) st4).2) in *.
    destruct Hsend as (R5 & _ & _ & Hsen5' & Hcol5').
    assert (L2 : length (requests st2) = S n).
    { rewrite R2, length_app. simpl. unfold n. lia. }
    rewrite L2, S2 in K4.
    rewrite R2, <- app_assoc in R4. cbn [app] in R4.
    assert (L4 : length (requests st4) = S (S n)).
    { rewrite R4, length_app. simpl. unfold n. lia. }
    rewrite R4, <- app_assoc in R5. cbn [app] in R5.
    assert (L5 : length (requests st5) = S (S (S n))).
    { rewrite R5, length_app. simpl. unfold n. lia. }
    assert (Hcol5 : has_collection st5 = has_collection st)
      by (rewrite Hcol5', Hcol4; exact Hcol2).
    assert (Hsen5 : sensor st5 = sensor st)
      by (rewrite Hsen5', Hsen4; exact Hsen2).
    exists (async_get_directive env directive_id st5).1,
           (async_get_directive env directive_id st5).2.
    assert (Hreqs : requests (async_get_directive env directive_id st5).2
                    = requests st
                      ++ [GetDirectiveStage directive_id;
                          GetDirectiveStage directive_id;
                          GetDirectiveStage directive_id;
                          GetDirective directive_id]).
    { rewrite async_get_directive_requests, R5. by rewrite <- app_assoc. }
    split.
    { intros fuel Hfuel. destruct fuel as [|[|[|fuel]]]; [lia..|].
      unfold async_poll_directive.
      rewrite (poll_loop_pending env directive_id (clock st) _ st s1);
        [|apply Z.ltb_lt; unfold seconds; lia|done..].
      fold st2.
      rewrite (poll_loop_pending env directive_id (clock st) _ st2 s2);
        [|apply Z.ltb_lt; rewrite K2; fold n; unfold seconds in *; lia
         |by rewrite L2|done..].
      fold st4.
      assert (Ht : Z.ltb (clock st4 - clock st) (seconds 380) = true).
      { apply Z.ltb_lt. rewrite K4, K2. fold n. unfold seconds in *. lia. }
      cbn [poll_loop]. rewrite Ht. unfold async_get_directive_stage.
      change (send env (GetDirectiveStage directive_id) st4)
        with (reply env (length (requests st4)), st5).
      rewrite L4, H3. cbn [mbind res_bind bind as_dict].
      destruct (eq_str (get s3 "stage") "completed").
      - by destruct (async_get_directive env directive_id st5).
      - simpl in T3. rewrite T3.
        by destruct (async_get_directive env directive_id st5). }
    split; [done|].
    destruct (stage_fetches_app st _ _ Hreqs) as [Hs Hd]. simpl in Hs, Hd.
    split; [done|]. split; [done|].
    intros api dd Hr Hget Ht Hor.
    destruct (async_get_directive_returns env directive_id st5 api dd)
      as (l & st' & E & Hl & Hc).
    - by rewrite L5.
    - done.
    - done.
    - rewrite Hcol5, Hsen5. done.
    - rewrite E. simpl. exists l. split; [done|]. split; [done|].
      intros Hcol. apply Hc. by rewrite Hcol5.
Qed.

(** C2, as stated, at the sample remote that answers pending, pending,
    completed: the poll returns the directive after one full fetch, and
    it has sent three stage fetches by then, not two. *)
Lemma poll_two_pending_then_completed_three_fetches :
    (forall fuel, (3 <= fuel)%nat ->
       exists st',
         async_poll_directive samples.remote_ppc fuel "d1"
           samples.coordinator_state
           = Some (Ok (Some (coordinator.Object 3%nat)), st')
         /\ stage_fetches st' = 3%nat /\ directive_fetches st' = 1%nat)
    /\ ~ (exists fuel r st',
            async_poll_directive samples.remote_ppc fuel "d1"
              samples.coordinator_state = Some (r, st')
            /\ stage_fetches st' = 2%nat).
Proof.
    assert (H : forall fuel, (3 <= fuel)%nat ->
       exists st',
         async_poll_directive samples.remote_ppc fuel "d1"
           samples.coordinator_state
           = Some (Ok (Some (coordinator.Object 3%nat)), st')
         /\ stage_fetches st' = 3%nat /\ directive_fetches st' = 1%nat).
    { intros fuel Hfuel. destruct fuel as [|[|[|fuel]]]; [lia..|].
      eexists. split; [vm_compute; reflexivity|]. by vm_compute. }
    split; [exact H|].
    intros (fuel & r & st' & E & Hs).
    destruct (le_lt_dec 3 fuel) as [Hle|Hlt].
    - destruct (H fuel Hle) as (st'' & E' & Hs' & _).
      rewrite E in E'. injection E' as _ ->. lia.
    - destruct fuel as [|[|[|fuel]]]; [..|lia]; vm_compute in E; discriminate.
Qed.

End coordinator_facts.

Lemma sample_pending_forever : coordinator.pending_forever samples.remote_pending.
Proof. intros n. exists samples.pending_info. repeat split. Qed.

Lemma sample_well_formed :
  coordinator.well_formed (coordinator.heap samples.coordinator_state) [0%nat].
Proof.
  split; [|apply NoDup_singleton]. repeat constructor.
Qed.

Lemma poll_pending_forever_times_out_witness :
  coordinator.pending_forever samples.remote_pending
  /\ coordinator.data samples.coordinator_state
       = Some {| coordinator.directives := Some [0%nat];
                 coordinator.rest := ∅ |}
  /\ coordinator.well_formed
       (coordinator.heap samples.coordinator_state) [0%nat]
  /\ exists st' ds',
       (forall fuel, (39 <= fuel)%nat ->
          coordinator.async_poll_directive samples.remote_pending fuel "d1"
            samples.coordinator_state = Some (Ok None, st'))
       /\ coordinator.seconds 380
          <= coordinator.clock st'
             - coordinator.clock samples.coordinator_state
       /\ coordinator.view (coordinator.heap st') ds'
          = [<["id" := VStr "d0"]> (<["status" := VStr "active"]> ∅);
             <["status" := VStr "error"]>
               (<["creation_message" :=
                    VStr "Directive creation timed out after 3 minutes."]>
                  (<["creation_stage" := VStr "failed"]>
                     (<["id" := VStr "d1"]>
                        (<["creation_stage" := VStr "pending"]>
                           (<["creation_message" := VStr "working"]>
                              (<["message" := VStr "dim the hall at night"]>
                                 (<["title" := VStr "Hall"]>
                                    (<["status" := VStr "creating"]>
                                       (<["discovery" := VBool false]>
                                          ∅)))))))))].
Proof.
  split; [exact sample_pending_forever|].
  split; [reflexivity|]. split; [exact sample_well_formed|].
  destruct (poll_pending_forever_times_out samples.remote_pending "d1"
              samples.coordinator_state [0%nat] ∅
              sample_pending_forever eq_refl sample_well_formed)
    as (st' & ds' & Hrun & Hclock & _ & _ & _ & Hnew).
  destruct (Hnew eq_refl) as (stage_info & Hreply & Hview).
  injection Hreply as <-.
  exists st', ds'. split; [exact Hrun|]. split; [exact Hclock|exact Hview].
Defined.

Lemma poll_update_merges_and_publishes_witness :
  coordinator.data samples.coordinator_state
    = Some {| coordinator.directives := Some [0%nat];
              coordinator.rest := ∅ |}
  /\ coordinator.well_formed
       (coordinator.heap samples.coordinator_state) [0%nat]
  /\ exists ds',
       coordinator.data
         (coordinator.poll_update "d1" samples.pending_info
            samples.coordinator_state)
         = Some {| coordinator.directives := Some ds';
                   coordinator.rest := ∅ |}
       /\ coordinator.view
            (coordinator.heap
               (coordinator.poll_update "d1" samples.pending_info
                  samples.coordinator_state)) ds'
          = [<["id" := VStr "d0"]> (<["status" := VStr "active"]> ∅);
             <["id" := VStr "d1"]>
               (<["creation_stage" := VStr "pending"]>
                  (<["creation_message" := VStr "working"]>
                     (<["message" := VStr "dim the hall at night"]>
                        (<["title" := VStr "Hall"]>
                           (<["status" := VStr "creating"]>
                              (<["discovery" := VBool false]> ∅))))))].
Proof.
  split; [reflexivity|]. split; [exact sample_well_formed|].
  destruct (poll_update_merges_and_publishes "d1" samples.pending_info
              samples.coordinator_state [0%nat] ∅ eq_refl sample_well_formed)
    as (ds' & Hdata & _ & Hview & _).
  exists ds'. split; [exact Hdata | exact Hview].
Defined.

Lemma poll_two_pending_then_terminal_witness :
  exists r st',
    (forall fuel, (3 <= fuel)%nat ->
       coordinator.async_poll_directive samples.remote_ppc fuel "d1"
         samples.coordinator_state = Some (r, st'))
    /\ coordinator.stage_fetches st' = 3%nat
    /\ coordinator.directive_fetches st' = 1%nat.
Proof.
  destruct (poll_two_pending_then_terminal samples.remote_ppc "d1"
              samples.coordinator_state samples.pending_info
              samples.pending_info samples.completed_info
              eq_refl eq_refl eq_refl eq_refl eq_refl eq_refl eq_refl)
    as (r & st' & Hrun & _ & Hs & Hd & _).
  exists r, st'. repeat split; assumption.
Defined.

(** ** __init__.py: the scenario outcome dispatcher *)

Section dispatcher_facts.
Import direktive.
Variable hass : host.

Lemma before_dot_nonempty (s : string) :
    before_dot s <> "" -> truthy (VStr s) = true.
Proof. by destruct s. Qed.

(** C4 (a climate outcome with a temperature).  For an outcome whose
    entity id has the domain [climate], whose state is one of heat, cool,
    auto and off and whose attributes hold a temperature, the dispatcher
    invokes two service calls and no other: [climate.set_temperature]
    with the temperature of the attributes, issued first, and
    [climate.set_hvac_mode] with [hvac_mode] equal to the state; the
    second is issued once the first has returned. *)
Theorem climate_outcome_two_calls (outcome attrs : pydict)
      (entity_id new_state : string) (temperature : value)
      (st : hass_state) :
    outcome !! "entity_id" = Some (VStr entity_id) ->
    before_dot entity_id = "climate" ->
    outcome !! "state" = Some (VStr new_state) ->
    new_state ∈ ["heat"; "cool"; "auto"; "off"] ->
    outcome !! "attributes" = Some (VDict attrs) ->
    attrs !! "temperature" = Some temperature ->
    call_raises hass (calls st)
      {| call_domain := "climate";
         call_service := VStr "set_temperature";
         call_data := <["temperature" := temperature]>
                        {["entity_id" := VStr entity_id]} |} = false ->
    exists st',
      process_outcome hass (VDict outcome) st = (Ok tt, st')
      /\ calls st'
         = calls st
           ++ [{| call_domain := "climate";
                  call_service := VStr "set_temperature";
                  call_data := <["temperature" := temperature]>
                                 {["entity_id" := VStr entity_id]} |};
               {| call_domain := "climate";
                  call_service := VStr "set_hvac_mode";
                  call_data := <["hvac_mode" := VStr new_state]>
                                 {["entity_id" := VStr entity_id]} |}].
Proof.
    intros Heid Hdom Hstate Hin Hattrs Htemp Hok.
    assert (Htruthy : truthy (VStr entity_id) = true).
    { apply before_dot_nonempty. by rewrite Hdom. }
    assert (Hmode : in_strs (VStr new_state) ["heat"; "cool"; "auto"; "off"]
                    = true).
    { repeat (apply elem_of_cons in Hin as [->|Hin]; [done|]).
      by apply elem_of_nil in Hin. }
    unfold process_outcome, try_except, apply_outcome.
    assert (Ge : get outcome "entity_id" = VStr entity_id)
      by (unfold get; by rewrite Heid).
    assert (Gs : get outcome "state" = VStr new_state)
      by (unfold get; by rewrite Hstate).
    assert (Ga : get_default outcome "attributes" (VDict ∅) = VDict attrs)
      by (unfold get_default; by rewrite Hattrs).
    unfold mbind, M_bind, mret, M_ret, lift. cbn [as_dict].
    rewrite Ge, Gs, Ga.
    cbn [is_none negb orb]. rewrite Htruthy.
    cbn [negb orb as_str]. rewrite Hdom.
    cbn [String.eqb Ascii.eqb Bool.eqb]. rewrite Hmode.
    cbn [set_service contains]. rewrite Htemp.
    cbn [getitem]. rewrite Htemp.
    rewrite bool_decide_eq_true_2 by eauto.
    unfold async_call at 1. cbn [calls]. rewrite Hok.
    unfold read_service, logger. cbn [service].
    unfold async_call. cbn [calls].
    match goal with
    | |- context [call_raises hass ?cs ?c] =>
        destruct (call_raises hass cs c)
    end; eexists; (split; [reflexivity|]);
      cbn [calls]; by rewrite <- app_assoc.
Qed.

(** Whatever the [try] body does with an outcome that is a JSON object,
    the turn of the loop ends normally. *)
Lemma process_outcome_caught (o : pydict) (st : hass_state) :
    (process_outcome hass (VDict o) st).1 = Ok tt.
Proof.
    unfold process_outcome, try_except.
    destruct (apply_outcome hass (VDict o) st) as [[[]|e] st']; done.
Qed.

Lemma for_each_outcomes (outcomes : list pydict) : forall st,
    for_each (VDict <$> outcomes) (process_outcome hass) st
      = (Ok tt,
         foldl (fun s o => (process_outcome hass (VDict o) s).2) st outcomes).
Proof.
    induction outcomes as [|o os IH]; intros st; csimpl; [done|].
    unfold mbind, M_bind.
    pose proof (process_outcome_caught o st) as Hc.
    destruct (process_outcome hass (VDict o) st) as [r st'].
    simpl in Hc. subst r. apply IH.
Qed.

Lemma skipped_outcome (o : pydict) (st : hass_state) :
    truthy (get o "entity_id") = false \/ get o "state" = VNone ->
    process_outcome hass (VDict o) st
      = logger WARNING "Invalid outcome data: missing entity_id or state" st.
Proof.
    intros H. unfold process_outcome, try_except, apply_outcome.
    unfold mbind at 1. unfold M_bind at 1. unfold lift at 1.
    cbn [as_dict].
    assert (Hskip : negb (truthy (get o "entity_id"))
                    || is_none (get o "state") = true).
    { destruct H as [->| ->]; [done|]. apply orb_true_r. }
    by rewrite Hskip.
Qed.

(** Outcomes that are JSON objects are handled one by one.  An outcome
    whose [entity_id] is missing (or otherwise falsy) or whose state is
    [None] is logged and skipped: no service call is made for it.  And the
    loop over such outcomes never stops early: whatever an outcome does,
    raise included, the loop goes on with the next one from the state the
    outcome left, so that the batch is the composition of its outcomes'
    turns, each run in order. *)
Theorem outcomes_are_isolated :
    (forall (o : pydict) (st : hass_state),
       truthy (get o "entity_id") = false \/ get o "state" = VNone ->
       exists st',
         process_outcome hass (VDict o) st = (Ok tt, st')
         /\ calls st' = calls st
         /\ log st'
            = log st
              ++ [(WARNING,
                   "Invalid outcome data: missing entity_id or state")])
    /\ (forall (outcomes : list pydict) (st : hass_state),
          for_each (VDict <$> outcomes) (process_outcome hass) st
            = (Ok tt,
               foldl (fun s o => (process_outcome hass (VDict o) s).2)
                 st outcomes))
    /\ (forall (before after : list pydict) (o : pydict) (st : hass_state),
          for_each (VDict <$> (before ++ o :: after))
            (process_outcome hass) st
          = for_each (VDict <$> after) (process_outcome hass)
              (process_outcome hass (VDict o)
                 (for_each (VDict <$> before)
                    (process_outcome hass) st).2).2).
Proof.
    split; [|split].
    - intros o st H. rewrite skipped_outcome by done.
      eexists. split; [reflexivity|]. done.
    - intros outcomes st. apply for_each_outcomes.
    - intros before after o st.
      rewrite !for_each_outcomes, foldl_app. done.
Qed.

(** An outcome that is not a JSON object is beyond the [try]: the log
    call of the handler raises in its turn. *)
Lemma process_outcome_not_an_object (st : hass_state) :
    process_outcome hass VNone st = (Raised AttributeError, st).
Proof. done. Qed.

(** C5 (a failure that is not isolated).  The [try] around an outcome is
    meant to keep a failure to that outcome, but its handler reads
    [outcome.get("entity_id")] for the log.  For an outcome that is not a
    JSON object this call raises a second time, outside any [try]: the
    loop over the outcomes ends there, with nothing done and nothing
    logged, and the outcomes after it are never processed; the exception
    leaves the scenario as well. *)
Theorem non_object_outcome_aborts_batch (outcome : value)
      (rest : list value) (scenario : pydict) (st : hass_state) :
    as_dict outcome = Raised AttributeError ->
    for_each (outcome :: rest) (process_outcome hass) st
      = (Raised AttributeError, st)
    /\ (scenario !! "outcomes" = Some (VList (outcome :: rest)) ->
        exists st',
          process_scenario hass (VDict scenario) st
            = (Raised AttributeError, st')
          /\ calls st' = calls st
          /\ log st' = log st ++ [(DEBUG, "Processing scenario: %s")]).
Proof.
    intros Hnot.
    assert (Hrun : forall st0,
              for_each (outcome :: rest) (process_outcome hass) st0
                = (Raised AttributeError, st0)).
    { intros st0. cbn [for_each]. unfold mbind at 1. unfold M_bind at 1.
      unfold process_outcome, try_except, apply_outcome.
      unfold mbind, M_bind, lift. by rewrite Hnot. }
    split; [apply Hrun|].
    intros Hout. unfold process_scenario.
    unfold mbind at 1. unfold M_bind at 1. unfold lift at 1.
    cbn [as_dict]. unfold mbind at 1. unfold M_bind at 1. cbn [logger].
    unfold mbind at 1. unfold M_bind at 1. unfold lift at 1.
    cbn [getitem]. rewrite Hout. cbn [mbind res_bind bind iterate].
    rewrite Hrun. eexists. split; [reflexivity|]. done.
Qed.

Lemma frame_refl (st : hass_state) : frame st st.
Proof. done. Qed.

Lemma frame_trans (st1 st2 st3 : hass_state) :
    frame st1 st2 -> frame st2 st3 -> frame st1 st3.
Proof.
    unfold frame. intros (A1 & A2 & A3) (B1 & B2 & B3).
    repeat split; congruence.
Qed.

Lemma quiet_ret {A} (a : A) : quiet (mret a).
Proof. intros st. apply frame_refl. Qed.

Lemma quiet_lift {A} (r : res A) : quiet (lift r).
Proof. intros st. apply frame_refl. Qed.

Lemma quiet_bind {A B} (m : M A) (k : A -> M B) :
    quiet m -> (forall a, quiet (k a)) -> quiet (m ≫= k).
Proof.
    intros Hm Hk st. unfold mbind, M_bind. specialize (Hm st).
    destruct (m st) as [[a|e] st1]; simpl in *; [|done].
    eapply frame_trans; [exact Hm|apply Hk].
Qed.

Lemma quiet_try_except (body : M unit) (handler : exn -> M unit) :
    quiet body -> (forall e, quiet (handler e)) ->
    quiet (try_except body handler).
Proof.
    intros Hb Hh st. unfold try_except. specialize (Hb st).
    destruct (body st) as [[[]|e] st1]; simpl in *; [done|].
    eapply frame_trans; [exact Hb|apply Hh].
Qed.

Lemma quiet_for_each {A} (l : list A) (body : A -> M unit) :
    (forall a, quiet (body a)) -> quiet (for_each l body).
Proof.
    intros Hb. induction l as [|a l IH]; simpl; [apply quiet_ret|].
    by apply quiet_bind.
Qed.

Lemma quiet_logger lvl msg : quiet (logger lvl msg).
Proof. done. Qed.

Lemma quiet_set_service v : quiet (set_service v).
Proof. done. Qed.

Lemma quiet_read_service : quiet read_service.
Proof. intros st. unfold read_service. by destruct (service st). Qed.

Lemma quiet_async_call domain svc service_data :
    quiet (async_call hass domain svc service_data).
Proof.
    intros st. unfold async_call. by destruct (call_raises _ _ _).
Qed.

Ltac quiet_step :=
    first
      [ apply quiet_ret | apply quiet_lift | apply quiet_logger
      | apply quiet_set_service | apply quiet_read_service
      | apply quiet_async_call
      | apply quiet_bind; [|intros ?]
      | match goal with
        | |- quiet (if ?b then _ else _) => destruct b
        end ].

Lemma quiet_apply_outcome (outcome : value) :
    quiet (apply_outcome hass outcome).
Proof. unfold apply_outcome. repeat quiet_step. Qed.

Lemma quiet_process_outcome (outcome : value) :
    quiet (process_outcome hass outcome).
Proof.
    unfold process_outcome. apply quiet_try_except.
    - apply quiet_apply_outcome.
    - intros e. repeat quiet_step.
Qed.

Lemma quiet_process_scenario (scenario : value) :
    quiet (process_scenario hass scenario).
Proof.
    unfold process_scenario. repeat quiet_step.
    apply quiet_for_each, quiet_process_outcome.
Qed.

End dispatcher_facts.

(** ** __init__.py: the state-change publisher *)

Section publisher_facts.
Import direktive encryption.
Context {P : Primitives}.
Variable hass : host.
Variable self : Direktive.

Lemma quiet_handle_triggered_scenarios (scenarios : value) :
    quiet (_handle_triggered_scenarios hass self scenarios).
Proof.
    unfold _handle_triggered_scenarios.
    apply quiet_bind; [apply quiet_set_service|intros _].
    apply quiet_bind; [apply quiet_lift|intros v].
    apply quiet_bind; [apply quiet_lift|intros items].
    apply quiet_for_each, quiet_process_scenario.
Qed.

Lemma quiet_handle_response (response_data : value) :
    quiet (handle_response hass self response_data).
Proof.
    unfold handle_response.
    apply quiet_bind; [apply quiet_lift|intros [|]].
    - apply quiet_bind; [apply quiet_lift|intros v].
      apply quiet_handle_triggered_scenarios.
    - apply quiet_ret.
Qed.

(** The allow-list decides, key by key, what [safe_attributes] keeps. *)
Lemma safe_attributes_lookup (attrs : pydict) (k : string) :
    safe_attributes attrs !! k
      = if bool_decide (k ∈ ALLOWED_KEYS) then attrs !! k else None.
Proof.
    unfold safe_attributes. case_bool_decide as Hk.
    - destruct (attrs !! k) as [v|] eqn:E.
      + apply map_lookup_filter_Some. done.
      + apply map_lookup_filter_None. left. done.
    - apply map_lookup_filter_None. right. intros v _. exact Hk.
Qed.

(** A state change ends normally whatever happens, leaves the config
    entry alone, and sends at most one request, whose data is the
    encryption of the one-entity list. *)
Lemma update_remote_state_run (entity_id : string) (s : State)
      (st : hass_state) :
    exists st',
      _async_update_remote_state hass self entity_id s st = (Ok tt, st')
      /\ entry st' = entry st
      /\ (posts st' = posts st
          \/ exists ciphertext,
               encrypt_data (VList [entity_data entity_id s])
                 (_encryption_key self) (urandom hass (draws st))
                 = Ok ciphertext
               /\ posts st' = posts st ++ [single_payload (VStr ciphertext)]).
Proof.
    unfold _async_update_remote_state, try_except.
    unfold should_encrypt. unfold mbind at 1. unfold M_bind at 1.
    unfold encrypt at 1. cbn [draws].
    destruct (encrypt_data (VList [entity_data entity_id s])
                (_encryption_key self) (urandom hass (draws st)))
      as [c|e] eqn:Henc; cbn [fmap res_fmap bind].
    2: { eexists. split; [reflexivity|]. split; [done|]. by left. }
    unfold mbind at 1. unfold M_bind at 1. unfold session_post at 1.
    cbn [posts].
    destruct (post_reply hass (length (posts st))) as [|status json].
    { eexists. split; [reflexivity|]. split; [done|]. right.
      exists c. done. }
    cbn [fst snd].
    destruct (negb (Z.eqb status 200)).
    { eexists. split; [reflexivity|]. split; [done|]. right.
      exists c. done. }
    unfold mbind, M_bind, lift.
    destruct json as [response_data|e].
    2: { eexists. split; [reflexivity|]. split; [done|]. right.
         exists c. done. }
    match goal with
    | |- context [handle_response hass self response_data ?s0] =>
        pose proof (quiet_handle_response response_data s0) as Hq;
        destruct (handle_response hass self response_data s0)
          as [[[]|e] st3]
    end; destruct Hq as (He & Hp & _); simpl in He, Hp.
    - eexists. split; [reflexivity|]. split; [done|]. right.
      exists c. done.
    - eexists. split; [reflexivity|]. split; [done|]. right.
      exists c. done.
Qed.

Lemma run_bind {A B} (m : M A) (k : A -> M B) (st : hass_state) :
    (m ≫= k) st
      = match m st with
        | (Ok a, st') => k a st'
        | (Raised e, st') => (Raised e, st')
        end.
Proof. done. Qed.

Lemma quiet_after_bulk_success (response_data : value) :
    quiet (_ ← logger INFO "Initial bulk update successful and marked as performed.";
           coordinator_instance ← lift (coordinator_lookup hass);
           _ ← (if coordinator_instance : bool then
                  _ ← logger DEBUG "Requesting coordinator refresh after initial entity sync in _send_bulk_update.";
                  async_request_refresh
                else
                  logger ERROR "Coordinator instance not found in _send_bulk_update, cannot refresh.");
           handle_response hass self response_data).
Proof.
    apply quiet_bind; [apply quiet_logger|intros _].
    apply quiet_bind; [apply quiet_lift|intros c].
    apply quiet_bind; [|intros _; apply quiet_handle_response].
    destruct c; [|apply quiet_logger].
    apply quiet_bind; [apply quiet_logger|intros _]. done.
Qed.

(** The initial bulk update while the flag is unset: it ends normally;
    either the entry is left as it was and the request, if one was sent,
    did not come back as a 200 with a JSON body, or the request came back
    so and the entry now carries the flag. *)
Lemma send_bulk_update_run (st : hass_state) (entry_data : pydict) :
    entry st = Some entry_data ->
    truthy (get_default entry_data const.CONF_INITIAL_BULK_UPDATE_PERFORMED
              (VBool false)) = false ->
    let enc := encrypt_data (VList (bulk_entities hass self))
                 (_encryption_key self) (urandom hass (draws st)) in
    exists st',
      _send_bulk_update hass self st = (Ok tt, st')
      /\ ((entry st' = entry st
           /\ ((posts st' = posts st
                /\ (truthy (VList (bulk_entities hass self)) = false
                    \/ (exists e, enc = Raised e)
                    \/ (exists ciphertext,
                          enc = Ok ciphertext
                          /\ truthy (VStr ciphertext) = false)))
               \/ (exists ciphertext,
                     enc = Ok ciphertext
                     /\ posts st'
                        = posts st ++ [bulk_payload (VStr ciphertext) true]
                     /\ ~ exists response_data,
                          post_reply hass (length (posts st))
                            = Response 200 (Ok response_data))))
          \/ (exists ciphertext response_data,
                enc = Ok ciphertext
                /\ post_reply hass (length (posts st))
                   = Response 200 (Ok response_data)
                /\ posts st'
                   = posts st ++ [bulk_payload (VStr ciphertext) true]
                /\ entry st'
                   = Some (<[const.CONF_INITIAL_BULK_UPDATE_PERFORMED
                               := VBool true]> entry_data))).
Proof.
    intros Hentry Hflag enc. unfold _send_bulk_update.
    rewrite Hentry, Hflag. unfold try_except.
    rewrite run_bind. unfold logger at 1. unfold should_encrypt.
    destruct (truthy (VList (bulk_entities hass self))) eqn:Hne.
    2: { rewrite run_bind. unfold mret at 1. unfold M_ret at 1.
         rewrite Hne. eexists. split; [reflexivity|]. left. split; [done|].
         left. split; [done|]. by left. }
    rewrite run_bind. unfold encrypt at 1. cbn [draws]. fold enc.
    destruct enc as [c|e] eqn:Henc; cbn [fmap res_fmap bind].
    2: { eexists. split; [reflexivity|]. left. split; [done|].
         left. split; [done|]. right. left. by exists e. }
    destruct (truthy (VStr c)) eqn:Hc.
    2: { eexists. split; [reflexivity|]. left. split; [done|].
         left. split; [done|]. right. right. by exists c. }
    rewrite run_bind. unfold session_post at 1. cbn [posts].
    destruct (post_reply hass (length (posts st))) as [|status json] eqn:Hr.
    { eexists. split; [reflexivity|]. left. split; [done|]. right.
      exists c. split; [done|]. split; [done|]. by intros [? ?]. }
    cbn [fst snd].
    destruct (Z.eqb status 200) eqn:Hs; cbn [negb].
    2: { eexists. split; [reflexivity|]. left. split; [done|]. right.
         exists c. split; [done|]. split; [done|].
         intros [? [= -> _]]. done. }
    apply Z.eqb_eq in Hs. subst status.
    rewrite run_bind. unfold lift at 1.
    destruct json as [response_data|e].
    2: { eexists. split; [reflexivity|]. left. split; [done|]. right.
         exists c. split; [done|]. split; [done|]. by intros [? ?]. }
    rewrite run_bind. unfold async_update_entry at 1.
    cbn [entry posts calls log draws refreshes service].
    match goal with
    | |- context [mbind ?k ?m ?s0] =>
        pose proof (quiet_after_bulk_success response_data s0) as Hq;
        destruct (mbind k m s0) as [[[]|e] st3]
    end; destruct Hq as (He & Hp & _); simpl in He, Hp;
      (eexists; split; [reflexivity|]); right;
      exists c, response_data; done.
Qed.

Lemma bulk_entities_elem (e : value) :
    e ∈ bulk_entities hass self ->
    exists entity_id s,
      entity_id ∈ entity_ids self
      /\ states hass !! entity_id = Some s
      /\ e = entity_data entity_id s.
Proof.
    unfold bulk_entities. intros H.
    apply list_elem_of_omap in H as (entity_id & Hin & Hsome).
    apply elem_of_elements in Hin.
    destruct (states hass !! entity_id) as [s|] eqn:E; [|done].
    simpl in Hsome. injection Hsome as <-. eauto.
Qed.

(** C6 (published attributes follow the allow-list).  The attributes sent
    for an entity hold a key exactly when the key is one of the nine
    allowed ones and the entity has it, and then with the entity's value.
    Both publishers send nothing else about an entity: a state change
    sends at most one request, whose data is the encryption of the list
    holding that one entity's dictionary, and the initial bulk update
    sends at most one request, whose data is the encryption of the list
    of the dictionaries of the tracked entities that have a state.  The
    body of each request is written out: the ciphertext under
    [entities.data], beside [entities.encrypted], and for the bulk update
    the two flags [bulk] and [refresh]. *)
Theorem published_attributes_follow_allow_list :
    ALLOWED_KEYS
      = ["brightness"; "color_temp"; "rgb_color"; "xy_color";
         "current_position"; "current_temperature"; "temperature";
         "hvac_mode"; "preset_mode"]
    /\ (forall (entity_id : string) (s : State),
          exists safe : pydict,
            entity_data entity_id s
              = VDict (<["entity_id" := VStr entity_id]>
                         (<["state" := VStr (state s)]>
                            (<["attributes" := VDict safe]> ∅)))
            /\ (forall k v, safe !! k = Some v
                            <-> k ∈ ALLOWED_KEYS /\ attributes s !! k = Some v))
    /\ (forall (entity_id : string) (s : State) (st : hass_state),
          let st' := (_async_update_remote_state hass self entity_id s st).2 in
          posts st' = posts st
          \/ exists ciphertext,
               encrypt_data (VList [entity_data entity_id s])
                 (_encryption_key self) (urandom hass (draws st))
                 = Ok ciphertext
               /\ posts st'
                  = posts st
                    ++ [{["entities" :=
                            VDict (<["data" := VStr ciphertext]>
                                     (<["encrypted" := VBool false]> ∅))]}])
    /\ (forall st : hass_state,
          let st' := (_send_bulk_update hass self st).2 in
          posts st' = posts st
          \/ exists ciphertext,
               encrypt_data (VList (bulk_entities hass self))
                 (_encryption_key self) (urandom hass (draws st))
                 = Ok ciphertext
               /\ posts st'
                  = posts st
                    ++ [<["entities" :=
                            VDict (<["data" := VStr ciphertext]>
                                     (<["encrypted" := VBool true]> ∅))]>
                          (<["bulk" := VBool true]>
                             (<["refresh" := VBool true]> ∅))])
    /\ (forall e, e ∈ bulk_entities hass self ->
          exists entity_id s,
            entity_id ∈ entity_ids self
            /\ states hass !! entity_id = Some s
            /\ e = entity_data entity_id s)
    /\ (forall entity_id s,
          entity_id ∈ entity_ids self ->
          states hass !! entity_id = Some s ->
          entity_data entity_id s ∈ bulk_entities hass self).
Proof.
    split; [done|]. split; [|split; [|split; [|split]]].
    - intros entity_id s. exists (safe_attributes (attributes s)).
      split; [done|]. intros k v. rewrite safe_attributes_lookup.
      case_bool_decide as Hk.
      + split; [by intros ?|by intros [_ ?]].
      + split; [done|by intros [? _]].
    - intros entity_id s st.
      destruct (update_remote_state_run entity_id s st)
        as (st' & E & _ & H).
      simpl. rewrite E. exact H.
    - intros st. simpl.
      destruct (entry st) as [entry_data|] eqn:Hentry.
      + destruct (truthy (get_default entry_data
                            const.CONF_INITIAL_BULK_UPDATE_PERFORMED
                            (VBool false))) eqn:Hflag.
        * unfold _send_bulk_update. rewrite Hentry, Hflag. by left.
        * destruct (send_bulk_update_run st entry_data Hentry Hflag)
            as (st' & E & [[_ [[Hp _]|(c & Hc & Hp & _)]]
                          |(c & rd & Hc & _ & Hp & _)]);
            rewrite E; simpl; eauto.
      + unfold _send_bulk_update. rewrite Hentry. by left.
    - apply bulk_entities_elem.
    - intros entity_id s Hin Hs. unfold bulk_entities.
      apply list_elem_of_omap. exists entity_id.
      split; [by apply elem_of_elements|]. by rewrite Hs.
Qed.

(** C8 (the initial bulk update runs once).  With the flag already set,
    the operation sends nothing: no request, no refresh, no service call,
    and the entry stays as it is.  With the flag unset, the flag is set
    afterwards only if the request was sent and came back as a 200 with
    its JSON body, and it is set whenever a request so answered was sent;
    when the request is answered otherwise, by another status or by an
    exception, the entry is left as it was, flag unset, so that the next
    setup tries again. *)
Theorem bulk_update_runs_once (st : hass_state) (entry_data : pydict) :
    entry st = Some entry_data ->
    let st' := (_send_bulk_update hass self st).2 in
    (_send_bulk_update hass self st).1 = Ok tt
    /\ (bulk_update_performed st = true ->
        posts st' = posts st /\ refreshes st' = refreshes st
        /\ calls st' = calls st /\ draws st' = draws st
        /\ entry st' = entry st)
    /\ (bulk_update_performed st = false ->
        (bulk_update_performed st' = true ->
         exists ciphertext response_data,
           post_reply hass (length (posts st))
             = Response 200 (Ok response_data)
           /\ posts st' = posts st ++ [bulk_payload (VStr ciphertext) true])
        /\ (~ (exists response_data,
                 post_reply hass (length (posts st))
                   = Response 200 (Ok response_data)) ->
            entry st' = entry st /\ bulk_update_performed st' = false)
        /\ (posts st' <> posts st ->
            (exists response_data,
               post_reply hass (length (posts st))
                 = Response 200 (Ok response_data)) ->
            entry st'
              = Some (<[const.CONF_INITIAL_BULK_UPDATE_PERFORMED
                          := VBool true]> entry_data)
            /\ bulk_update_performed st' = true)).
Proof.
    intros Hentry. unfold bulk_update_performed at 1 2. rewrite Hentry.
    destruct (truthy (get_default entry_data
                        const.CONF_INITIAL_BULK_UPDATE_PERFORMED
                        (VBool false))) eqn:Hflag.
    - unfold _send_bulk_update. rewrite Hentry, Hflag. simpl.
      split; [done|]. split; [done|]. done.
    - assert (Hunset : bulk_update_performed st = false).
      { unfold bulk_update_performed. by rewrite Hentry. }
      destruct (send_bulk_update_run st entry_data Hentry Hflag)
        as (st' & E & H).
      rewrite E. simpl. split; [done|]. split; [done|]. intros _.
      destruct H as [[He Hp]|(c & rd & Hc & Hr & Hp & He)].
      + assert (Hstill : bulk_update_performed st' = false).
        { unfold bulk_update_performed in *. by rewrite He. }
        split; [intros Hset; congruence|].
        split; [intros _; split; [congruence|done]|].
        intros Hsent Hok. destruct Hp as [[Hp _]|(c & _ & _ & Hno)]; done.
      + assert (Hset : bulk_update_performed st' = true).
        { unfold bulk_update_performed. rewrite He. unfold get_default.
          by rewrite lookup_insert_eq. }
        split; [intros _; eauto|]. split; [|done].
        intros Hno. destruct Hno. eauto.
Qed.

End publisher_facts.

(** ** webhook.py *)

Section webhook_facts.
Import webhook encryption.
Context {P : Primitives}.
Variable hass : host.

Lemma eq_str_true (v : value) (s : string) :
    eq_str v s = true <-> v = VStr s.
Proof.
    destruct v; simpl; try (split; [done|intros [=]]).
    rewrite String.eqb_eq. split; [by intros ->|by intros [= ->]].
Qed.

(** Without a config entry the handler answers 500 and does nothing
    else. *)
Lemma webhook_without_entry (req : request) :
    config_entry hass = None ->
    async_handle_webhook hass req
      = (Ok {| status := INTERNAL_SERVER_ERROR;
               content := Text "Configuration not found." |}, []).
Proof. intros H. unfold async_handle_webhook. by rewrite H. Qed.

(** C9 (a wrong secret stops the request).  When the header
    [X-Webhook-Secret] is missing, or is not exactly the secret persisted
    in the config entry, the handler answers 401 and has done nothing by
    then: the body is not read, nothing is decrypted, no service is
    looked up or called.  The answer is the same for every body. *)
Theorem webhook_rejects_wrong_secret (req : request) (entry_data : pydict) :
    config_entry hass = Some entry_data ->
    (headers req !! "X-Webhook-Secret" = None
     \/ exists received,
          headers req !! "X-Webhook-Secret" = Some received
          /\ get entry_data const.CONF_WEBHOOK_SECRET <> VStr received) ->
    async_handle_webhook hass req
      = (Ok {| status := UNAUTHORIZED; content := Text "Unauthorized." |}, [])
    /\ forall body : res (list byte),
         async_handle_webhook hass
           {| headers := headers req; read := body |}
         = async_handle_webhook hass req.
Proof.
    intros Hentry Hbad.
    assert (Hreject : forall body,
      async_handle_webhook hass {| headers := headers req; read := body |}
        = (Ok {| status := UNAUTHORIZED; content := Text "Unauthorized." |},
           [])).
    { intros body. unfold async_handle_webhook. rewrite Hentry.
      cbn [headers].
      destruct Hbad as [->|(received & -> & Hne)]; simpl.
      - by rewrite orb_true_r.
      - destruct (eq_str (get entry_data const.CONF_WEBHOOK_SECRET) received)
          eqn:E; [by apply eq_str_true in E|].
        by rewrite !orb_true_r. }
    split.
    - rewrite <- (Hreject (read req)). by destruct req.
    - intros body. rewrite Hreject. rewrite <- (Hreject (read req)).
      by destruct req.
Qed.

(** An authenticated request whose body is a JSON object without a truthy
    ["encrypted_payload"] is answered 400 once the body is read, whatever
    else the object holds. *)
Lemma webhook_requires_encrypted_payload (req : request)
      (entry_data fields : pydict) (secret : string)
      (payload_bytes : list byte) :
    config_entry hass = Some entry_data ->
    get entry_data const.CONF_WEBHOOK_SECRET = VStr secret ->
    secret <> "" ->
    headers req !! "X-Webhook-Secret" = Some secret ->
    read req = Ok payload_bytes ->
    payload_bytes <> [] ->
    utf8_decode payload_bytes ≫= json_loads = Ok (VDict fields) ->
    truthy (get entry_data const.CONF_ENCRYPTION_KEY) = true ->
    truthy (get fields "encrypted_payload") = false ->
    async_handle_webhook hass req
      = (Ok {| status := BAD_REQUEST;
               content := Text "Bad Request: Missing 'encrypted_payload'." |},
         [ReadBody]).
Proof.
    intros Hentry Hsecret Hne Hhdr Hread Hbytes Hjson Hkey Hpayload.
    unfold async_handle_webhook.
    rewrite Hentry, Hsecret, Hhdr, Hread. simpl.
    assert (Hs : String.eqb secret "" = false) by by apply String.eqb_neq.
    rewrite Hs, String.eqb_refl. simpl.
    rewrite bool_decide_eq_false_2 by done.
    rewrite Hjson. unfold should_encrypt. rewrite Hkey. simpl.
    by rewrite Hpayload.
Qed.

(** A service is called only for a body that carried a truthy
    ["encrypted_payload"]: the branch that reads ["service_call"] is
    never taken. *)
Lemma webhook_calls_need_encrypted_payload (req : request)
      (domain name service_data : value) :
    ServiceCall domain name service_data ∈ (async_handle_webhook hass req).2 ->
    exists entry_data payload_bytes fields service_call_data,
      config_entry hass = Some entry_data
      /\ read req = Ok payload_bytes
      /\ utf8_decode payload_bytes ≫= json_loads = Ok (VDict fields)
      /\ truthy (get fields "encrypted_payload") = true
      /\ decrypt_payload (get fields "encrypted_payload")
           (get entry_data const.CONF_ENCRYPTION_KEY)
         = Ok service_call_data.
Proof.
    unfold async_handle_webhook, should_encrypt, respond.
    destruct (config_entry hass) as [entry_data|];
      [|intros H; by apply elem_of_nil in H].
    destruct (_ || _); [intros H; by apply elem_of_nil in H|].
    destruct (read req) as [payload_bytes|];
      [|intros H; by apply list_elem_of_singleton in H].
    destruct (bool_decide _);
      [intros H; by apply list_elem_of_singleton in H|].
    destruct (utf8_decode payload_bytes ≫= json_loads)
      as [request_data|e] eqn:Hj;
      [|destruct e; intros H; by apply list_elem_of_singleton in H].
    destruct (negb (truthy (get entry_data const.CONF_ENCRYPTION_KEY)));
      [intros H; by apply list_elem_of_singleton in H|].
    destruct request_data as [| | | | |fields]; simpl;
      try (intros H; by apply list_elem_of_singleton in H).
    destruct (truthy (get fields "encrypted_payload")) eqn:Ht; simpl;
      [|intros H; by apply list_elem_of_singleton in H].
    destruct (decrypt_payload (get fields "encrypted_payload")
                (get entry_data const.CONF_ENCRYPTION_KEY))
      as [service_call_data|e] eqn:Hd;
      [|intros H; by apply list_elem_of_singleton in H].
    intros _. by exists entry_data, payload_bytes, fields, service_call_data.
Qed.

End webhook_facts.

(** ** Encryption is always on *)

Section always_encrypted.
Import encryption.
Context {P : Primitives}.
Variable wh : webhook.host.
Variable hass : direktive.host.
Variable self : direktive.Direktive.

(** C10 (the tier no longer matters).  [should_encrypt] answers [True]
    for every subscription type.  Hence the webhook handler always takes
    the encrypted branch: an authenticated request whose JSON object has
    no truthy ["encrypted_payload"] is answered 400 whatever else it
    holds, a ["service_call"] member included, and a service is only ever
    called for a body that carried an ["encrypted_payload"] which
    decrypted.  And a state change that reaches the network sends the
    encrypted entity list as [data] together with [encrypted = False]. *)
Theorem encryption_is_always_on :
    (forall (A : Type) (subscription_type : A),
       should_encrypt subscription_type = true)
    /\ (forall (req : webhook.request) (entry_data fields : pydict)
               (secret : string) (payload_bytes : list byte),
          webhook.config_entry wh = Some entry_data ->
          get entry_data const.CONF_WEBHOOK_SECRET = VStr secret ->
          secret <> "" ->
          webhook.headers req !! "X-Webhook-Secret" = Some secret ->
          webhook.read req = Ok payload_bytes ->
          payload_bytes <> [] ->
          utf8_decode payload_bytes ≫= json_loads = Ok (VDict fields) ->
          truthy (get entry_data const.CONF_ENCRYPTION_KEY) = true ->
          truthy (get fields "encrypted_payload") = false ->
          webhook.async_handle_webhook wh req
            = (Ok {| webhook.status := webhook.BAD_REQUEST;
                     webhook.content :=
                       webhook.Text
                         "Bad Request: Missing 'encrypted_payload'." |},
               [webhook.ReadBody]))
    /\ (forall (req : webhook.request) (domain name service_data : value),
          webhook.ServiceCall domain name service_data
            ∈ (webhook.async_handle_webhook wh req).2 ->
          exists entry_data payload_bytes fields service_call_data,
            webhook.config_entry wh = Some entry_data
            /\ webhook.read req = Ok payload_bytes
            /\ utf8_decode payload_bytes ≫= json_loads = Ok (VDict fields)
            /\ truthy (get fields "encrypted_payload") = true
            /\ webhook.decrypt_payload (get fields "encrypted_payload")
                 (get entry_data const.CONF_ENCRYPTION_KEY)
               = Ok service_call_data)
    /\ (forall (entity_id : string) (s : direktive.State)
               (st : direktive.hass_state),
          let st' :=
            (direktive._async_update_remote_state hass self entity_id s st).2
          in
          direktive.posts st' = direktive.posts st
          \/ exists (ciphertext : string) (payload entities : pydict),
               direktive.posts st' = direktive.posts st ++ [payload]
               /\ encrypt_data
                    (VList [direktive.entity_data entity_id s])
                    (direktive._encryption_key self)
                    (direktive.urandom hass (direktive.draws st))
                  = Ok ciphertext
               /\ payload !! "entities" = Some (VDict entities)
               /\ entities !! "data" = Some (VStr ciphertext)
               /\ entities !! "encrypted" = Some (VBool false)).
Proof.
    split; [done|]. split; [|split].
    - intros req entry_data fields secret payload_bytes.
      apply webhook_requires_encrypted_payload.
    - apply webhook_calls_need_encrypted_payload.
    - intros entity_id s st.
      destruct (update_remote_state_run hass self entity_id s st)
        as (st' & E & _ & [H|(c & Hc & Hp)]); simpl; rewrite E; simpl.
      + by left.
      + right. eexists c, _, _. split; [exact Hp|]. split; [exact Hc|].
        unfold direktive.single_payload. rewrite lookup_singleton_eq.
        split; [done|]. by rewrite lookup_insert_eq, lookup_insert_ne.
Qed.

End always_encrypted.

(** ** The lemmas at the sample inputs *)

Lemma climate_outcome_two_calls_witness :
  before_dot "climate.hall" = "climate"
  /\ exists st',
       direktive.process_outcome samples.home (VDict samples.climate_outcome)
         (samples.hass_with ∅) = (Ok tt, st')
       /\ length (direktive.calls st') = 2%nat.
Proof.
  split; [reflexivity|].
  destruct (climate_outcome_two_calls samples.home samples.climate_outcome
              {["temperature" := VInt 21]} "climate.hall" "heat" (VInt 21)
              (samples.hass_with ∅) eq_refl eq_refl eq_refl
              ltac:(by constructor) eq_refl eq_refl eq_refl)
    as (st' & Hrun & Hcalls).
  exists st'. split; [exact Hrun|]. rewrite Hcalls. reflexivity.
Defined.

Lemma outcomes_are_isolated_witness :
  truthy (get samples.outcome_without_entity "entity_id") = false
  /\ exists st',
       direktive.process_outcome samples.home
         (VDict samples.outcome_without_entity) (samples.hass_with ∅)
         = (Ok tt, st')
       /\ direktive.calls st' = [].
Proof.
  split; [reflexivity|].
  destruct (outcomes_are_isolated samples.home) as (Hskip & _).
  destruct (Hskip samples.outcome_without_entity (samples.hass_with ∅)
              (or_introl eq_refl)) as (st' & Hrun & Hcalls & _).
  exists st'. split; [exact Hrun | exact Hcalls].
Defined.

Lemma non_object_outcome_aborts_batch_witness :
  direktive.for_each [VStr "light.kitchen"; VDict samples.light_outcome]
    (direktive.process_outcome samples.home) (samples.hass_with ∅)
    = (Raised AttributeError, samples.hass_with ∅)
  /\ length
       (direktive.calls
          (direktive.for_each [VDict samples.light_outcome]
             (direktive.process_outcome samples.home)
             (samples.hass_with ∅)).2) = 1%nat.
Proof.
  split; [|reflexivity].
  exact (proj1 (non_object_outcome_aborts_batch samples.home
                  (VStr "light.kitchen") [VDict samples.light_outcome] ∅
                  (samples.hass_with ∅) eq_refl)).
Defined.

Lemma published_attributes_follow_allow_list_witness :
  exists safe : pydict,
    direktive.entity_data "light.kitchen" samples.kitchen
      = VDict (<["entity_id" := VStr "light.kitchen"]>
                 (<["state" := VStr "on"]>
                    (<["attributes" := VDict safe]> ∅)))
    /\ (forall v, safe !! "brightness" = Some v
                  <-> "brightness" ∈ direktive.ALLOWED_KEYS
                      /\ direktive.attributes samples.kitchen !! "brightness"
                         = Some v).
Proof.
  destruct (published_attributes_follow_allow_list (P := samples.toy_primitives)
              samples.home samples.integration) as (_ & Hdata & _).
  destruct (Hdata "light.kitchen" samples.kitchen) as (safe & Heq & Hkeys).
  exists safe. split; [exact Heq|]. intros v. apply Hkeys.
Defined.

Lemma bulk_update_runs_once_witness :
  direktive.bulk_update_performed
    (samples.hass_with {["initial_bulk_update_performed" := VBool true]})
    = true
  /\ direktive.posts
       (direktive._send_bulk_update (P := samples.toy_primitives)
          samples.home samples.integration
          (samples.hass_with
             {["initial_bulk_update_performed" := VBool true]})).2 = [].
Proof.
  split; [reflexivity|].
  destruct (bulk_update_runs_once (P := samples.toy_primitives)
              samples.home samples.integration
              (samples.hass_with
                 {["initial_bulk_update_performed" := VBool true]})
              _ eq_refl) as (_ & Hset & _).
  destruct (Hset eq_refl) as (Hposts & _). exact Hposts.
Defined.

Lemma webhook_rejects_wrong_secret_witness :
  webhook.headers (samples.request_with "guess") !! "X-Webhook-Secret"
    = Some "guess"
  /\ webhook.async_handle_webhook (P := samples.toy_primitives)
       samples.webhook_host (samples.request_with "guess")
     = (Ok {| webhook.status := 401;
              webhook.content := webhook.Text "Unauthorized." |}, []).
Proof.
  split; [reflexivity|].
  refine (proj1 (webhook_rejects_wrong_secret (P := samples.toy_primitives)
                   samples.webhook_host (samples.request_with "guess")
                   _ eq_refl _)).
  right. exists "guess". split; [reflexivity|]. discriminate.
Defined.

Lemma encryption_is_always_on_witness :
  webhook.async_handle_webhook (P := samples.toy_primitives)
    samples.webhook_host (samples.request_with "s3cret")
  = (Ok {| webhook.status := 400;
           webhook.content :=
             webhook.Text "Bad Request: Missing 'encrypted_payload'." |},
     [webhook.ReadBody]).
Proof.
  destruct (encryption_is_always_on (P := samples.toy_primitives)
              samples.webhook_host samples.home samples.integration)
    as (_ & Hplain & _).
  eapply (Hplain (samples.request_with "s3cret") _ ∅ "s3cret"
            (String.list_byte_of_string "{}"));
    [reflexivity | reflexivity | discriminate | reflexivity | reflexivity
    | discriminate | reflexivity | reflexivity | reflexivity].
Defined.

(* ===================================================================== *)
(** * Part III: further properties of the code *)
(* ===================================================================== *)

(** ** encryption.py *)

Section encryption_more.
Import encryption keygen.
Context {P : Primitives}.

Lemma cipher_ok_lengths (key iv : bytes) :
  cipher_ok key iv = true
  <-> (length key = 16%nat \/ length key = 24%nat \/ length key = 32%nat)
      /\ length iv = 16%nat.
Proof.
  unfold cipher_ok. rewrite andb_true_iff, !orb_true_iff, !Nat.eqb_eq.
  tauto.
Qed.

(** X1 (what [decrypt_data] accepts).  [decrypt_data] returns a value only
    for a base64 string that decodes to a 16-byte IV followed by at least
    one whole 16-byte block and nothing else, under a key that decodes to
    16, 24 or 32 bytes; on everything else it raises. *)
Theorem decrypt_data_accepts_whole_blocks (encrypted_data : string)
    (encryption_key : option string) (v : value) :
  decrypt_data encrypted_data encryption_key = Ok v ->
  exists encrypted_bytes key : bytes,
    b64decode encrypted_data = Ok encrypted_bytes
    /\ decode_key encryption_key = Ok key
    /\ (length key = 16%nat \/ length key = 24%nat \/ length key = 32%nat)
    /\ (32 <= length encrypted_bytes)%nat
    /\ (length encrypted_bytes mod 16 = 0)%nat.
Proof.
  unfold decrypt_data. intros H.
  destruct (b64decode encrypted_data) as [bs|] eqn:Hb; [|done].
  cbn [mbind res_bind bind] in H.
  destruct (decode_key encryption_key) as [key|] eqn:Hk; [|done].
  cbn [mbind res_bind bind] in H.
  destruct (cipher_ok key (take 16 bs)) eqn:Hok; [|done].
  apply cipher_ok_lengths in Hok as [Hklen Hiv].
  unfold cipher_decrypt in H.
  destruct (Nat.eqb (length (drop 16 bs) mod 16) 0) eqn:Hm; [|done].
  apply Nat.eqb_eq in Hm. cbn [mbind res_bind bind] in H.
  set (n := (length (drop 16 bs) / 16)%nat) in *.
  assert (Hlen : length (drop 16 bs) = (16 * n)%nat).
  { pose proof (Nat.div_mod_eq (length (drop 16 bs)) 16). lia. }
  rewrite length_take in Hiv. rewrite length_drop in Hlen, Hm.
  exists bs, key. split; [done|]. split; [done|]. split; [done|].
  destruct n as [|n].
  - simpl in H. done.
  - split; [lia|].
    replace (length bs) with (16 * S (S n))%nat by lia.
    rewrite Nat.mul_comm. apply Nat.Div0.mod_mul.
Qed.

(** X2 (when [encrypt_data] succeeds).  Whatever the data, [encrypt_data]
    returns a ciphertext exactly when the key is set and decodes to 16, 24
    or 32 bytes (and the IV drawn has its 16 bytes); with an unset key it
    raises [TypeError].  The 32 bytes of [ENCRYPTION_KEY_LENGTH] are what
    the generator produces, not something the function insists on. *)
Theorem encrypt_data_succeeds_iff (data : value)
    (encryption_key : option string) (iv : bytes) :
  ((exists s, encrypt_data data encryption_key iv = Ok s)
   <-> exists key,
         decode_key encryption_key = Ok key
         /\ (length key = 16%nat \/ length key = 24%nat
             \/ length key = 32%nat)
         /\ length iv = 16%nat)
  /\ encrypt_data data None iv = Raised TypeError.
Proof.
  split; [|done]. unfold encrypt_data, encrypt_raw. split.
  - intros [s H].
    destruct (decode_key encryption_key) as [key|] eqn:Hk; [|done].
    cbn [mbind res_bind bind] in H.
    destruct (cipher_ok key iv) eqn:Hok; [|done].
    apply cipher_ok_lengths in Hok. exists key. tauto.
  - intros (key & Hk & Hok). apply cipher_ok_lengths in Hok.
    rewrite Hk. cbn [mbind res_bind bind]. rewrite Hok.
    unfold cipher_encrypt. rewrite pkcs7_pad_blocks, Nat.eqb_refl.
    cbn [mbind res_bind bind]. eauto.
Qed.

Lemma round_trip_accepted_key {L : PrimitiveLaws P} (X : value)
    (encryption_key : string) (key iv : bytes) :
  json_serializable X ->
  b64decode encryption_key = Ok key ->
  cipher_ok key iv = true ->
  exists s,
    encrypt_data X (Some encryption_key) iv = Ok s
    /\ decrypt_data s (Some encryption_key) = Ok X.
Proof.
  intros HX Hkey Hok.
  pose proof (proj1 (cipher_ok_lengths key iv) Hok) as [_ Hiv].
  destruct (cipher_decrypt_encrypt key iv
              (pkcs7_pad (utf8_encode (json_dumps X))) Hiv
              (pkcs7_pad_blocks _)) as (ct & Henc & Hlen & Hdec).
  exists (b64encode (iv ++ ct)). split.
  - unfold encrypt_data, encrypt_raw. simpl. rewrite Hkey. simpl.
    rewrite Hok, Henc. done.
  - unfold decrypt_data. rewrite b64_roundtrip. simpl. rewrite Hkey. simpl.
    assert (Htk : take 16 (iv ++ ct) = iv).
    { rewrite <- Hiv. apply take_app_length. }
    assert (Hdr : drop 16 (iv ++ ct) = ct).
    { rewrite <- Hiv. apply drop_app_length. }
    rewrite Htk, Hdr, Hok, Hdec. simpl.
    rewrite pkcs7_unpad_pad. simpl. rewrite utf8_roundtrip. simpl.
    exact HX.
Qed.

(** X3 (a generated key works).  A key made by [generate_encryption_key]
    from its 32 random bytes is accepted by [encrypt_data], and
    [decrypt_data] under the same key gives the data back. *)
Theorem generated_key_round_trips {L : PrimitiveLaws P} (X : value)
    (random_bytes iv : bytes) :
  length random_bytes = const.ENCRYPTION_KEY_LENGTH ->
  length iv = 16%nat ->
  json_serializable X ->
  let encryption_key := generate_encryption_key random_bytes in
  exists s,
    encrypt_data X (Some encryption_key) iv = Ok s
    /\ decrypt_data s (Some encryption_key) = Ok X.
Proof.
  intros Hrnd Hiv HX. simpl.
  apply (round_trip_accepted_key X _ random_bytes iv HX).
  - unfold generate_encryption_key. apply b64_roundtrip.
  - apply cipher_ok_lengths. rewrite Hrnd. unfold const.ENCRYPTION_KEY_LENGTH.
    tauto.
Qed.

End encryption_more.

Lemma decrypt_data_accepts_whole_blocks_witness :
  encryption.decrypt_data (P := samples.toy_primitives)
    keygen.sample_ciphertext (Some samples.key32) = Ok (VBool true)
  /\ exists encrypted_bytes : list byte,
       encryption.b64decode (Primitives := samples.toy_primitives)
         keygen.sample_ciphertext = Ok encrypted_bytes
       /\ (32 <= length encrypted_bytes)%nat.
Proof.
  split; [vm_compute; reflexivity|].
  destruct (decrypt_data_accepts_whole_blocks (P := samples.toy_primitives)
              keygen.sample_ciphertext (Some samples.key32) (VBool true))
    as (bs & key & Hb & _ & _ & Hlen & _); [vm_compute; reflexivity|].
  exists bs. split; [exact Hb | exact Hlen].
Defined.

Lemma generated_key_round_trips_witness :
  exists s,
    encryption.encrypt_data (P := samples.toy_primitives) (VBool true)
      (Some (keygen.generate_encryption_key
               (String.list_byte_of_string samples.key32)))
      samples.iv16 = Ok s
    /\ encryption.decrypt_data s
         (Some (keygen.generate_encryption_key
                  (String.list_byte_of_string samples.key32)))
       = Ok (VBool true).
Proof.
  exact (generated_key_round_trips (L := toy_primitives_laws) (VBool true)
           (String.list_byte_of_string samples.key32) samples.iv16
           eq_refl eq_refl eq_refl).
Defined.

(** ** __init__.py: the other branches of the dispatcher *)

Section dispatcher_more.
Import direktive dispatch_logic.
Variable hass : host.

Lemma copy_attribute_dict (attrs : pydict) (k : string) (sd : pydict) :
  copy_attribute (VDict attrs) k sd = Ok (copy_key attrs sd k).
Proof.
  unfold copy_attribute, copy_key. simpl.
  by destruct (attrs !! k) as [v|].
Qed.

Lemma copy_keys_lookup (attrs : pydict) (ks : list string) :
  forall (sd : pydict) (j : string),
    copy_keys attrs ks sd !! j
      = if bool_decide (j ∈ ks)
        then match attrs !! j with
             | Some v => Some v
             | None => sd !! j
             end
        else sd !! j.
Proof.
  unfold copy_keys. induction ks as [|k ks IH]; intros sd j; simpl.
  - done.
  - rewrite IH. unfold copy_key.
    destruct (decide (j = k)) as [->|Hne].
    + rewrite (bool_decide_eq_true_2 (k ∈ k :: ks)) by by left.
      destruct (attrs !! k) as [v|] eqn:E.
      * rewrite lookup_insert_eq. by case_bool_decide.
      * by case_bool_decide.
    + assert (Hiff : j ∈ k :: ks <-> j ∈ ks).
      { rewrite elem_of_cons. split; [by intros [?|?]|by right]. }
      rewrite (bool_decide_ext _ _ Hiff).
      destruct (attrs !! k) as [v|]; [|done].
      by rewrite lookup_insert_ne.
Qed.

(** What the handler of one outcome does once [service] and
    [service_data] are settled: the call is logged and made, and the turn
    ends normally whether the call raises or not. *)
Lemma call_and_finish (domain : string) (svc : value) (sd : pydict)
    (st : hass_state) :
  service st = Some svc ->
  exists st',
    try_except
      (svc ← read_service;
       _ ← logger DEBUG "Calling service %s.%s with data: %s";
       _ ← async_call hass domain svc sd;
       logger INFO
         "Successfully updated %s to state: %s with attributes: %s")
      (fun _ =>
         logger ERROR "Error executing scenario outcome for entity %s: %s")
      st = (Ok tt, st')
    /\ calls st'
       = calls st
         ++ [{| call_domain := domain; call_service := svc;
                call_data := sd |}]
    /\ service st' = Some svc.
Proof.
  intros Hs. unfold try_except, mbind, M_bind, read_service. rewrite Hs.
  unfold logger, async_call. cbn [calls].
  destruct (call_raises hass (calls st) _);
    eexists; (split; [reflexivity|]); done.
Qed.

(** The values every branch starts from. *)
Lemma outcome_fields (o : pydict) (entity_id : string) :
  get o "entity_id" = VStr entity_id -> entity_id <> "" ->
  get o "state" <> VNone ->
  negb (truthy (get o "entity_id")) || is_none (get o "state") = false.
Proof.
  intros -> Hne Hs. simpl.
  destruct (String.eqb_spec entity_id ""); [done|]. simpl.
  by destruct (get o "state").
Qed.

(** X4 (a light switched on).  For a light outcome with state ["on"] the
    dispatcher makes one call, [light.turn_on], whose data holds the entity
    id and, of the attributes of the outcome, exactly those among
    brightness, color_temp, rgb_color and xy_color that are present: every
    other attribute is dropped. *)
Theorem light_on_copies_light_attributes (o attrs : pydict)
    (entity_id : string) (st : hass_state) :
  get o "entity_id" = VStr entity_id ->
  before_dot entity_id = "light" ->
  get o "state" = VStr "on" ->
  get_default o "attributes" (VDict ∅) = VDict attrs ->
  exists st' service_data,
    process_outcome hass (VDict o) st = (Ok tt, st')
    /\ calls st'
       = calls st
         ++ [{| call_domain := "light"; call_service := VStr "turn_on";
                call_data := service_data |}]
    /\ service_data !! "entity_id" = Some (VStr entity_id)
    /\ (forall k, k ∈ ["brightness"; "color_temp"; "rgb_color"; "xy_color"] ->
          service_data !! k = attrs !! k)
    /\ (forall k, k <> "entity_id" ->
          k ∉ ["brightness"; "color_temp"; "rgb_color"; "xy_color"] ->
          service_data !! k = None).
Proof.
  intros Ge Hdom Gs Ga.
  assert (Hne : entity_id <> "") by (intros ->; done).
  exists (process_outcome hass (VDict o) st).2,
         (copy_keys attrs
            ["brightness"; "color_temp"; "rgb_color"; "xy_color"]
            {["entity_id" := VStr entity_id]}).
  split; [|split; [|split; [|split]]].
  3: { rewrite copy_keys_lookup.
       rewrite bool_decide_eq_false_2; [done|].
       intros H. repeat (apply elem_of_cons in H as [H|H]; [done|]).
       by apply elem_of_nil in H. }
  3: { intros k Hk. rewrite copy_keys_lookup, bool_decide_eq_true_2 by done.
       destruct (attrs !! k) eqn:E; [done|].
       rewrite lookup_singleton_ne; [done|].
       intros <-. repeat (apply elem_of_cons in Hk as [Hk|Hk]; [done|]).
       by apply elem_of_nil in Hk. }
  3: { intros k Hk Hnot.
       rewrite copy_keys_lookup, bool_decide_eq_false_2 by done.
       by rewrite lookup_singleton_ne. }
  all: unfold process_outcome, try_except, apply_outcome;
    unfold mbind, M_bind, mret, M_ret, lift; cbn [as_dict];
    rewrite (outcome_fields o entity_id) by (done || by rewrite Gs);
    rewrite Ge, Gs, Ga; cbn [as_str]; rewrite Hdom;
    cbn [String.eqb Ascii.eqb Bool.eqb eq_str set_service];
    rewrite !copy_attribute_dict;
    unfold read_service, logger, async_call; cbn [service calls];
    match goal with
    | |- context [call_raises hass ?cs ?c] => destruct (call_raises hass cs c)
    end; reflexivity.
Qed.

Ltac enter_outcome o entity_id Ge Gs :=
  unfold process_outcome, try_except, apply_outcome;
  unfold mbind, M_bind, mret, M_ret, lift; cbn [as_dict];
  rewrite (outcome_fields o entity_id) by (done || by rewrite Gs);
  rewrite ?Ge, ?Gs; cbn [as_str].

Ltac leave_outcome :=
  unfold read_service, logger, async_call; cbn [service calls];
  match goal with
  | |- context [call_raises hass ?cs ?c] => destruct (call_raises hass cs c)
  end; eexists; (split; [reflexivity|]); done.

Lemma not_elem_eqb (x : string) (l : list string) (y : string) :
  x ∉ l -> y ∈ l -> String.eqb x y = false.
Proof. intros Hx Hy. apply String.eqb_neq. by intros ->. Qed.

(** X5 (on/off domains).  For a switch, for any domain the dispatcher has
    no branch for, and for a light whose state is not ["on"], one call is
    made: [turn_on] when the state is ["on"], [turn_off] for every other
    state, with the entity id as the only data; the attributes of the
    outcome play no part, whatever they are. *)
Theorem on_off_domains_ignore_attributes (o : pydict) (entity_id : string)
    (new_state : value) (st : hass_state) :
  get o "entity_id" = VStr entity_id ->
  entity_id <> "" ->
  get o "state" = new_state ->
  new_state <> VNone ->
  before_dot entity_id
    ∉ ["light"; "alarm_control_panel"; "cover"; "climate"; "number"]
  \/ (before_dot entity_id = "light" /\ eq_str new_state "on" = false) ->
  exists st',
    process_outcome hass (VDict o) st = (Ok tt, st')
    /\ calls st'
       = calls st
         ++ [{| call_domain := before_dot entity_id;
                call_service :=
                  VStr (if eq_str new_state "on"
                        then "turn_on" else "turn_off");
                call_data := {["entity_id" := VStr entity_id]} |}].
Proof.
  intros Ge Hne Gs Hsome Hdom.
  enter_outcome o entity_id Ge Gs.
  destruct Hdom as [Hnot|[Hlight Hoff]].
  - rewrite (not_elem_eqb _ _ "light" Hnot),
      (not_elem_eqb _ _ "alarm_control_panel" Hnot),
      (not_elem_eqb _ _ "cover" Hnot), (not_elem_eqb _ _ "climate" Hnot),
      (not_elem_eqb _ _ "number" Hnot)
      by (repeat (first [by apply list_elem_of_here
                        |apply list_elem_of_further])).
    destruct (String.eqb (before_dot entity_id) "switch");
      cbn [set_service]; leave_outcome.
  - rewrite Hlight, Hoff. cbn [String.eqb Ascii.eqb Bool.eqb set_service].
    leave_outcome.
Qed.

(** X6 (covers).  For a cover outcome whose attributes hold a position, one
    call is made, [cover.set_cover_position] with that position, whatever
    the state says; without a position the states open, closed and stop
    give [open_cover], [close_cover] and [stop_cover] with the entity id
    alone. *)
Theorem cover_position_overrides_state (o attrs : pydict)
    (entity_id : string) (new_state : value) (st : hass_state) :
  get o "entity_id" = VStr entity_id ->
  before_dot entity_id = "cover" ->
  get o "state" = new_state ->
  new_state <> VNone ->
  get_default o "attributes" (VDict ∅) = VDict attrs ->
  (forall position,
     attrs !! "position" = Some position ->
     exists st',
       process_outcome hass (VDict o) st = (Ok tt, st')
       /\ calls st'
          = calls st
            ++ [{| call_domain := "cover";
                   call_service := VStr "set_cover_position";
                   call_data := <["position" := position]>
                                  {["entity_id" := VStr entity_id]} |}])
  /\ (attrs !! "position" = None ->
      forall word svc,
        (word, svc) ∈ [("open", "open_cover"); ("closed", "close_cover");
                       ("stop", "stop_cover")] ->
        new_state = VStr word ->
        exists st',
          process_outcome hass (VDict o) st = (Ok tt, st')
          /\ calls st'
             = calls st
               ++ [{| call_domain := "cover"; call_service := VStr svc;
                      call_data := {["entity_id" := VStr entity_id]} |}]).
Proof.
  intros Ge Hdom Gs Hsome Ga.
  assert (Hne : entity_id <> "") by (intros ->; done).
  split.
  - intros position Hpos. enter_outcome o entity_id Ge Gs.
    rewrite Hdom, Ga. cbn [String.eqb Ascii.eqb Bool.eqb contains getitem].
    rewrite Hpos. rewrite bool_decide_eq_true_2 by eauto.
    destruct (eq_str new_state "open");
      [|destruct (eq_str new_state "closed");
        [|destruct (eq_str new_state "stop")]];
      cbn [set_service]; leave_outcome.
  - intros Hpos word svc Hin ->. enter_outcome o entity_id Ge Gs.
    rewrite Hdom, Ga. cbn [String.eqb Ascii.eqb Bool.eqb contains getitem].
    rewrite Hpos. rewrite bool_decide_eq_false_2 by (by intros [? ?]).
    repeat (apply elem_of_cons in Hin as [[= -> ->]|Hin];
            [cbn [eq_str String.eqb Ascii.eqb Bool.eqb set_service];
             leave_outcome|]).
    by apply elem_of_nil in Hin.
Qed.

(** X7 (numbers).  For a number outcome one call is made, [number.set_value],
    whose value is the state of the outcome as it came; the attributes play
    no part. *)
Theorem number_outcome_sets_value (o : pydict) (entity_id : string)
    (new_state : value) (st : hass_state) :
  get o "entity_id" = VStr entity_id ->
  before_dot entity_id = "number" ->
  get o "state" = new_state ->
  new_state <> VNone ->
  exists st',
    process_outcome hass (VDict o) st = (Ok tt, st')
    /\ calls st'
       = calls st
         ++ [{| call_domain := "number"; call_service := VStr "set_value";
                call_data := <["value" := new_state]>
                               {["entity_id" := VStr entity_id]} |}].
Proof.
  intros Ge Hdom Gs Hsome.
  assert (Hne : entity_id <> "") by (intros ->; done).
  enter_outcome o entity_id Ge Gs. rewrite Hdom.
  cbn [String.eqb Ascii.eqb Bool.eqb set_service]. leave_outcome.
Qed.

(** X8 (an alarm panel state the dispatcher does not know).  For an alarm
    panel outcome whose state is none of armed_home, armed_away,
    armed_night and disarmed, no service is chosen.  While the variable
    [service] is still unbound, reading it raises: no call is made and the
    error is logged.  Once an earlier outcome of the batch has bound it,
    the service chosen for that earlier outcome is called on the alarm
    panel. *)
Theorem alarm_unknown_state_reuses_service (o : pydict)
    (entity_id : string) (new_state : value) (st : hass_state) :
  get o "entity_id" = VStr entity_id ->
  before_dot entity_id = "alarm_control_panel" ->
  get o "state" = new_state ->
  new_state <> VNone ->
  in_strs new_state ["armed_home"; "armed_away"; "armed_night"; "disarmed"]
    = false ->
  (service st = None ->
   exists st',
     process_outcome hass (VDict o) st = (Ok tt, st')
     /\ calls st' = calls st
     /\ log st'
        = log st
          ++ [(ERROR, "Error executing scenario outcome for entity %s: %s")])
  /\ (forall stale,
        service st = Some stale ->
        exists st',
          process_outcome hass (VDict o) st = (Ok tt, st')
          /\ calls st'
             = calls st
               ++ [{| call_domain := "alarm_control_panel";
                      call_service := stale;
                      call_data := {["entity_id" := VStr entity_id]} |}]).
Proof.
  intros Ge Hdom Gs Hsome Hunknown.
  assert (Hne : entity_id <> "") by (intros ->; done).
  split.
  - intros Hunbound. enter_outcome o entity_id Ge Gs. rewrite Hdom, Hunknown.
    cbn [String.eqb Ascii.eqb Bool.eqb]. unfold read_service.
    rewrite Hunbound. unfold logger. eexists. split; [reflexivity|]. done.
  - intros stale Hstale. enter_outcome o entity_id Ge Gs.
    rewrite Hdom, Hunknown. cbn [String.eqb Ascii.eqb Bool.eqb].
    unfold read_service. rewrite Hstale.
    unfold logger, async_call. cbn [service calls].
    match goal with
    | |- context [call_raises hass ?cs ?c] => destruct (call_raises hass cs c)
    end; eexists; (split; [reflexivity|]); done.
Qed.

(** *** A small program logic for the calls *)

Section only_calls_rules.
Variable Q : service_call -> Prop.

Lemma calls_between_refl (st st' : hass_state) :
  calls st' = calls st -> calls_between Q st st'.
Proof. intros H. exists []. by rewrite app_nil_r. Qed.

Lemma calls_between_trans (st1 st2 st3 : hass_state) :
  calls_between Q st1 st2 -> calls_between Q st2 st3 ->
  calls_between Q st1 st3.
Proof.
  intros (n1 & E1 & F1) (n2 & E2 & F2). exists (n1 ++ n2).
  split; [by rewrite E2, E1, app_assoc|by apply Forall_app].
Qed.

Lemma oc_ret {A} (R : A -> Prop) (a : A) : R a -> only_calls Q R (mret a).
Proof.
  intros Ha st. split; [by apply calls_between_refl|].
  by intros b [= <-].
Qed.

Lemma oc_lift {A} (R : A -> Prop) (r : res A) :
  (forall a, r = Ok a -> R a) -> only_calls Q R (lift r).
Proof. intros Hr st. split; [by apply calls_between_refl|]. exact Hr. Qed.

Lemma oc_bind {A B} (R1 : A -> Prop) (R : B -> Prop) (m : M A)
    (k : A -> M B) :
  only_calls Q R1 m -> (forall a, R1 a -> only_calls Q R (k a)) ->
  only_calls Q R (m ≫= k).
Proof.
  intros Hm Hk st. unfold mbind, M_bind. destruct (Hm st) as [Hc Hr].
  destruct (m st) as [[a|e] st1]; simpl in *; [|by split].
  destruct (Hk a (Hr a eq_refl) st1) as [Hc' Hr'].
  split; [by eapply calls_between_trans|done].
Qed.

Lemma oc_weaken {A} (R1 R : A -> Prop) (m : M A) :
  only_calls Q R1 m -> (forall a, R1 a -> R a) -> only_calls Q R m.
Proof.
  intros Hm HR st. destruct (Hm st) as [Hc Hr]. split; [done|].
  intros a Ha. by apply HR, Hr.
Qed.

Lemma oc_logger (R : unit -> Prop) lvl msg :
  R tt -> only_calls Q R (logger lvl msg).
Proof.
  intros HR st. split; [by apply calls_between_refl|]. by intros [] _.
Qed.

Lemma oc_set_service (R : unit -> Prop) v :
  R tt -> only_calls Q R (set_service v).
Proof.
  intros HR st. split; [by apply calls_between_refl|]. by intros [] _.
Qed.

Lemma oc_read_service : only_calls Q (fun _ => True) read_service.
Proof.
  intros st. unfold read_service.
  destruct (service st); (split; [by apply calls_between_refl|done]).
Qed.

Lemma oc_async_call (R : unit -> Prop) domain svc sd :
  Q {| call_domain := domain; call_service := svc; call_data := sd |} ->
  R tt -> only_calls Q R (async_call hass domain svc sd).
Proof.
  intros HQ HR st. unfold async_call.
  assert (Hc : forall st',
            calls st' = calls st ++ [{| call_domain := domain;
                                        call_service := svc;
                                        call_data := sd |}] ->
            calls_between Q st st').
  { intros st' E. eexists. split; [exact E|]. by constructor. }
  destruct (call_raises hass _ _); simpl;
    (split; [by apply Hc|]); [done|by intros [] _].
Qed.

Lemma oc_try_except (R : unit -> Prop) (body : M unit)
    (handler : exn -> M unit) :
  only_calls Q (fun _ => True) body ->
  (forall e, only_calls Q R (handler e)) -> R tt ->
  only_calls Q R (try_except body handler).
Proof.
  intros Hb Hh HR st. unfold try_except. destruct (Hb st) as [Hc _].
  destruct (body st) as [[[]|e] st1]; simpl in *.
  - split; [done|]. by intros [] _.
  - destruct (Hh e st1) as [Hc' Hr']. split; [|done].
    by eapply calls_between_trans.
Qed.

Lemma oc_for_each {A} (l : list A) (body : A -> M unit) :
  (forall a, only_calls Q (fun _ => True) (body a)) ->
  only_calls Q (fun _ => True) (for_each l body).
Proof.
  intros Hb. induction l as [|a l IH]; simpl; [by apply oc_ret|].
  eapply oc_bind; [apply Hb|]. intros _ _. exact IH.
Qed.

End only_calls_rules.

Lemma copy_attribute_keeps (attrs : value) (k j : string) (sd a : pydict)
    (x : option value) :
  copy_attribute attrs k sd = Ok a -> k <> j -> sd !! j = x -> a !! j = x.
Proof.
  unfold copy_attribute. intros H Hk Hx.
  destruct (contains attrs k) as [[|]|]; simpl in H; try done.
  - destruct (getitem attrs k); simpl in H; [|done].
    injection H as <-. by rewrite lookup_insert_ne.
  - by injection H as <-.
Qed.

Ltac oc_side :=
  cbv beta;
  first [ done
        | by rewrite ?lookup_insert_ne, ?lookup_singleton_eq by done ].

Ltac oc_go HT :=
  cbv zeta;
  lazymatch goal with
  | |- only_calls _ _ (if ?b then _ else _) => destruct b; oc_go HT
  | |- only_calls _ _ read_service => apply oc_read_service; oc_side
  | |- only_calls _ _ (mret _) => apply oc_ret; oc_side
  | |- only_calls _ _ (set_service _) => apply oc_set_service; oc_side
  | |- only_calls _ _ (logger _ _) => apply oc_logger; oc_side
  | |- only_calls _ _ (async_call _ _ _ _) =>
      apply oc_async_call; [apply HT; oc_side | oc_side]
  | |- only_calls _ _ (lift (copy_attribute _ _ _)) =>
      apply oc_lift; intros ? ?;
      eapply copy_attribute_keeps; [eassumption | done | oc_side]
  | |- only_calls _ _ (lift _) => apply oc_lift; intros; oc_side
  | |- only_calls _ ?R (mbind _ ?m) =>
      let T := type of m in
      lazymatch T with
      | M (gmap string value) =>
          apply (oc_bind _ R R); [oc_go HT | intros ? ?; oc_go HT]
      | _ =>
          apply (oc_bind _ (fun _ => True) R);
          [oc_go HT | intros ? _; oc_go HT]
      end
  end.

Lemma oc_apply_outcome (outcome : value) :
  only_calls (targets outcome) (fun _ => True) (apply_outcome hass outcome).
Proof.
  unfold apply_outcome.
  apply (oc_bind _ (fun o => outcome = VDict o)).
  { apply oc_lift. intros a. destruct outcome; try done. by intros [= ->]. }
  intros o ->.
  destruct (negb (truthy (get o "entity_id")) || is_none (get o "state"))
    eqn:Hskip; [by apply oc_logger|].
  apply orb_false_iff in Hskip as [Ht Hs]. apply negb_false_iff in Ht.
  apply (oc_bind _ (fun eid => get o "entity_id" = VStr eid)).
  { apply oc_lift. intros a. destruct (get o "entity_id"); try done.
    by intros [= ->]. }
  intros eid Ge. rewrite Ge in *.
  assert (Hne : eid <> "") by (intros ->; done).
  assert (Hst : get o "state" <> VNone) by (intros E; by rewrite E in Hs).
  assert (HT : forall svc (sd : pydict),
            sd !! "entity_id" = Some (VStr eid) ->
            targets (VDict o)
              {| call_domain := before_dot eid; call_service := svc;
                 call_data := sd |}).
  { intros svc sd Hsd. exists o, eid. done. }
  apply (oc_bind _ (fun sd : pydict => sd !! "entity_id" = Some (VStr eid))).
  - oc_go HT.
  - intros sd Hsd. oc_go HT.
Qed.

Lemma oc_process_outcome (outcome : value) :
  only_calls (targets outcome) (fun _ => True) (process_outcome hass outcome).
Proof.
  unfold process_outcome.
  apply (oc_try_except (targets outcome)); [apply oc_apply_outcome| |done].
  intros e. apply (oc_bind _ (fun _ => True)); [by apply oc_lift|].
  intros _ _. by apply oc_logger.
Qed.

Lemma oc_calls_weaken {A} (Q Q' : service_call -> Prop) (R : A -> Prop)
    (m : M A) :
  only_calls Q R m -> (forall c, Q c -> Q' c) -> only_calls Q' R m.
Proof.
  intros Hm HQ st. destruct (Hm st) as [(new & Hc & Hn) Hr].
  split; [|done]. exists new. split; [done|]. by eapply Forall_impl.
Qed.

Variable self : Direktive.
Context {P : encryption.Primitives}.

Lemma oc_for_each_elem {A} (Q : A -> service_call -> Prop) (l : list A)
    (body : A -> M unit) :
  (forall a, a ∈ l -> only_calls (Q a) (fun _ => True) (body a)) ->
  only_calls (fun c => exists a, a ∈ l /\ Q a c) (fun _ => True)
    (for_each l body).
Proof.
  induction l as [|a l IH]; intros Hb; simpl; [by apply oc_ret|].
  apply (oc_bind _ (fun _ => True)).
  - eapply oc_calls_weaken; [apply (Hb a), list_elem_of_here|].
    intros c Hc. exists a. split; [apply list_elem_of_here|done].
  - intros _ _. eapply oc_calls_weaken.
    + apply IH. intros a' Ha'. apply Hb. by apply list_elem_of_further.
    + intros c (a' & Ha' & Hc). exists a'.
      split; [by apply list_elem_of_further|done].
Qed.

(** X9 (calls go to the entity of an outcome received).  Each service call
    the dispatcher makes is made for one of the outcomes it was sent: the
    scenarios came as a string that decrypts under the key of the
    integration, the outcome is an outcome of one of the decrypted
    scenarios, it is a JSON object with a non-empty string [entity_id] and
    a state other than [None], and the call goes to the domain before the
    first dot of that entity id, with data that names that entity under
    ["entity_id"]. *)
Theorem dispatcher_calls_target_outcome_entity (scenarios : value)
    (st : hass_state) :
  calls_between
    (fun c => exists (ciphertext : string) (decrypted outcome : value),
                scenarios = VStr ciphertext
                /\ encryption.decrypt_data ciphertext (_encryption_key self)
                   = Ok decrypted
                /\ outcome_in decrypted outcome
                /\ targets outcome c)
    st (_handle_triggered_scenarios hass self scenarios st).2.
Proof.
  set (Q := fun c => exists (ciphertext : string) (decrypted outcome : value),
                scenarios = VStr ciphertext
                /\ encryption.decrypt_data ciphertext (_encryption_key self)
                   = Ok decrypted
                /\ outcome_in decrypted outcome
                /\ targets outcome c).
  enough (H : only_calls Q (fun _ => True)
                (_handle_triggered_scenarios hass self scenarios))
    by apply H.
  unfold _handle_triggered_scenarios, encryption.should_encrypt.
  apply (oc_bind _ (fun _ => True)); [by apply oc_set_service|]. intros _ _.
  apply (oc_bind _ (fun v => decrypt_value self scenarios = Ok v));
    [apply oc_lift; by intros|].
  intros decrypted Hd.
  apply (oc_bind _ (fun items => iterate decrypted = Ok items));
    [apply oc_lift; by intros|].
  intros items Hitems.
  eapply oc_calls_weaken.
  - apply (oc_for_each_elem
             (fun scenario c =>
                exists outcomes outcome,
                  getitem scenario "outcomes" ≫= iterate = Ok outcomes
                  /\ outcome ∈ outcomes /\ targets outcome c)).
    intros scenario _. unfold process_scenario.
    apply (oc_bind _ (fun _ => True)); [by apply oc_lift|]. intros _ _.
    apply (oc_bind _ (fun _ => True)); [by apply oc_logger|]. intros _ _.
    apply (oc_bind _ (fun outcomes =>
                        getitem scenario "outcomes" ≫= iterate
                          = Ok outcomes));
      [apply oc_lift; by intros|].
    intros outcomes Houtcomes.
    eapply oc_calls_weaken.
    + apply (oc_for_each_elem targets). intros outcome _.
      apply oc_process_outcome.
    + intros c (outcome & Hin & Ht). by exists outcomes, outcome.
  - intros c (scenario & Hin & outcomes & outcome & Ho & Hino & Ht).
    destruct scenarios as [| | |ciphertext| |]; try discriminate Hd.
    cbn [decrypt_value] in Hd.
    exists ciphertext, decrypted, outcome.
    split; [done|]. split; [done|]. split; [|done].
    by exists items, scenario, outcomes.
Qed.

(** X10 (an MQTT trigger never reaches a service).  The MQTT callback hands
    the decoded payload, a list, to [_handle_triggered_scenarios], which
    decrypts whatever it is given; decrypting a list raises, and the
    callback logs the error.  So whatever the payload, the callback ends
    normally and makes no service call, sends no request and leaves the
    config entry alone; for a non-empty JSON list the logger of the module
    records the message received and then the error of the handler. *)
Theorem mqtt_trigger_never_dispatches (payload : string) (st : hass_state) :
  exists st',
    mqtt._async_handle_mqtt_scenario_trigger hass self payload st
      = (Ok tt, st')
    /\ calls st' = calls st
    /\ posts st' = posts st
    /\ entry st' = entry st
    /\ (forall scenarios,
          encryption.json_loads payload = Ok (VList scenarios) ->
          scenarios <> [] ->
          log st'
          = log st
            ++ [(DEBUG,
                 "Received scenario trigger on MQTT topic %s with payload: %s");
                (ERROR, "Error handling MQTT scenario trigger: %s")]).
Proof.
  unfold mqtt._async_handle_mqtt_scenario_trigger.
  unfold mbind at 1. unfold M_bind at 1. cbn [logger].
  unfold try_except. unfold mbind at 1. unfold M_bind at 1. unfold lift at 1.
  destruct (encryption.json_loads payload) as [scenarios|e] eqn:Hj.
  2: { destruct e; eexists; (split; [reflexivity|]); cbn [logger calls posts entry];
       repeat split; intros; discriminate. }
  destruct scenarios as [|b|z|s|l|d]; cbn [mqtt.is_list andb].
  1-4,6: match goal with
         | |- context [truthy ?v] => destruct (truthy v)
         end; eexists; (split; [reflexivity|]);
         cbn [logger calls posts entry]; repeat split; intros; discriminate.
  destruct l as [|x l]; cbn [truthy].
  { eexists. split; [reflexivity|]. cbn [logger calls posts entry].
    repeat split. intros sc [= <-] Hne. done. }
  unfold _handle_triggered_scenarios, encryption.should_encrypt.
  unfold mbind, M_bind, lift. cbn [set_service decrypt_value logger].
  eexists. split; [reflexivity|]. cbn [calls posts entry log].
  repeat split. intros sc _ _. by rewrite <- app_assoc.
Qed.

End dispatcher_more.

Lemma light_on_copies_light_attributes_witness :
  exists st' service_data,
    direktive.process_outcome samples.home (VDict samples.light_outcome)
      (samples.hass_with ∅) = (Ok tt, st')
    /\ direktive.calls st'
       = [{| direktive.call_domain := "light";
             direktive.call_service := VStr "turn_on";
             direktive.call_data := service_data |}]
    /\ service_data !! "brightness" = Some (VInt 128)
    /\ service_data !! "transition" = None.
Proof.
  destruct (light_on_copies_light_attributes samples.home
              samples.light_outcome samples.light_attributes "light.kitchen"
              (samples.hass_with ∅) eq_refl eq_refl eq_refl eq_refl)
    as (st' & sd & Hrun & Hcalls & _ & Hin & Hout).
  exists st', sd. split; [exact Hrun|]. split; [exact Hcalls|]. split.
  - rewrite (Hin "brightness"); [reflexivity|]. apply list_elem_of_here.
  - apply Hout; [discriminate|].
    intros Hin'. apply list_elem_of_In in Hin'. simpl in Hin'.
    destruct Hin' as [H|[H|[H|[H|[]]]]]; discriminate H.
Defined.

Lemma on_off_domains_ignore_attributes_witness :
  exists st',
    direktive.process_outcome samples.home (VDict samples.light_off_outcome)
      (samples.hass_with ∅) = (Ok tt, st')
    /\ direktive.calls st'
       = [{| direktive.call_domain := "light";
             direktive.call_service := VStr "turn_off";
             direktive.call_data := {["entity_id" := VStr "light.kitchen"]} |}].
Proof.
  exact (on_off_domains_ignore_attributes samples.home
           samples.light_off_outcome "light.kitchen" (VStr "off")
           (samples.hass_with ∅) eq_refl ltac:(discriminate) eq_refl
           ltac:(discriminate) (or_intror (conj eq_refl eq_refl))).
Defined.

Lemma cover_position_overrides_state_witness :
  exists st',
    direktive.process_outcome samples.home (VDict samples.cover_outcome)
      (samples.hass_with ∅) = (Ok tt, st')
    /\ direktive.calls st'
       = [{| direktive.call_domain := "cover";
             direktive.call_service := VStr "set_cover_position";
             direktive.call_data :=
               <["position" := VInt 40]>
                 {["entity_id" := VStr "cover.garage"]} |}].
Proof.
  destruct (cover_position_overrides_state samples.home samples.cover_outcome
              {["position" := VInt 40]} "cover.garage" (VStr "open")
              (samples.hass_with ∅) eq_refl eq_refl eq_refl
              ltac:(discriminate) eq_refl) as [Hpos _].
  exact (Hpos (VInt 40) eq_refl).
Defined.

Lemma number_outcome_sets_value_witness :
  exists st',
    direktive.process_outcome samples.home (VDict samples.number_outcome)
      (samples.hass_with ∅) = (Ok tt, st')
    /\ direktive.calls st'
       = [{| direktive.call_domain := "number";
             direktive.call_service := VStr "set_value";
             direktive.call_data :=
               <["value" := VInt 7]>
                 {["entity_id" := VStr "number.volume"]} |}].
Proof.
  exact (number_outcome_sets_value samples.home samples.number_outcome
           "number.volume" (VInt 7) (samples.hass_with ∅) eq_refl eq_refl
           eq_refl ltac:(discriminate)).
Defined.

Lemma alarm_unknown_state_reuses_service_witness :
  exists st',
    direktive.process_outcome samples.home (VDict samples.alarm_outcome)
      (samples.hass_with ∅) = (Ok tt, st')
    /\ direktive.calls st' = [].
Proof.
  destruct (alarm_unknown_state_reuses_service samples.home
              samples.alarm_outcome "alarm_control_panel.home"
              (VStr "triggered") (samples.hass_with ∅) eq_refl eq_refl
              eq_refl ltac:(discriminate) eq_refl) as [Hunbound _].
  destruct (Hunbound eq_refl) as (st' & Hrun & Hcalls & _).
  exists st'. split; [exact Hrun | exact Hcalls].
Defined.

(** ** __init__.py: the publishers at their edges *)

Section publisher_more.
Import direktive encryption.
Context {P : Primitives}.
Variable hass : host.

Lemma handle_response_calls (self : Direktive) (response_data : value)
    (st : hass_state) :
  calls (handle_response hass self response_data st).2 <> calls st ->
  exists ciphertext scenarios,
    getitem response_data "triggered_scenarios" = Ok (VStr ciphertext)
    /\ decrypt_data ciphertext (_encryption_key self) = Ok scenarios.
Proof.
  unfold handle_response. unfold mbind at 1. unfold M_bind at 1.
  unfold lift at 1.
  destruct (contains response_data "triggered_scenarios") as [[|]|e];
    [|by intros []..].
  unfold mbind at 1. unfold M_bind at 1. unfold lift at 1.
  destruct (getitem response_data "triggered_scenarios") as [v|e];
    [|by intros []].
  unfold _handle_triggered_scenarios, should_encrypt.
  unfold mbind at 1. unfold M_bind at 1. cbn [set_service].
  unfold mbind at 1. unfold M_bind at 1. unfold lift at 1.
  destruct v as [|b|z|ciphertext|l|d]; cbn [decrypt_value];
    try by intros [].
  destruct (decrypt_data ciphertext (_encryption_key self))
    as [scenarios|e] eqn:Hd; [|by intros []].
  intros _. by exists ciphertext, scenarios.
Qed.

Lemma omap_all_none {A B} (f : A -> option B) (l : list A) :
  (forall x, x ∈ l -> f x = None) -> omap f l = [].
Proof.
  induction l as [|a l IH]; intros H; [done|]. simpl.
  rewrite (H a) by apply list_elem_of_here.
  apply IH. intros x Hx. apply H. by apply list_elem_of_further.
Qed.

(** X11 (which state changes are published).  A change of an entity that is
    neither configured nor ["sun.sun"], or a change to no state, does
    nothing at all.  A change of ["sun.sun"] is published whatever the
    configured list holds: when the encryption of its state succeeds, one
    request carrying the ciphertext is sent. *)
Theorem state_change_published_only_when_tracked (configured : list string)
    (subscription_type encryption_key : option string)
    (from_state : option State) (st : hass_state) :
  let self := init configured subscription_type encryption_key in
  (forall entity_id to_state,
     to_state = None
     \/ ((entity_id ∉ configured) /\ entity_id <> "sun.sun") ->
     _handle_state_change hass self entity_id from_state to_state st
       = (Ok tt, st))
  /\ (forall new_state ciphertext,
        encrypt_data (VList [entity_data "sun.sun" new_state]) encryption_key
          (urandom hass (draws st)) = Ok ciphertext ->
        posts (_handle_state_change hass self "sun.sun" from_state
                 (Some new_state) st).2
          = posts st ++ [single_payload (VStr ciphertext)]).
Proof.
  intros self. split.
  - intros entity_id to_state H. unfold _handle_state_change.
    destruct to_state as [new_state|]; [|done].
    destruct H as [H|[Hc Hs]]; [done|].
    rewrite bool_decide_eq_false_2; [done|].
    unfold self, init. cbn [entity_ids].
    intros [H1|H2]%elem_of_union.
    + by apply elem_of_list_to_set in H1.
    + by apply elem_of_singleton in H2.
  - intros new_state ciphertext Henc. unfold _handle_state_change.
    rewrite bool_decide_eq_true_2
      by (unfold self, init; cbn [entity_ids];
          apply elem_of_union_r; by apply elem_of_singleton).
    destruct (update_remote_state_run hass self "sun.sun" new_state st)
      as (st' & Hrun & _ & Hposts).
    assert (Hgrow : posts (_async_update_remote_state hass self "sun.sun"
                             new_state st).2 <> posts st).
    { clear Hrun Hposts.
      unfold _async_update_remote_state, try_except.
      unfold should_encrypt. unfold mbind at 1. unfold M_bind at 1.
      unfold encrypt at 1. cbn [draws _encryption_key self init].
      rewrite Henc. cbn [fmap res_fmap bind].
      unfold mbind at 1. unfold M_bind at 1. unfold session_post at 1.
      cbn [posts].
      assert (Hlonger : forall ps : list pydict,
                 ps = posts st ++ [single_payload (VStr ciphertext)] ->
                 ps <> posts st).
      { intros ps -> E. apply (f_equal length) in E.
        rewrite length_app in E. simpl in E. lia. }
      destruct (post_reply hass (length (posts st))) as [|status json].
      { by apply Hlonger. }
      cbn [fst snd].
      destruct (negb (Z.eqb status 200)); [by apply Hlonger|].
      unfold mbind, M_bind, lift.
      destruct json as [response_data|e]; [|by apply Hlonger].
      match goal with
      | |- context [handle_response hass self response_data ?s0] =>
          pose proof (quiet_handle_response hass self response_data s0)
            as (_ & Hp & _);
          destruct (handle_response hass self response_data s0)
            as [[[]|e] st3]
      end; cbn [snd posts logger] in *; by apply Hlonger. }
    rewrite Hrun in Hgrow |- *. cbn [snd] in Hgrow |- *.
    destruct Hposts as [Hsame|(c & Hc & Hp)]; [done|].
    cbn [_encryption_key self init] in Hc. rewrite Henc in Hc.
    by injection Hc as <-.
Qed.

Variable self : Direktive.

(** X12 (service calls need an answer that decrypts).  A state change leads
    to a service call only if its request was answered by a 200 whose JSON
    body holds, under ["triggered_scenarios"], a string that decrypts under
    the key of the integration. *)
Theorem state_change_dispatch_needs_encrypted_scenarios (entity_id : string)
    (s : State) (st : hass_state) :
  calls (_async_update_remote_state hass self entity_id s st).2 <> calls st ->
  exists response_data ciphertext scenarios,
    post_reply hass (length (posts st)) = Response 200 (Ok response_data)
    /\ getitem response_data "triggered_scenarios" = Ok (VStr ciphertext)
    /\ decrypt_data ciphertext (_encryption_key self) = Ok scenarios.
Proof.
  unfold _async_update_remote_state, try_except.
  unfold should_encrypt. unfold mbind at 1. unfold M_bind at 1.
  unfold encrypt at 1. cbn [draws].
  destruct (encrypt_data (VList [entity_data entity_id s])
              (_encryption_key self) (urandom hass (draws st)))
    as [c|e] eqn:Henc; cbn [fmap res_fmap bind]; [|by intros []].
  unfold mbind at 1. unfold M_bind at 1. unfold session_post at 1.
  cbn [posts].
  destruct (post_reply hass (length (posts st))) as [|status json];
    [by intros []|].
  cbn [fst snd].
  destruct (negb (Z.eqb status 200)) eqn:Hstatus; [by intros []|].
  apply negb_false_iff, Z.eqb_eq in Hstatus. subst status.
  unfold mbind, M_bind, lift.
  destruct json as [response_data|e]; [|by intros []].
  match goal with
  | |- context [handle_response hass self response_data ?s0] =>
      pose proof (handle_response_calls self response_data s0) as Hh;
      destruct (handle_response hass self response_data s0)
        as [[[]|e] st3]
  end; cbn [snd calls logger] in *; intros Hcalls;
    destruct (Hh Hcalls) as (ciphertext & scenarios & Hg & Hd);
    by exists response_data, ciphertext, scenarios.
Qed.

(** X13 (a bulk update with nothing to send).  When no tracked entity has a
    state, the initial bulk update ends normally without sending a request,
    drawing an IV or calling a service, and the config entry is left as it
    was: the flag is not set, so the next setup tries again. *)
Theorem bulk_update_without_states_sends_nothing (st : hass_state) :
  (forall entity_id,
     entity_id ∈ entity_ids self -> states hass !! entity_id = None) ->
  exists st',
    _send_bulk_update hass self st = (Ok tt, st')
    /\ posts st' = posts st
    /\ draws st' = draws st
    /\ calls st' = calls st
    /\ entry st' = entry st.
Proof.
  intros Hnone.
  assert (Hb : bulk_entities hass self = []).
  { unfold bulk_entities. apply omap_all_none. intros e He.
    rewrite Hnone; [done|]. by apply elem_of_elements. }
  unfold _send_bulk_update.
  destruct (entry st) as [entry_data|] eqn:He.
  2: { eexists. split; [reflexivity|]. by cbn [logger posts draws calls entry]. }
  destruct (truthy _).
  { eexists. split; [reflexivity|]. by cbn [logger posts draws calls entry]. }
  unfold try_except. rewrite Hb. unfold mbind, M_bind, mret, M_ret.
  cbn [logger truthy].
  eexists. split; [reflexivity|]. by cbn [posts draws calls entry].
Qed.

End publisher_more.

Lemma state_change_published_only_when_tracked_witness :
  direktive._handle_state_change (P := samples.toy_primitives) samples.home
    (direktive.init ["light.kitchen"] (Some "basic") (Some samples.key32))
    "switch.pump" None None (samples.hass_with ∅)
  = (Ok tt, samples.hass_with ∅).
Proof.
  destruct (state_change_published_only_when_tracked
              (P := samples.toy_primitives) samples.home ["light.kitchen"]
              (Some "basic") (Some samples.key32) None (samples.hass_with ∅))
    as [Hskip _].
  exact (Hskip "switch.pump" None (or_introl eq_refl)).
Defined.

Lemma state_change_dispatch_needs_encrypted_scenarios_witness :
  exists response_data ciphertext scenarios,
    direktive.post_reply samples.answering_home 0
      = Response 200 (Ok response_data)
    /\ getitem response_data "triggered_scenarios" = Ok (VStr ciphertext)
    /\ encryption.decrypt_data (P := samples.scenario_primitives) ciphertext
         (Some samples.key32) = Ok scenarios.
Proof.
  apply (state_change_dispatch_needs_encrypted_scenarios
           (P := samples.scenario_primitives) samples.answering_home
           samples.integration "light.kitchen" samples.kitchen
           (samples.hass_with ∅)).
  vm_compute. discriminate.
Defined.

Lemma bulk_update_without_states_sends_nothing_witness :
  exists st',
    direktive._send_bulk_update (P := samples.toy_primitives) samples.home
      samples.bare_integration (samples.hass_with ∅) = (Ok tt, st')
    /\ direktive.posts st' = []
    /\ direktive.draws st' = 0%nat
    /\ direktive.calls st' = []
    /\ direktive.entry st' = Some ∅.
Proof.
  apply (bulk_update_without_states_sends_nothing
           (P := samples.toy_primitives) samples.home
           samples.bare_integration (samples.hass_with ∅)).
  intros entity_id He.
  unfold samples.bare_integration, direktive.init in He.
  cbn [direktive.entity_ids] in He.
  apply elem_of_union in He as [He|He].
  - apply elem_of_list_to_set in He. by apply elem_of_nil in He.
  - apply elem_of_singleton in He. subst entity_id. reflexivity.
Defined.

(** ** coordinator.py: the poll under any remote, and the full fetch *)

Section coordinator_more.
Import coordinator.

Implicit Types (h : list pydict) (ds : list nat) (d : nat).

Lemma poll_timeout_frame directive_id (st : state) :
  requests (poll_timeout directive_id st) = requests st
  /\ clock (poll_timeout directive_id st) = clock st.
Proof.
  unfold poll_timeout. by repeat case_match.
Qed.

Lemma stage_fetch_frame (env : remote) directive_id (st : state) :
  let st1 := (async_get_directive_stage env directive_id st).2 in
  requests st1 = requests st ++ [GetDirectiveStage directive_id]
  /\ clock st <= clock st1
  /\ sleeps st1 = sleeps st
  /\ heap st1 = heap st /\ data st1 = data st
  /\ snapshots st1 = snapshots st /\ sensor st1 = sensor st.
Proof.
  assert (Hsame : (async_get_directive_stage env directive_id st).2
                  = (send env (GetDirectiveStage directive_id) st).2).
  { unfold async_get_directive_stage.
    destruct (send env (GetDirectiveStage directive_id) st) as [rep st1].
    by repeat case_match. }
  intros st1. unfold st1. rewrite Hsame. unfold send. cbn [snd].
  cbn [requests clock sleeps heap data snapshots sensor].
  repeat split. lia.
Qed.

Section bounded.
Variable env : remote.
Variable directive_id : string.
Variable start_time : Z.

Lemma poll_loop_returns (n : nat) : forall st : state,
  seconds 380 - (clock st - start_time) <= seconds 10 * Z.of_nat n ->
  exists r st' rs,
    (forall fuel, (n < fuel)%nat ->
       poll_loop env fuel directive_id start_time st = Some (r, st'))
    /\ requests st' = requests st ++ rs
    /\ (length (List.filter is_stage_fetch rs) <= n)%nat
    /\ (length (List.filter (fun r => negb (is_stage_fetch r)) rs) <= 1)%nat.
Proof.
  assert (Hexit : forall (st : state) m,
            Z.ltb (clock st - start_time) (seconds 380) = false ->
            exists r st' rs,
              (forall fuel, (m < fuel)%nat ->
                 poll_loop env fuel directive_id start_time st
                   = Some (r, st'))
              /\ requests st' = requests st ++ rs
              /\ (length (List.filter is_stage_fetch rs) <= m)%nat
              /\ (length (List.filter (fun r => negb (is_stage_fetch r)) rs)
                  <= 1)%nat).
  { intros st m Ht.
    exists (Ok None), (poll_timeout directive_id st), [].
    split; [|split; [|simpl; lia]].
    - intros [|fuel] Hf; [lia|]. by apply poll_loop_exit.
    - rewrite app_nil_r. apply poll_timeout_frame. }
  induction n as [|m IH]; intros st Hleft.
  { apply Hexit. apply Z.ltb_ge. unfold seconds in *. lia. }
  destruct (Z.ltb (clock st - start_time) (seconds 380)) eqn:Ht;
    [|by apply Hexit].
  destruct (stage_fetch_frame env directive_id st)
    as (Hreq & Hclock & Hsl & _).
  destruct (async_get_directive_stage env directive_id st) as [r st1] eqn:Hs.
  cbn [snd] in Hreq, Hclock, Hsl.
  assert (Hstep : forall fuel,
            poll_loop env (S fuel) directive_id start_time st
            = match r ≫= as_dict with
              | Raised e => Some (Raised e, st1)
              | Ok stage_info =>
                  if eq_str (get stage_info "stage") "completed" then
                    Some (async_get_directive env directive_id st1)
                  else if eq_str (get stage_info "stage") "failed" then
                    Some (async_get_directive env directive_id st1)
                  else
                    poll_loop env fuel directive_id start_time
                      (sleep env 10 (poll_update directive_id stage_info st1))
              end).
  { intros fuel. cbn [poll_loop]. by rewrite Ht, Hs. }
  assert (Hfetch :
            exists r2 st2 rs,
              async_get_directive env directive_id st1 = (r2, st2)
              /\ requests st2 = requests st ++ rs
              /\ (length (List.filter is_stage_fetch rs) <= S m)%nat
              /\ (length (List.filter (fun r => negb (is_stage_fetch r)) rs)
                  <= 1)%nat).
  { pose proof (async_get_directive_requests env directive_id st1) as Hg.
    destruct (async_get_directive env directive_id st1) as [r2 st2].
    cbn [snd] in Hg.
    exists r2, st2,
      [GetDirectiveStage directive_id; GetDirective directive_id].
    split; [done|]. split; [|simpl; lia].
    rewrite Hg, Hreq, <- app_assoc. done. }
  destruct (r ≫= as_dict) as [stage_info|e] eqn:Hr.
  2: { exists (Raised e), st1, [GetDirectiveStage directive_id].
       split; [|split; [done|simpl; lia]].
       intros [|fuel] Hf; [lia|]. apply Hstep. }
  destruct (eq_str (get stage_info "stage") "completed") eqn:Hc.
  { destruct Hfetch as (r2 & st2 & rs & Hrun & Hrest).
    exists r2, st2, rs. split; [|done].
    intros [|fuel] Hf; [lia|]. by rewrite Hstep, Hrun. }
  destruct (eq_str (get stage_info "stage") "failed") eqn:Hf.
  { destruct Hfetch as (r2 & st2 & rs & Hrun & Hrest).
    exists r2, st2, rs. split; [|done].
    intros [|fuel] Hfu; [lia|]. by rewrite Hstep, Hrun. }
  destruct (poll_update_frame directive_id stage_info st1)
    as (Ureq & Uclock & _).
  destruct (sleep_frame env 10 (poll_update directive_id stage_info st1))
    as (Sreq & Sclock & _).
  destruct (IH (sleep env 10 (poll_update directive_id stage_info st1)))
    as (r3 & st3 & rs & Hrun & Hreq3 & Hn1 & Hn2).
  { rewrite Sclock, Uclock. unfold seconds in *. lia. }
  exists r3, st3, (GetDirectiveStage directive_id :: rs).
  split; [|split; [|split]].
  - intros [|fuel] Hfu; [lia|]. rewrite Hstep. apply Hrun. lia.
  - rewrite Hreq3, Sreq, Ureq, Hreq, <- app_assoc. done.
  - simpl. lia.
  - simpl. lia.
Qed.

End bounded.

(** X14 (the poll always ends).  Whatever the server answers and however
    long it takes, the poll returns or raises after at most 38 stage
    fetches and at most one fetch of the full directive: 39 evaluations of
    the loop condition are always enough. *)
Theorem poll_always_returns (env : remote) directive_id (st : state) :
  exists r st',
    (forall fuel, (39 <= fuel)%nat ->
       async_poll_directive env fuel directive_id st = Some (r, st'))
    /\ (stage_fetches st' <= stage_fetches st + 38)%nat
    /\ (directive_fetches st' <= directive_fetches st + 1)%nat.
Proof.
  destruct (poll_loop_returns env directive_id (clock st) 38 st)
    as (r & st' & rs & Hrun & Hreq & Hn1 & Hn2).
  { unfold seconds. lia. }
  exists r, st'. split; [|].
  - intros fuel Hf. unfold async_poll_directive. apply Hrun. lia.
  - destruct (stage_fetches_app st rs st' Hreq) as [-> ->]. lia.
Qed.

(** X15 (a failed stage fetch ends the poll).  When the first stage fetch
    is not answered by a 200 with a JSON body, the poll raises the error of
    the stage fetch at once; when the body is not a JSON object, it raises
    on reading the stage.  Either way that one request is all it sends, and
    the collection, the store and what was published stay as they were. *)
Theorem poll_stops_at_failed_stage_fetch (env : remote) directive_id
    (st : state) (fuel : nat) :
  (forall body,
     reply env (length (requests st)) <> Response 200 (Ok body))
  \/ (exists body,
        reply env (length (requests st)) = Response 200 (Ok body)
        /\ as_dict body = Raised AttributeError) ->
  exists e st',
    async_poll_directive env (S fuel) directive_id st = Some (Raised e, st')
    /\ (e = Exception "Error getting directive stage" \/ e = AttributeError)
    /\ requests st' = requests st ++ [GetDirectiveStage directive_id]
    /\ heap st' = heap st /\ data st' = data st
    /\ snapshots st' = snapshots st.
Proof.
  intros Hreply.
  destruct (stage_fetch_frame env directive_id st)
    as (Hreq & _ & _ & Hheap & Hdata & Hsnap & _).
  unfold async_poll_directive. cbn [poll_loop].
  replace (clock st - clock st) with 0 by lia.
  change (Z.ltb 0 (seconds 380)) with true. cbn match.
  assert (Hr : exists e,
            (async_get_directive_stage env directive_id st).1 ≫= as_dict
              = Raised e
            /\ (e = Exception "Error getting directive stage"
                \/ e = AttributeError)).
  { unfold async_get_directive_stage, send. cbn zeta.
    destruct Hreply as [Hno|(body & Hb & Hobj)].
    - exists (Exception "Error getting directive stage").
      split; [|by left].
      destruct (reply env (length (requests st))) as [|status [body|e]]
        eqn:Hrep; [done| |by repeat case_match].
      repeat case_match; try done. by destruct (Hno body).
    - rewrite Hb. exists AttributeError. split; [|by right].
      cbn [fst]. unfold mbind, res_bind. simpl. exact Hobj. }
  destruct Hr as (e & Hr & He).
  destruct (async_get_directive_stage env directive_id st) as [r st1].
  cbn [fst snd] in *. rewrite Hr.
  by exists e, st1.
Qed.

Lemma view_filter_app directive_id h (x : pydict) ds :
  Forall (fun d => (d < length h)%nat) ds ->
  view (h ++ [x])
    (filter (fun d => negb (has_id directive_id (deref h d))) ds)
  = filter (fun y => negb (has_id directive_id y)) (view h ds).
Proof.
  unfold view. induction 1 as [|d ds Hd _ IH]; [done|].
  rewrite fmap_cons, !filter_cons.
  destruct (decide (negb (has_id directive_id (deref h d)))) as [Hk|Hk].
  - rewrite fmap_cons, IH. by rewrite deref_app_l.
  - exact IH.
Qed.

Lemma find_view directive_id h ds :
  find (has_id directive_id) (view h ds)
  = deref h <$> find (fun d => has_id directive_id (deref h d)) ds.
Proof.
  unfold view. induction ds as [|d ds IH]; [done|]. csimpl.
  by destruct (has_id directive_id (deref h d)).
Qed.

(** X16 (the full fetch replaces the entries with the id).  On a
    coordinator that holds a collection, a 200 answer whose ["directive"]
    member is a non-empty object makes [async_get_directive] publish a new
    collection: the entries with another id, in their order and unchanged,
    followed by the fetched object, which is also what is returned.  The
    fetched object carries the messages of the first entry that had the id,
    and an empty list when none had it. *)
Theorem get_directive_replaces_entries (env : remote) directive_id
    (st : state) (api_response directive_data : pydict) ds (r : pydict) :
  reply env (length (requests st))
    = Response 200 (Ok (VDict api_response)) ->
  get api_response "directive" = VDict directive_data ->
  truthy (VDict directive_data) = true ->
  data st = Some {| directives := Some ds; rest := r |} ->
  Forall (fun d => (d < length (heap st))%nat) ds ->
  let messages :=
    match find (has_id directive_id) (view (heap st) ds) with
    | Some x => get_default x "messages" (VList [])
    | None => VList []
    end in
  exists l st' ds',
    async_get_directive env directive_id st = (Ok (Some (Object l)), st')
    /\ data st' = Some {| directives := Some ds'; rest := r |}
    /\ last (snapshots st') = data st'
    /\ deref (heap st') l = <["messages" := messages]> directive_data
    /\ view (heap st') ds'
       = filter (fun x => negb (has_id directive_id x)) (view (heap st) ds)
         ++ [<["messages" := messages]> directive_data].
Proof.
  intros Hr Hget Ht Hdata Hwf messages.
  unfold async_get_directive. simpl. rewrite Hr. simpl.
  rewrite Hget, Ht. simpl. rewrite Hdata.
  eexists _, _, _. split; [reflexivity|]. simpl.
  assert (Hm : match find (fun d => has_id directive_id (deref (heap st) d))
                       ds with
               | Some d => get_default (deref (heap st) d) "messages" (VList [])
               | None => VList []
               end = messages).
  { unfold messages. rewrite find_view.
    by destruct (find (fun d => has_id directive_id (deref (heap st) d)) ds). }
  rewrite Hm.
  split; [done|]. split; [apply last_snoc|]. split.
  - rewrite <- (app_nil_r (heap st ++ _)). apply deref_alloc.
  - unfold view at 1. rewrite fmap_app. f_equal.
    + apply (view_filter_app directive_id (heap st) _ ds Hwf).
    + csimpl. f_equal. rewrite <- (app_nil_r (heap st ++ _)).
      apply deref_alloc.
Qed.

Ltac proj_state :=
  cbn [heap data sensor snapshots requests clock sleeps].

Ltac fetch_leaf :=
  cbn; intros Hnone; try (by destruct (Hnone _ eq_refl));
  (split; [by auto|]); (split; [done|]); (split; [done|]);
  (split; [done|]); try (by left).

(** X17 (a fetch that yields no directive leaves the collection alone).
    When [async_get_directive] does not return a directive, because it
    raised or because the answer held none, the collection and what was
    published are as they were, and the request is all that was sent.  The
    store and the sensor are as they were too, with one exception: when the
    ["directive"] of the answer is a non-empty list, the coordinator holds
    no collection and there is a sensor, the sensor may have gained the
    entry [{"id": directive_id}] before the call failed. *)
Theorem get_directive_without_result_keeps_collection (env : remote)
    directive_id (st : state) :
  let out := async_get_directive env directive_id st in
  (forall x, out.1 <> Ok (Some x)) ->
  (out.1 = Ok None \/ out.1 = Raised (Exception "Error getting directive"))
  /\ data out.2 = data st
  /\ snapshots out.2 = snapshots st
  /\ requests out.2 = requests st ++ [GetDirective directive_id]
  /\ ((heap out.2 = heap st /\ sensor out.2 = sensor st)
      \/ exists (api_response : pydict) (items : list value)
                (sensor_directives : list nat),
           reply env (length (requests st))
             = Response 200 (Ok (VDict api_response))
           /\ get api_response "directive" = VList items
           /\ items <> []
           /\ has_collection st = false
           /\ sensor st = Ok (Some sensor_directives)
           /\ heap out.2 = heap st ++ [{["id" := VStr directive_id]}]
           /\ sensor out.2
              = Ok (Some (sensor_directives ++ [length (heap st)]))).
Proof.
  intros out. unfold out. clear out.
  unfold async_get_directive, send. cbn zeta. proj_state.
  destruct (reply env (length (requests st))) as [|status json] eqn:Hrep;
    [fetch_leaf|].
  destruct (Z.eq_dec status 200) as [->|Hs].
  2: { repeat case_match; try done; fetch_leaf. }
  destruct json as [[| | | | |api]|e]; try fetch_leaf.
  cbn [as_dict].
  destruct (truthy (get api "directive")) eqn:Ht; cbn [negb];
    [|fetch_leaf].
  destruct (get api "directive") as [|b|z|s|items|dd] eqn:Hget;
    try discriminate Ht.
  5: { (* an object *)
       destruct (data st) as [[[ds|] r]|] eqn:Hdata; proj_state;
         [fetch_leaf| |];
         (destruct (sensor st) as [[sds|]|e'] eqn:Hsensor; proj_state;
          [destruct (async_set_directive_state directive_id dd sds
                       (heap st ++ [dd])) as [h sds']|..]); fetch_leaf. }
  4: { (* a list *)
       assert (Hne : items <> []) by (intros ->; discriminate Ht).
       destruct (data st) as [[[ds|] r]|] eqn:Hdata; proj_state;
         [fetch_leaf| |].
       all: assert (Hcol : has_collection st = false)
              by (unfold has_collection; by rewrite Hdata).
       all: destruct (sensor st) as [[sds|]|e'] eqn:Hsensor; proj_state;
              [|fetch_leaf..].
       all: unfold async_set_directive_state_item.
       all: destruct (find (fun d => has_id directive_id (deref (heap st) d))
                        sds) as [d|];
              [destruct (truthy (VDict (deref (heap st) d)))|];
              fetch_leaf; right; by exists api, items, sds. }
  (* a boolean, a number or a string *)
  all: destruct (data st) as [[[ds|] r]|] eqn:Hdata; proj_state;
         [fetch_leaf| |].
  all: destruct (sensor st) as [[sds|]|e'] eqn:Hsensor; proj_state;
         [|fetch_leaf..].
  all: unfold async_set_directive_state_item.
  all: destruct (find (fun d => has_id directive_id (deref (heap st) d))
                   sds) as [d|];
         [destruct (truthy (VDict (deref (heap st) d)))|];
         fetch_leaf.
Qed.

End coordinator_more.

Lemma get_directive_replaces_entries_witness :
  exists l st' ds',
    coordinator.async_get_directive samples.remote_serving "d0"
      samples.coordinator_state = (Ok (Some (coordinator.Object l)), st')
    /\ coordinator.data st'
       = Some {| coordinator.directives := Some ds';
                 coordinator.rest := ∅ |}
    /\ length ds' = 1%nat.
Proof.
  destruct (get_directive_replaces_entries samples.remote_serving "d0"
              samples.coordinator_state samples.directive_response
              samples.directive_record [0%nat] ∅
              eq_refl eq_refl eq_refl eq_refl
              ltac:(repeat constructor))
    as (l & st' & ds' & Hrun & Hdata & _ & _ & Hview).
  exists l, st', ds'. split; [exact Hrun|]. split; [exact Hdata|].
  apply (f_equal length) in Hview. unfold coordinator.view in Hview.
  rewrite length_fmap in Hview. rewrite Hview. reflexivity.
Defined.

Lemma poll_stops_at_failed_stage_fetch_witness :
  exists e st',
    coordinator.async_poll_directive samples.remote_down 1 "d1"
      samples.coordinator_state = Some (Raised e, st')
    /\ coordinator.data st' = coordinator.data samples.coordinator_state.
Proof.
  destruct (poll_stops_at_failed_stage_fetch samples.remote_down "d1"
              samples.coordinator_state 0
              (or_introl (fun body (H : ClientError = Response 200 (Ok body)) =>
                            eq_ind ClientError
                              (fun r => match r with
                                        | ClientError => True
                                        | Response _ _ => False
                                        end) I _ H)))
    as (e & st' & Hrun & _ & _ & _ & Hdata & _).
  exists e, st'. split; [exact Hrun | exact Hdata].
Defined.

Lemma get_directive_without_result_keeps_collection_witness :
  coordinator.data
    (coordinator.async_get_directive samples.remote_listing "d0"
       samples.coordinator_without_data).2 = None
  /\ coordinator.sensor
       (coordinator.async_get_directive samples.remote_listing "d0"
          samples.coordinator_without_data).2 = Ok (Some [0%nat]).
Proof.
  destruct (get_directive_without_result_keeps_collection
              samples.remote_listing "d0" samples.coordinator_without_data)
    as (_ & Hdata & _).
  - intros x. discriminate.
  - split; [exact Hdata | reflexivity].
Defined.

(** ** webhook.py: what a request can set off *)

Section webhook_more.
Import webhook webhook_logic encryption.
Context {P : Primitives}.
Variable hass : host.

Lemma no_call_in (l : list effect) :
  l = [] \/ l = [ReadBody] \/ (exists d n, l = [ReadBody; HasService d n]) ->
  forall d n sd, ServiceCall d n sd ∉ l.
Proof.
  intros [->|[->|(d' & n' & ->)]] d n sd Hin;
    repeat (apply elem_of_cons in Hin as [Hin|Hin]; [discriminate Hin|]);
    by apply elem_of_nil in Hin.
Qed.

Lemma call_answered_refusal (code : Z) (b : body) (l : list effect) :
  code <> OK ->
  l = [] \/ l = [ReadBody] \/ (exists d n, l = [ReadBody; HasService d n]) ->
  call_answered hass (respond code b l).
Proof.
  intros Hcode Hl. pose proof (no_call_in l Hl) as Hno. split.
  - intros r [= <-]. simpl. split; [done|].
    intros (d & n & sd & Hin & _). by destruct (Hno d n sd).
  - intros d n sd Hin. by destruct (Hno d n sd).
Qed.

Lemma call_answered_raised (e : exn) (l : list effect) :
  l = [] \/ l = [ReadBody] \/ (exists d n, l = [ReadBody; HasService d n]) ->
  call_answered hass (Raised e, l).
Proof.
  intros Hl. pose proof (no_call_in l Hl) as Hno. split.
  - intros r [=].
  - intros d n sd Hin. by destruct (Hno d n sd).
Qed.

Lemma call_answered_dispatch (service_call_data : value) :
  call_answered hass (dispatch hass service_call_data [ReadBody]).
Proof.
  assert (H400 : BAD_REQUEST <> OK) by done.
  assert (H500 : INTERNAL_SERVER_ERROR <> OK) by done.
  unfold dispatch.
  destruct service_call_data as [| | | | |call];
    try (apply call_answered_refusal; [done|by right; left]).
  destruct (_ || _); [apply call_answered_refusal; [done|by right; left]|].
  match goal with
  | |- context [match ?prepared with Ok _ => _ | Raised _ => _ end] =>
      destruct prepared as [service_data|e]
  end; [|apply call_answered_raised; by right; left].
  cbn [app].
  destruct (check_service hass (get call "domain") (get call "service"))
    as [[|]|e] eqn:Hcheck.
  - unfold check_service in Hcheck.
    destruct (get call "domain") as [| | |ds| |]; try discriminate Hcheck.
    destruct (get call "service") as [| | |ns| |]; try discriminate Hcheck.
    simpl in Hcheck. injection Hcheck as Hhas.
    assert (Honly : forall d n sd,
              ServiceCall d n sd
                ∈ [ReadBody; HasService (VStr ds) (VStr ns);
                   ServiceCall (VStr ds) (VStr ns) service_data] ->
              d = VStr ds /\ n = VStr ns /\ sd = service_data).
    { intros d n sd Hin.
      apply elem_of_cons in Hin as [Hin|Hin]; [discriminate Hin|].
      apply elem_of_cons in Hin as [Hin|Hin]; [discriminate Hin|].
      apply list_elem_of_singleton in Hin. by injection Hin as -> -> ->. }
    assert (Hhere : ServiceCall (VStr ds) (VStr ns) service_data
                      ∈ [ReadBody; HasService (VStr ds) (VStr ns);
                         ServiceCall (VStr ds) (VStr ns) service_data]).
    { apply list_elem_of_further, list_elem_of_further, list_elem_of_here. }
    destruct (call_raises hass (VStr ds) (VStr ns) service_data) eqn:Hraise;
      (split;
       [intros r [= <-]; cbn [status snd]; split;
        [|intros (d & n & sd & Hin & Hret);
          destruct (Honly d n sd Hin) as (-> & -> & ->)]
       |intros d n sd Hin; cbn [snd] in *;
        destruct (Honly d n sd Hin) as (-> & -> & ->);
        by exists ds, ns]).
    + done.
    + congruence.
    + intros _. by exists (VStr ds), (VStr ns), service_data.
    + done.
  - apply call_answered_refusal; [done|]. right; right. by eexists _, _.
  - apply call_answered_refusal; [done|]. right; right. by eexists _, _.
Qed.

(** X18 (what a webhook request can set off).  Whatever the request, the
    handler answers 200 exactly when it called a service and the call
    returned.  It makes at most one service call, after reading the body
    and asking whether the service exists, and only to a service that is
    registered under a string domain and a string name. *)
Theorem webhook_ok_iff_service_called (req : request) :
  let out := async_handle_webhook hass req in
  (forall r, out.1 = Ok r ->
     (status r = OK
      <-> exists d n sd,
            ServiceCall d n sd ∈ out.2 /\ call_raises hass d n sd = false))
  /\ (forall d n sd,
        ServiceCall d n sd ∈ out.2 ->
        exists ds ns,
          d = VStr ds /\ n = VStr ns /\ has_service hass ds ns = true
          /\ out.2 = [ReadBody; HasService d n; ServiceCall d n sd]).
Proof.
  change (call_answered hass (async_handle_webhook hass req)).
  assert (H401 : UNAUTHORIZED <> OK) by done.
  assert (H400 : BAD_REQUEST <> OK) by done.
  assert (H500 : INTERNAL_SERVER_ERROR <> OK) by done.
  unfold async_handle_webhook, should_encrypt.
  destruct (config_entry hass) as [entry_data|];
    [|apply call_answered_refusal; [done|by left]].
  destruct (_ || _); [apply call_answered_refusal; [done|by left]|].
  destruct (read req) as [payload_bytes|];
    [|apply call_answered_refusal; [done|by right; left]].
  destruct (bool_decide _);
    [apply call_answered_refusal; [done|by right; left]|].
  destruct (utf8_decode payload_bytes ≫= json_loads) as [request_data|e];
    [|destruct e; apply call_answered_refusal; (done || by right; left)].
  destruct (negb (truthy (get entry_data const.CONF_ENCRYPTION_KEY)));
    [apply call_answered_refusal; [done|by right; left]|].
  destruct request_data as [| | | | |fields]; simpl;
    try (apply call_answered_raised; by right; left).
  destruct (truthy (get fields "encrypted_payload")); simpl;
    [|apply call_answered_refusal; [done|by right; left]].
  destruct (decrypt_payload (get fields "encrypted_payload")
              (get entry_data const.CONF_ENCRYPTION_KEY))
    as [service_call_data|e];
    [|apply call_answered_refusal; [done|by right; left]].
  apply call_answered_dispatch.
Qed.

(** X19 (whose entity id the call gets).  For a payload that names a
    registered service and has a top-level [entity_id]: when
    [service_data] is an object, the service is called with it, and the
    top-level entity id is added only if [service_data] has no
    ["entity_id"] of its own, which otherwise wins; when [service_data] is
    anything but an object, the handler raises a [TypeError] instead of
    answering, and calls nothing. *)
Theorem webhook_entity_id_precedence (call : pydict) (ds ns : string)
    (done : list effect) :
  get call "domain" = VStr ds -> ds <> "" ->
  get call "service" = VStr ns -> ns <> "" ->
  truthy (get call "entity_id") = true ->
  (forall sd : pydict,
     get_default call "service_data" (VDict ∅) = VDict sd ->
     has_service hass ds ns = true ->
     exists r,
       dispatch hass (VDict call) done
       = (Ok r,
          done ++ [HasService (VStr ds) (VStr ns);
                   ServiceCall (VStr ds) (VStr ns)
                     (VDict (prepared_data sd (get call "entity_id")))]))
  /\ (as_dict (get_default call "service_data" (VDict ∅))
        = Raised AttributeError ->
      dispatch hass (VDict call) done = (Raised TypeError, done)).
Proof.
  intros Hd Hds Hn Hns He.
  assert (Hdt : truthy (VStr ds) = true).
  { simpl. by destruct (String.eqb_spec ds ""). }
  assert (Hnt : truthy (VStr ns) = true).
  { simpl. by destruct (String.eqb_spec ns ""). }
  split.
  - intros sd Hsd Hhas. unfold dispatch.
    rewrite Hd, Hn, Hdt, Hnt, He, Hsd. cbn [negb orb contains].
    unfold prepared_data.
    assert (Hcheck : check_service hass (VStr ds) (VStr ns) = Ok true).
    { unfold check_service. simpl. by rewrite Hhas. }
    destruct (sd !! "entity_id") as [own|] eqn:Hown.
    + rewrite bool_decide_eq_true_2 by done.
      unfold mbind, res_bind. cbn [bind getitem]. rewrite Hown. cbn [bind].
      rewrite Hcheck, <- app_assoc. cbn [app].
      destruct (call_raises hass _ _ _); by eexists.
    + rewrite bool_decide_eq_false_2 by (by intros [? ?]).
      unfold mbind, res_bind. cbn [bind setitem].
      rewrite Hcheck, <- app_assoc. cbn [app].
      destruct (call_raises hass _ _ _); by eexists.
  - intros Hnot. unfold dispatch.
    rewrite Hd, Hn, Hdt, Hnt, He. cbn [negb orb].
    destruct (get_default call "service_data" (VDict ∅))
      as [|b|z|s|l|sd]; try discriminate Hnot;
      unfold mbind, res_bind; cbn [contains bind]; try done.
    + by destruct (occurs_in "entity_id" s).
    + by destruct (existsb _ l).
Qed.

End webhook_more.

Lemma webhook_ok_iff_service_called_witness :
  webhook.UNAUTHORIZED = webhook.OK
  <-> exists d n sd,
        webhook.ServiceCall d n sd
          ∈ (webhook.async_handle_webhook (P := samples.toy_primitives)
               samples.webhook_host (samples.request_with "guess")).2
        /\ webhook.call_raises samples.webhook_host d n sd = false.
Proof.
  destruct (webhook_ok_iff_service_called (P := samples.toy_primitives)
              samples.webhook_host (samples.request_with "guess"))
    as [Hok _].
  exact (Hok {| webhook.status := webhook.UNAUTHORIZED;
                webhook.content := webhook.Text "Unauthorized." |} eq_refl).
Defined.

Lemma webhook_entity_id_precedence_witness :
  exists r,
    webhook.dispatch samples.webhook_host (VDict samples.webhook_call) []
    = (Ok r,
       [webhook.HasService (VStr "light") (VStr "turn_on");
        webhook.ServiceCall (VStr "light") (VStr "turn_on")
          (VDict (<["entity_id" := VStr "light.kitchen"]>
                    {["brightness" := VInt 10]}))]).
Proof.
  destruct (webhook_entity_id_precedence samples.webhook_host
              samples.webhook_call "light" "turn_on" []
              eq_refl ltac:(discriminate) eq_refl ltac:(discriminate)
              eq_refl) as [Hobj _].
  exact (Hobj {["brightness" := VInt 10]} eq_refl eq_refl).
Defined.

(** ** coordinator.py: deleting and activating a directive *)

Section crud_facts.
Import coordinator coordinator_crud.

Implicit Types (h : list pydict) (ds : list nat) (d : nat).

Lemma copy_marked_spec directive_id (mark : pydict -> pydict) ds :
  forall h,
    Forall (fun d => (d < length h)%nat) ds ->
    exists ext out updated,
      copy_marked directive_id mark h ds = (h ++ ext, out, updated)
      /\ view (h ++ ext) out = marked directive_id mark <$> view h ds
      /\ deref (h ++ ext) <$> updated
         = mark <$> last_match directive_id (view h ds).
Proof.
  induction ds as [|d ds IH]; intros h Hlt.
  - exists [], [], None. by rewrite app_nil_r.
  - apply Forall_cons in Hlt as [Hd Hlt].
    cbn [copy_marked]. unfold view. rewrite fmap_cons. fold (view h ds).
    rewrite fmap_cons. cbn [last_match]. unfold marked at 1.
    destruct (has_id directive_id (deref h d)) eqn:Hid.
    + set (u := mark (deref h d)).
      destruct (IH (h ++ [u])) as (ext & out & updated & E & Hv & Hu).
      { eapply Forall_impl; [exact Hlt|].
        intros x Hx. simpl in Hx. rewrite length_app. simpl. lia. }
      rewrite E. exists ([u] ++ ext), (length h :: out), 
        (Some (default (length h) updated)).
      rewrite !app_assoc. split; [done|].
      rewrite (view_app_l h [u] ds Hlt) in Hv, Hu. split.
      * unfold view in *. rewrite fmap_cons. by rewrite deref_alloc, Hv.
      * destruct updated as [l|]; simpl in Hu |- *.
        -- destruct (last_match directive_id (view h ds)) as [y|];
             [|discriminate Hu]. exact Hu.
        -- destruct (last_match directive_id (view h ds)) as [y|];
             [discriminate Hu|]. simpl. by rewrite deref_alloc.
    + destruct (IH h Hlt) as (ext & out & updated & E & Hv & Hu).
      rewrite E. exists ext, (d :: out), updated. split; [done|]. split.
      * unfold view in *. rewrite fmap_cons. by rewrite deref_app_l, Hv.
      * rewrite Hu. by destruct (last_match directive_id (view h ds)).
Qed.

Lemma copy_marked_no_match directive_id (mark : pydict -> pydict) h ds :
  existsb (has_id directive_id) (view h ds) = false ->
  copy_marked directive_id mark h ds = (h, ds, None).
Proof.
  unfold view. induction ds as [|d ds IH]; [done|].
  rewrite fmap_cons. cbn [existsb copy_marked].
  intros H. apply orb_false_iff in H as [Hx Hxs].
  by rewrite Hx, (IH Hxs).
Qed.

Lemma mark_collection_spec directive_id (mark : pydict -> pydict)
    (st : state) ds (r : pydict) :
  data st = Some {| directives := Some ds; rest := r |} ->
  Forall (fun d => (d < length (heap st))%nat) ds ->
  exists ext ds' updated,
    mark_collection directive_id mark st
    = (async_set_updated_data {| directives := Some ds'; rest := r |}
         (with_heap (heap st ++ ext) st), updated)
    /\ view (heap st ++ ext) ds'
       = marked directive_id mark <$> view (heap st) ds
    /\ deref (heap st ++ ext) <$> updated
       = mark <$> last_match directive_id (view (heap st) ds).
Proof.
  intros Hdata Hlt. unfold mark_collection. rewrite Hdata. cbn [directives rest].
  destruct (copy_marked_spec directive_id mark ds (heap st) Hlt)
    as (ext & out & updated & E & Hv & Hu).
  rewrite E. by exists ext, out, updated.
Qed.

(** X20 (a delete is shown before it is confirmed, and not taken back).
    On a coordinator that holds a collection, [async_delete_directive]
    first publishes a collection in which every entry with the id has the
    status ["deleting"] and the others are as they were, working on copies:
    the objects of the old collection are not touched.  Then it sends one
    DELETE.  On a 200 it returns [True] and requests a refresh; on any
    other answer it raises, requests no refresh, and the published
    collection still shows the directive as deleting. *)
Theorem delete_marks_without_rollback (server : nat -> http_reply)
    directive_id (st : crud_state) ds (r : pydict) :
  data (base st) = Some {| directives := Some ds; rest := r |} ->
  Forall (fun d => (d < length (heap (base st)))%nat) ds ->
  let out := async_delete_directive server directive_id st in
  exists ds',
    data (base out.2) = Some {| directives := Some ds'; rest := r |}
    /\ last (snapshots (base out.2)) = data (base out.2)
    /\ view (heap (base out.2)) ds'
       = marked directive_id mark_deleting <$> view (heap (base st)) ds
    /\ view (heap (base out.2)) ds = view (heap (base st)) ds
    /\ sent out.2 = sent st ++ [DeleteDirective directive_id]
    /\ (((exists json, server (length (sent st)) = Response 200 json)
         /\ out.1 = Ok true
         /\ refresh_requests out.2 = S (refresh_requests st))
        \/ ((forall json, server (length (sent st)) <> Response 200 json)
            /\ out.1 = Raised (Exception "Error deleting directive")
            /\ refresh_requests out.2 = refresh_requests st)).
Proof.
  intros Hdata Hlt out.
  destruct (mark_collection_spec directive_id mark_deleting (base st) ds r
              Hdata Hlt) as (ext & ds' & updated & E & Hv & _).
  exists ds'. unfold out, async_delete_directive. rewrite E.
  cbn [fst]. unfold session_send, with_base. cbn [sent base].
  assert (Hold : view (heap (base st) ++ ext) ds = view (heap (base st)) ds)
    by by apply view_app_l.
  destruct (server (length (sent st))) as [|status json] eqn:Hrep.
  { cbn. split; [done|]. split; [apply last_snoc|].
    split; [done|]. split; [done|]. split; [done|]. right. done. }
  destruct (Z.eqb status 200) eqn:Hs.
  - apply Z.eqb_eq in Hs as ->. cbn.
    split; [done|]. split; [apply last_snoc|].
    split; [done|]. split; [done|]. split; [done|]. left.
    split; [by exists json|done].
  - apply Z.eqb_neq in Hs. cbn.
    split; [done|]. split; [apply last_snoc|].
    split; [done|]. split; [done|]. split; [done|]. right.
    split; [|done]. intros j [= E1 E2]. done.
Qed.

(** X21 (activating a directive that is not there).  When the coordinator
    has no collection, or its collection has no entry with the id,
    [async_download_directive] raises without sending a request and
    without creating a poll task. *)
Theorem download_of_missing_directive_sends_nothing
    (server : nat -> http_reply) directive_id (st : crud_state) :
  (forall ds r,
     data (base st) = Some {| directives := Some ds; rest := r |} ->
     existsb (has_id directive_id) (view (heap (base st)) ds) = false) ->
  let out := async_download_directive server directive_id st in
  out.1 = Raised (Exception "Error activating directive")
  /\ sent out.2 = sent st
  /\ poll_tasks out.2 = poll_tasks st
  /\ heap (base out.2) = heap (base st).
Proof.
  intros Hnone out. unfold out, async_download_directive, mark_collection.
  destruct (data (base st)) as [[[ds|] r]|] eqn:Hdata; cbn [directives rest];
    [|done..].
  by rewrite (copy_marked_no_match _ _ _ _ (Hnone ds r eq_refl)).
Qed.

Lemma truthy_insert (k : string) (v : value) (m : pydict) :
  truthy (VDict (<[k := v]> m)) = true.
Proof.
  simpl. destruct (Nat.eqb_spec (size (<[k := v]> m)) 0) as [Hz|]; [|done].
  apply map_size_empty_iff in Hz. by apply insert_non_empty in Hz.
Qed.

(** X22 (activating a directive that is there).  When the collection has
    entries with the id, they are published with status ["creating"] and
    [discovery] false, and one PUT is sent whose message is the message of
    the last of them.  If the answer is a 200 with a JSON object, the
    operation returns [True] and creates one poll task, for the
    ["directive_id"] of the answer; otherwise it raises and creates none,
    and the entries stay marked. *)
Theorem download_sends_message_of_last_match (server : nat -> http_reply)
    directive_id (st : crud_state) ds (r x : pydict) :
  data (base st) = Some {| directives := Some ds; rest := r |} ->
  Forall (fun d => (d < length (heap (base st)))%nat) ds ->
  last_match directive_id (view (heap (base st)) ds) = Some x ->
  let out := async_download_directive server directive_id st in
  (exists ds',
     data (base out.2) = Some {| directives := Some ds'; rest := r |}
     /\ view (heap (base out.2)) ds'
        = (fun y => if has_id directive_id y
                    then <["discovery" := VBool false]>
                           (<["status" := VStr "creating"]> y)
                    else y) <$> view (heap (base st)) ds)
  /\ sent out.2 = sent st ++ [PutDirective directive_id (get x "message")]
  /\ (forall result : pydict,
        server (length (sent st)) = Response 200 (Ok (VDict result)) ->
        out.1 = Ok true
        /\ poll_tasks out.2 = poll_tasks st ++ [get result "directive_id"])
  /\ ((forall result : pydict,
         server (length (sent st)) <> Response 200 (Ok (VDict result))) ->
      out.1 = Raised (Exception "Error activating directive")
      /\ poll_tasks out.2 = poll_tasks st).
Proof.
  intros Hdata Hlt Hlast out.
  destruct (mark_collection_spec directive_id mark_creating (base st) ds r
              Hdata Hlt) as (ext & ds' & updated & E & Hv & Hu).
  rewrite Hlast in Hu. destruct updated as [l|]; [|discriminate Hu].
  simpl in Hu. injection Hu as Hl.
  unfold out, async_download_directive. rewrite E.
  cbn [heap async_set_updated_data with_heap]. rewrite Hl.
  assert (Htruthy : truthy (VDict (mark_creating x)) = true)
    by apply truthy_insert.
  rewrite Htruthy. cbn [negb].
  assert (Hmsg : get (mark_creating x) "message" = get x "message").
  { unfold get, mark_creating. by rewrite !lookup_insert_ne. }
  rewrite Hmsg. unfold session_send, with_base. cbn [sent base].
  destruct (server (length (sent st))) as [|status json] eqn:Hrep.
  { cbn. split; [by exists ds'|]. split; [done|]. split; [done|]. done. }
  destruct (Z.eqb status 200) eqn:Hs.
  - apply Z.eqb_eq in Hs as ->.
    destruct json as [[| | | | |result]|e]; cbn;
      (split; [by exists ds'|]); (split; [done|]); split; try done.
    + intros result' [= <-]. done.
    + intros Hno. by destruct (Hno result).
  - apply Z.eqb_neq in Hs. cbn.
    split; [by exists ds'|]. split; [done|]. split; [|done].
    intros result [= E1 E2]. done.
Qed.

Lemma copy_marked_bound directive_id (mark : pydict -> pydict) ds :
  forall h,
    Forall (fun d => (d < length h)%nat) ds ->
    Forall (fun d => (d < length (copy_marked directive_id mark h ds).1.1)%nat)
      (copy_marked directive_id mark h ds).1.2
    /\ (length h <= length (copy_marked directive_id mark h ds).1.1)%nat.
Proof.
  induction ds as [|d ds IH]; intros h Hlt; [by split|].
  apply Forall_cons in Hlt as [Hd Hlt]. cbn [copy_marked].
  destruct (has_id directive_id (deref h d)).
  - destruct (IH (h ++ [mark (deref h d)])) as [Hout Hlen].
    { eapply Forall_impl; [exact Hlt|].
      intros x Hx. simpl in Hx. rewrite length_app. simpl. lia. }
    destruct (copy_marked directive_id mark (h ++ [mark (deref h d)]) ds)
      as [[h' out] later].
    cbn [fst snd] in *. rewrite length_app in Hlen. simpl in Hlen.
    split; [|lia]. constructor; [lia|done].
  - destruct (IH h Hlt) as [Hout Hlen].
    destruct (copy_marked directive_id mark h ds) as [[h' out] later].
    cbn [fst snd] in *. split; [|done]. constructor; [lia|done].
Qed.

Lemma find_marked directive_id (messages : value) (xs : list pydict) :
  find (has_id directive_id)
    (marked directive_id (set_messages messages) <$> xs)
  = set_messages messages <$> find (has_id directive_id) xs.
Proof.
  induction xs as [|x xs IH]; [done|]. rewrite fmap_cons. cbn [find].
  unfold marked at 1. destruct (has_id directive_id x) eqn:Hid.
  - assert (Hkeep : has_id directive_id (set_messages messages x) = true).
    { unfold has_id, get, set_messages in *. by rewrite lookup_insert_ne. }
    rewrite Hkeep. unfold marked. by rewrite Hid.
  - by rewrite Hid.
Qed.

Lemma conversation_publishes (server : nat -> http_reply) directive_id
    (st : crud_state) ds (r result : pydict) :
  data (base st) = Some {| directives := Some ds; rest := r |} ->
  Forall (fun d => (d < length (heap (base st)))%nat) ds ->
  server (length (sent st)) = Response 200 (Ok (VDict result)) ->
  truthy (get result "messages") = true ->
  let out := async_get_conversation server directive_id st in
  out.1 = Ok (VDict result)
  /\ requests (base out.2) = requests (base st)
  /\ exists ds',
       data (base out.2) = Some {| directives := Some ds'; rest := r |}
       /\ last (snapshots (base out.2)) = data (base out.2)
       /\ Forall (fun d => (d < length (heap (base out.2)))%nat) ds'
       /\ view (heap (base out.2)) ds'
          = marked directive_id (set_messages (get result "messages"))
              <$> view (heap (base st)) ds.
Proof.
  intros Hdata Hlt Hrep Hm out.
  unfold out, async_get_conversation, session_send. cbn [sent base].
  rewrite Hrep. cbn [Z.eqb Pos.eqb as_dict]. rewrite Hm, Hm.
  destruct (mark_collection_spec directive_id
              (set_messages (get result "messages")) (base st) ds r
              Hdata Hlt) as (ext & ds' & updated & E & Hv & _).
  pose proof (copy_marked_bound directive_id
                (set_messages (get result "messages")) ds
                (heap (base st)) Hlt) as [Hbound _].
  assert (Hc : copy_marked directive_id
                 (set_messages (get result "messages"))
                 (heap (base st)) ds
               = (heap (base st) ++ ext, ds', updated)).
  { revert E. unfold mark_collection. rewrite Hdata. cbn [directives rest].
    destruct (copy_marked directive_id
                (set_messages (get result "messages"))
                (heap (base st)) ds) as [[h' out'] later].
    intros [= E1 E2 E3]. by subst. }
  rewrite Hc in Hbound. cbn [fst snd] in Hbound.
  rewrite E. cbn. split; [done|]. split; [done|]. exists ds'.
  split; [done|]. split; [apply last_snoc|]. by split.
Qed.

(** A successful full fetch on a collection: what the fetched object
    carries. *)
Lemma fetched_object_messages (env : remote) directive_id (b : state)
    (api_response directive_data : pydict) ds (r : pydict) :
  reply env (length (requests b))
    = Response 200 (Ok (VDict api_response)) ->
  get api_response "directive" = VDict directive_data ->
  truthy (VDict directive_data) = true ->
  data b = Some {| directives := Some ds; rest := r |} ->
  exists l st',
    async_get_directive env directive_id b = (Ok (Some (Object l)), st')
    /\ deref (heap st') l
       = <["messages" :=
             match find (has_id directive_id) (view (heap b) ds) with
             | Some x => get_default x "messages" (VList [])
             | None => VList []
             end]> directive_data.
Proof.
  intros Hr Hget Ht Hdata.
  unfold async_get_directive. simpl. rewrite Hr. simpl.
  rewrite Hget, Ht. simpl. rewrite Hdata.
  eexists _, _. split; [reflexivity|]. simpl.
  rewrite <- (app_nil_r (heap b ++ _)), deref_alloc. f_equal.
  rewrite find_view.
  by destruct (find (fun d => has_id directive_id (deref (heap b) d)) ds).
Qed.

(** X25 (what a conversation changes).  [async_get_conversation] sends one
    request.  On a coordinator that holds a collection, a 200 answer that
    is a JSON object with a non-empty list (or any truthy value) under
    ["messages"] is returned as it is, after a collection is published in
    which the entries with the id carry those messages and the others are
    as they were.  An answer without messages is returned without
    publishing anything, and any other answer raises and leaves the
    coordinator alone. *)
Theorem conversation_sets_messages (server : nat -> http_reply)
    directive_id (st : crud_state) ds (r : pydict) :
  data (base st) = Some {| directives := Some ds; rest := r |} ->
  Forall (fun d => (d < length (heap (base st)))%nat) ds ->
  let out := async_get_conversation server directive_id st in
  sent out.2 = sent st ++ [GetConversation directive_id]
  /\ (forall (result : pydict),
        server (length (sent st)) = Response 200 (Ok (VDict result)) ->
        out.1 = Ok (VDict result)
        /\ (truthy (get result "messages") = true ->
            exists ds',
              data (base out.2)
                = Some {| directives := Some ds'; rest := r |}
              /\ last (snapshots (base out.2)) = data (base out.2)
              /\ Forall (fun d => (d < length (heap (base out.2)))%nat) ds'
              /\ view (heap (base out.2)) ds'
                 = marked directive_id
                     (set_messages (get result "messages"))
                     <$> view (heap (base st)) ds)
        /\ (truthy (get result "messages") = false ->
            base out.2 = base st))
  /\ ((forall result : pydict,
         server (length (sent st)) <> Response 200 (Ok (VDict result))) ->
      out.1 = Raised (Exception "Error getting conversation")
      /\ base out.2 = base st).
Proof.
  intros Hdata Hlt out. split; [|split].
  - unfold out, async_get_conversation, session_send. cbn [sent base].
    by repeat case_match.
  - intros result Hrep.
    destruct (truthy (get result "messages")) eqn:Hm.
    + destruct (conversation_publishes server directive_id st ds r result
                  Hdata Hlt Hrep Hm) as (Hok & _ & Hpub).
      split; [exact Hok|]. split; [intros _; exact Hpub|done].
    + unfold out, async_get_conversation, session_send. cbn [sent base].
      rewrite Hrep. cbn [Z.eqb Pos.eqb as_dict]. rewrite Hm. cbn.
      split; [done|]. split; [done|]. intros _. by destruct st.
  - intros Hno. unfold out, async_get_conversation, session_send.
    cbn [sent base].
    destruct (server (length (sent st))) as [|status json] eqn:Hrep;
      [done|].
    destruct (Z.eqb status 200) eqn:Hs; [|done].
    apply Z.eqb_eq in Hs as ->.
    destruct json as [[| | | | |result]|e]; try done.
    by destruct (Hno result).
Qed.

(** X26 (messages survive the next full fetch).  After
    [async_get_conversation] has stored the messages of a conversation on a
    directive of the collection, the object that a later, successful
    [async_get_directive] puts in its place carries those same messages. *)
Theorem conversation_messages_survive_fetch (server : nat -> http_reply)
    (env : remote) directive_id (st : crud_state) ds (r : pydict)
    (result api_response directive_data : pydict) :
  data (base st) = Some {| directives := Some ds; rest := r |} ->
  Forall (fun d => (d < length (heap (base st)))%nat) ds ->
  existsb (has_id directive_id) (view (heap (base st)) ds) = true ->
  server (length (sent st)) = Response 200 (Ok (VDict result)) ->
  truthy (get result "messages") = true ->
  let talked := (async_get_conversation server directive_id st).2 in
  reply env (length (requests (base talked)))
    = Response 200 (Ok (VDict api_response)) ->
  get api_response "directive" = VDict directive_data ->
  truthy (VDict directive_data) = true ->
  exists l st',
    async_get_directive env directive_id (base talked) = (Ok (Some (Object l)), st')
    /\ deref (heap st') l
       = <["messages" := get result "messages"]> directive_data.
Proof.
  intros Hdata Hlt Hex Hrep Hm talked Hr Hget Ht.
  destruct (conversation_publishes server directive_id st ds r result
              Hdata Hlt Hrep Hm)
    as (_ & _ & ds' & Hdata' & _ & _ & Hview).
  fold talked in Hdata', Hview.
  destruct (fetched_object_messages env directive_id (base talked)
              api_response directive_data ds' r Hr Hget Ht Hdata')
    as (l & st' & Hrun & Hl).
  exists l, st'. split; [exact Hrun|]. rewrite Hl. f_equal.
  rewrite Hview, find_marked.
  destruct (find (has_id directive_id) (view (heap (base st)) ds))
    as [x|] eqn:Hfind.
  - simpl. unfold get_default, set_messages. by rewrite lookup_insert_eq.
  - apply existsb_exists in Hex as (x & Hin & Hx).
    pose proof (find_none _ _ Hfind x Hin) as Hnot. simpl in Hnot.
    congruence.
Qed.

End crud_facts.

Lemma delete_marks_without_rollback_witness :
  exists ds',
    coordinator.data
      (coordinator_crud.base
         (coordinator_crud.async_delete_directive crud_samples.server_down "d0"
            crud_samples.crud_start).2)
    = Some {| coordinator.directives := Some ds'; coordinator.rest := ∅ |}
    /\ coordinator.view
         (coordinator.heap
            (coordinator_crud.base
               (coordinator_crud.async_delete_directive crud_samples.server_down
                  "d0" crud_samples.crud_start).2)) ds'
       = [<["status" := VStr "deleting"]>
            (<["id" := VStr "d0"]> (<["status" := VStr "active"]> ∅))].
Proof.
  destruct (delete_marks_without_rollback crud_samples.server_down "d0"
              crud_samples.crud_start [0%nat] ∅ eq_refl
              ltac:(repeat constructor))
    as (ds' & Hdata & _ & Hview & _).
  exists ds'. split; [exact Hdata | exact Hview].
Defined.

Lemma download_of_missing_directive_sends_nothing_witness :
  coordinator_crud.sent
    (coordinator_crud.async_download_directive crud_samples.server_accepting "d9"
       crud_samples.crud_start).2 = [].
Proof.
  destruct (download_of_missing_directive_sends_nothing
              crud_samples.server_accepting "d9" crud_samples.crud_start)
    as (_ & Hsent & _).
  - intros ds r [= <- <-]. reflexivity.
  - exact Hsent.
Defined.

Lemma download_sends_message_of_last_match_witness :
  (coordinator_crud.async_download_directive crud_samples.server_accepting "d0"
     crud_samples.crud_start).1 = Ok true
  /\ coordinator_crud.poll_tasks
       (coordinator_crud.async_download_directive crud_samples.server_accepting
          "d0" crud_samples.crud_start).2 = [VStr "d0"]
  /\ exists ds',
       coordinator.view
         (coordinator.heap
            (coordinator_crud.base
               (coordinator_crud.async_download_directive
                  crud_samples.server_accepting "d0"
                  crud_samples.crud_start).2)) ds'
       = [<["discovery" := VBool false]>
            (<["status" := VStr "creating"]>
               (<["id" := VStr "d0"]> (<["status" := VStr "active"]> ∅)))].
Proof.
  destruct (download_sends_message_of_last_match crud_samples.server_accepting
              "d0" crud_samples.crud_start [0%nat] ∅
              (<["id" := VStr "d0"]> (<["status" := VStr "active"]> ∅))
              eq_refl ltac:(repeat constructor) eq_refl)
    as ((ds' & _ & Hview) & _ & Hok & _).
  destruct (Hok {["directive_id" := VStr "d0"]} eq_refl) as [Hret Htasks].
  split; [exact Hret|]. split; [exact Htasks|].
  exists ds'. exact Hview.
Defined.

(** ** sensor.py and the setup of the entry *)

Section sensor_facts.
Import coordinator sensor_logic.

Implicit Types (h : list pydict) (ds : list nat) (d : nat).

Lemma update_first_insert directive_id (x : pydict) h ds d :
  well_formed h ds ->
  find (fun d => has_id directive_id (deref h d)) ds = Some d ->
  view (<[d := x ∪ deref h d]> h) ds
    = update_first directive_id x (view h ds).
Proof.
  unfold well_formed, view.
  induction ds as [|e ds IH]; intros [Hlt Hnd] Hfind; csimpl; [done|].
  apply Forall_cons in Hlt as [He Hlt].
  apply NoDup_cons in Hnd as [Hnin Hnd].
  simpl in Hfind. destruct (has_id directive_id (deref h e)) eqn:Hid.
  - injection Hfind as <-.
    pose proof (view_insert_notin h ds e (x ∪ deref h e) Hnin) as Hw.
    unfold view in Hw. rewrite Hw. f_equal.
    unfold deref at 1. by rewrite list_lookup_insert_eq.
  - rewrite IH by done. f_equal.
    assert (d <> e).
    { intros ->. apply Hnin. apply find_some in Hfind as [Hin _].
      by apply list_elem_of_In. }
    unfold deref at 1. by rewrite list_lookup_insert_ne.
Qed.

Lemma existsb_find_view directive_id h ds :
  existsb (has_id directive_id) (view h ds)
  = bool_decide
      (is_Some (find (fun d => has_id directive_id (deref h d)) ds)).
Proof.
  unfold view. induction ds as [|d ds IH]; csimpl; [done|].
  destruct (has_id directive_id (deref h d)); [|exact IH].
  symmetry. by apply bool_decide_eq_true_2.
Qed.

(** X24 (the sensor updates the first entry or appends one).  On a list
    whose entries are distinct objects of the store,
    [async_set_directive_state] with a dictionary changes the first entry
    that has the id, in place: the keys of the dictionary are written over
    it and its other keys stay.  When no entry has the id, one entry is
    appended: the dictionary, with the id where the dictionary has none.
    Every other entry is left as it was. *)
Theorem sensor_updates_first_or_appends directive_id (new_state : pydict)
    ds h :
  well_formed h ds ->
  let out := async_set_directive_state directive_id new_state ds h in
  view out.1 out.2
  = if existsb (has_id directive_id) (view h ds)
    then update_first directive_id new_state (view h ds)
    else view h ds ++ [new_state ∪ {["id" := VStr directive_id]}].
Proof.
  intros Hwf out. unfold out, async_set_directive_state.
  rewrite existsb_find_view.
  destruct (find (fun d => has_id directive_id (deref h d)) ds) as [d|]
    eqn:Hfind.
  - rewrite bool_decide_eq_true_2 by done.
    pose proof (find_some _ _ Hfind) as [_ Hid]. simpl in Hid.
    rewrite (has_id_nonempty _ _ Hid). cbn [fst snd].
    by apply update_first_insert.
  - rewrite bool_decide_eq_false_2 by (by intros [? ?]). cbn [fst snd].
    unfold view. rewrite fmap_app. f_equal.
    + destruct Hwf as [Hlt _]. by apply (view_app_l h _ ds).
    + csimpl. f_equal. rewrite <- (app_nil_r (h ++ _)). apply deref_alloc.
Qed.

End sensor_facts.

Section setup_facts.
Import setup_entry.
Variable cfg : hass_config.

(** X23 (the webhook is registered with the API once).  The block of
    [async_setup_entry] that registers the webhook sends nothing when the
    entry already carries the flag.  When it sends, it sends one body,
    built from the secret of the entry and from the configured base URL
    or, failing that, the external and then the internal URL of the host.
    The entry changes only by gaining the flag, and it gains it exactly
    when the request was sent and answered with a status from 200 to 299;
    after that, another setup sends nothing. *)
Theorem webhook_registration_runs_once (reply : http_reply)
    (entry_id : string) (data : pydict) :
  let out := register_webhook_with_api cfg reply entry_id data in
  (truthy (get data CONF_WEBHOOK_REGISTERED_TO_API) = true ->
   entry_data out = data /\ posted out = [])
  /\ (posted out = []
      \/ posted out
         = [payload_to_your_api entry_id (get data const.CONF_WEBHOOK_SECRET)
              (if truthy (get data CONF_HA_BASE_URL)
               then get data CONF_HA_BASE_URL
               else py_or (external_url cfg) (internal_url cfg)) cfg])
  /\ (entry_data out = data
      \/ entry_data out
         = <[CONF_WEBHOOK_REGISTERED_TO_API := VBool true]> data)
  /\ (entry_data out
        = <[CONF_WEBHOOK_REGISTERED_TO_API := VBool true]> data
      /\ posted out <> []
      <-> truthy (get data CONF_WEBHOOK_REGISTERED_TO_API) = false
          /\ truthy (get data const.CONF_WEBHOOK_SECRET) = true
          /\ truthy (get data CONF_API_KEY) = true
          /\ exists status json,
               reply = Response status json /\ 200 <= status < 300)
  /\ (posted out <> [] ->
      entry_data out <> data ->
      forall reply',
        posted (register_webhook_with_api cfg reply' entry_id
                  (entry_data out)) = []).
Proof.
  intros out. unfold out, register_webhook_with_api.
  destruct (truthy (get data CONF_WEBHOOK_REGISTERED_TO_API)) eqn:Hflag;
    cbn [negb].
  { cbn. split; [done|]. split; [by left|]. split; [by left|].
    split; [|done]. split; [by intros [_ ?]|by intros [? _]]. }
  destruct (truthy (get data const.CONF_WEBHOOK_SECRET)) eqn:Hsecret;
    cbn [andb].
  2: { cbn. split; [done|]. split; [by left|]. split; [by left|].
       split; [|done]. split; [by intros [_ ?]|by intros (_ & ? & _)]. }
  destruct (truthy (get data CONF_API_KEY)) eqn:Hkey.
  2: { cbn. split; [done|]. split; [by left|]. split; [by left|].
       split; [|done]. split; [by intros [_ ?]|by intros (_ & _ & ? & _)]. }
  assert (Hurl : (if negb (truthy (get data CONF_HA_BASE_URL))
                  then py_or (external_url cfg) (internal_url cfg)
                  else get data CONF_HA_BASE_URL)
                 = (if truthy (get data CONF_HA_BASE_URL)
                    then get data CONF_HA_BASE_URL
                    else py_or (external_url cfg) (internal_url cfg)))
    by by destruct (truthy (get data CONF_HA_BASE_URL)).
  rewrite Hurl.
  assert (Hfresh : <[CONF_WEBHOOK_REGISTERED_TO_API := VBool true]> data
                   <> data).
  { intros E. apply (f_equal (fun m => get m CONF_WEBHOOK_REGISTERED_TO_API))
      in E. unfold get at 1 in E. rewrite lookup_insert_eq in E.
    simpl in E. by rewrite <- E in Hflag. }
  destruct reply as [|status json].
  { cbn. split; [done|]. split; [by right|]. split; [by left|].
    split; [|done].
    split; [by intros [? _]|by intros (_ & _ & _ & ? & ? & ? & _)]. }
  destruct (Z.leb 200 status && Z.ltb status 300) eqn:Hs.
  - apply andb_true_iff in Hs as [H1 H2].
    apply Z.leb_le in H1. apply Z.ltb_lt in H2. cbn.
    split; [done|]. split; [by right|]. split; [by right|]. split.
    + split; [|done]. intros _. repeat split. by exists status, json.
    + intros _ _ reply'. unfold get at 1. rewrite lookup_insert_eq. done.
  - cbn. split; [done|]. split; [by right|]. split; [by left|].
    split; [|done]. split; [by intros [? _]|].
    intros (_ & _ & _ & status' & json' & [= <- <-] & H1 & H2).
    apply andb_false_iff in Hs as [Hs|Hs].
    + apply Z.leb_gt in Hs. lia.
    + apply Z.ltb_ge in Hs. lia.
Qed.

End setup_facts.

Lemma sensor_updates_first_or_appends_witness :
  coordinator.view
    (coordinator.async_set_directive_state "d0"
       {["status" := VStr "paused"]} [0%nat]
       (coordinator.heap samples.coordinator_state)).1
    (coordinator.async_set_directive_state "d0"
       {["status" := VStr "paused"]} [0%nat]
       (coordinator.heap samples.coordinator_state)).2
  = [{["status" := VStr "paused"]}
       ∪ <["id" := VStr "d0"]> (<["status" := VStr "active"]> ∅)].
Proof.
  assert (Hwf : coordinator.well_formed
                  (coordinator.heap samples.coordinator_state) [0%nat]).
  { split; [repeat constructor | apply NoDup_singleton]. }
  exact (sensor_updates_first_or_appends "d0" {["status" := VStr "paused"]}
           [0%nat] (coordinator.heap samples.coordinator_state) Hwf).
Defined.

Lemma webhook_registration_runs_once_witness :
  setup_entry.posted
    (setup_entry.register_webhook_with_api setup_entry.sample_config
       (Response 201 (Ok VNone)) "entry1"
       (setup_entry.entry_data
          (setup_entry.register_webhook_with_api setup_entry.sample_config
             (Response 201 (Ok VNone)) "entry1" setup_entry.sample_entry)))
  = [].
Proof.
  destruct (webhook_registration_runs_once setup_entry.sample_config
              (Response 201 (Ok VNone)) "entry1" setup_entry.sample_entry)
    as (_ & _ & _ & _ & Honce).
  apply Honce.
  - discriminate.
  - intros E.
    apply (f_equal (fun m => m !! "webhook_registered_to_api")) in E.
    discriminate E.
Defined.

Lemma conversation_sets_messages_witness :
  (coordinator_crud.async_get_conversation crud_samples.server_talking "d0"
     crud_samples.crud_start).1
  = Ok (VDict {["messages" := crud_samples.conversation]}).
Proof.
  destruct (conversation_sets_messages crud_samples.server_talking "d0"
              crud_samples.crud_start [0%nat] ∅ eq_refl
              ltac:(repeat constructor)) as (_ & Hanswer & _).
  exact (proj1 (Hanswer {["messages" := crud_samples.conversation]}
                  eq_refl)).
Defined.

Lemma conversation_messages_survive_fetch_witness :
  exists l st',
    coordinator.async_get_directive samples.remote_serving "d0"
      (coordinator_crud.base
         (coordinator_crud.async_get_conversation
            crud_samples.server_talking "d0" crud_samples.crud_start).2)
    = (Ok (Some (coordinator.Object l)), st')
    /\ coordinator.deref (coordinator.heap st') l
       = <["messages" := crud_samples.conversation]>
           samples.directive_record.
Proof.
  exact (conversation_messages_survive_fetch crud_samples.server_talking
           samples.remote_serving "d0" crud_samples.crud_start [0%nat] ∅
           {["messages" := crud_samples.conversation]}
           samples.directive_response samples.directive_record
           eq_refl ltac:(repeat constructor) eq_refl eq_refl eq_refl
           eq_refl eq_refl eq_refl).
Defined.
